(** * nanopore-mods: per-context histograms of base-modification calls

    Shallow embedding of the two programs of the repository,
    [src/nanopore_mods.cpp] (raw report) and its variant with the two
    output layouts (strand-collapsed and strand-separated), and the
    properties of the nucleotide encoder, the per-read accumulator, the
    two formatters and the tail of [main].

    Conventions.
    - [std::uint64_t] counters are [Z] with the wrap-around at [2^64]
      written out ([incr64], [add64]).
    - [std::array] values are lists; their sizes are kept by the
      predicates [table_shape] and [stats_ok].  An index outside an array is
      undefined behaviour in C++: the embedding returns [None] there.
    - [std::map<std::string, std::vector<std::uint64_t>>] is
      [gmap string (list Z)].
    - The alignment reader (htslib) is outside the repository: a record
      [bam1_t] carries what the accumulator asks of it. *)

From Stdlib Require Import ZArith Lia.
From stdpp Require Import base option list gmap strings.

Local Open Scope Z_scope.

(** ** Machine integers *)

Definition uint64_modulus : Z := 2 ^ 64.
Definition int_max : Z := 2 ^ 31 - 1.

(** [x++] on a [std::uint64_t]. *)
Definition incr64 (x : Z) : Z := (x + 1) mod uint64_modulus.

(** [std::plus{}] on two [std::uint64_t]. *)
Definition add64 (x y : Z) : Z := (x + y) mod uint64_modulus.

(** [static_cast<std::uint8_t>(c)]. *)
Definition to_uint8 (c : Z) : Z := c mod 256.

(** ** Histograms and tables

    [std::array<std::uint64_t, n_values>] is a list of [n_values]
    counters, [std::array<std::array<std::uint64_t, n_values>, n_nucs>] a
    list of [n_nucs] such lists. *)

Definition n_values : Z := 256.
Definition max_mods : Z := 10.

(** [h[q]++].  The index is converted to [std::size_t]: a negative [q]
    lands outside the array, like one that is too large. *)
Definition hist_incr (h : list Z) (q : Z) : option (list Z) :=
  if decide (0 ≤ q < Z.of_nat (length h))
  then Some (alter incr64 (Z.to_nat q) h)
  else None.

(** [t[c][q]++]. *)
Definition table_incr (t : list (list Z)) (c q : Z) : option (list (list Z)) :=
  if decide (0 ≤ c) then
    h ← t !! Z.to_nat c;
    h' ← hist_incr h q;
    Some (<[Z.to_nat c := h']> t)
  else None.

(** The counter [t[c][q]], when there is one. *)
Definition cell (t : list (list Z)) (c q : nat) : option Z :=
  h ← t !! c; h !! q.

Definition zero_table : list (list Z) :=
  replicate (Z.to_nat 4) (replicate (Z.to_nat n_values) 0).

(** ** What the alignment reader provides (htslib, outside the repository)

    [hts_base_mod] is htslib's record of one modification at a site; the
    accumulator reads its [qual] only. *)

Record hts_base_mod : Type := {
  modified_base : Z;
  canonical_base : Z;
  strand : Z;
  qual : Z
}.

Definition hts_base_mod_zero : hts_base_mod :=
  {| modified_base := 0; canonical_base := 0; strand := 0; qual := 0 |}.

(** One alignment record, as the accumulator sees it:
    - [l_qseq] is [aln->core.l_qseq];
    - [bam_is_rev] is [bam_is_rev(aln)];
    - [base_at i] is the character [seq_nt16_str[bam_seqi(bam_get_seq(aln), i)]];
    - [basemods] lists what the successive calls of [bam_next_basemod]
      report after [bam_parse_basemod]: the position of the site and the
      modifications found there; after the last one the call returns [0]
      (or [-1] on failure), which ends the loop either way. *)
Record bam1_t : Type := {
  l_qseq : Z;
  bam_is_rev : bool;
  base_at : Z → Z;
  basemods : list (Z * list hts_base_mod)
}.

(** [bam_next_basemod(aln, m, d, max_mods, &pos)] at a pending site: it
    returns the number of modifications found, which may exceed
    [max_mods], writes the first [max_mods] of them at the front of the
    array [d] and stores the position of the site. *)
Definition bam_next_basemod (site : Z * list hts_base_mod) (d : list hts_base_mod)
  : Z * list hts_base_mod * Z :=
  let written := take (Z.to_nat max_mods) site.2 in
  (Z.of_nat (length site.2), written ++ drop (length written) d, site.1).

(** ** The accumulator state, [struct mod_prob_stats]

    Both programs declare the same struct: the scratch array [mods],
    which [bam_next_basemod] fills, and the four tables.  (The reader's
    own state, behind the pointer [m], is the list of the sites still to
    be reported.) *)

Record mod_prob_stats : Type := {
  mods : list hts_base_mod;
  methyl_fwd : list (list Z);
  methyl_rev : list (list Z);
  hydroxy_fwd : list (list Z);
  hydroxy_rev : list (list Z)
}.

(** The default constructor: every member is value-initialised. *)
Definition mod_prob_stats_init : mod_prob_stats :=
  {| mods := replicate (Z.to_nat max_mods) hts_base_mod_zero;
     methyl_fwd := zero_table;
     methyl_rev := zero_table;
     hydroxy_fwd := zero_table;
     hydroxy_rev := zero_table |}.

Definition set_mods (d : list hts_base_mod) (s : mod_prob_stats) : mod_prob_stats :=
  {| mods := d;
     methyl_fwd := methyl_fwd s; methyl_rev := methyl_rev s;
     hydroxy_fwd := hydroxy_fwd s; hydroxy_rev := hydroxy_rev s |}.

(** The four tables of a state, by name and in the order of the struct. *)
Inductive table_id : Type := MethylFwd | MethylRev | HydroxyFwd | HydroxyRev.

Definition table_of (id : table_id) (s : mod_prob_stats) : list (list Z) :=
  match id with
  | MethylFwd => methyl_fwd s
  | MethylRev => methyl_rev s
  | HydroxyFwd => hydroxy_fwd s
  | HydroxyRev => hydroxy_rev s
  end.

Definition tables (s : mod_prob_stats) : list (list (list Z)) :=
  [methyl_fwd s; methyl_rev s; hydroxy_fwd s; hydroxy_rev s].

(** ** What a run of [main] does to the outside

    [R] is the type of the report handed to the JSON serialiser. *)

Inductive event (R : Type) : Type :=
  | PrintHelp
  | Stderr (msg : string)
  | OpenOutput (path : string)
  | WriteReport (r : R).
Arguments PrintHelp {R}.
Arguments Stderr {R} msg.
Arguments OpenOutput {R} path.
Arguments WriteReport {R} r.

Inductive completion : Type :=
  | Return (status : Z)
  | Throw (what : string).

Definition EXIT_SUCCESS : Z := 0.
Definition EXIT_FAILURE : Z := 1.

(** What [main] meets: the argument count, the exit status of
    [CLI11_PARSE] when it leaves [main], the two file names, whether
    [hts_open] and [sam_hdr_read] succeed, what the successive calls of
    [sam_read1] return (a status and the record read; past the end the
    reader returns [-1]) and whether the output file opens. *)
Record run_env : Type := {
  argc : Z;
  cli11_parse_exit : option Z;
  infile : string;
  outfile : string;
  hts_open_ok : bool;
  sam_hdr_read_ok : bool;
  sam_stream : list (Z * bam1_t);
  ofstream_ok : bool
}.

(** ** The program [src/nanopore_mods.cpp] *)

Module NanoporeMods.

Definition n_nucs : Z := 4.

Definition encoding : list Z :=
  [ 4; 4; 4; 4; 4; 4; 4; 4; 4; 4; 4; 4; 4; 4; 4; 4;  (* 16 *)
    4; 4; 4; 4; 4; 4; 4; 4; 4; 4; 4; 4; 4; 4; 4; 4;  (* 32 *)
    4; 4; 4; 4; 4; 4; 4; 4; 4; 4; 4; 4; 4; 4; 4; 4;  (* 48 *)
    4; 4; 4; 4; 4; 4; 4; 4; 4; 4; 4; 4; 4; 4; 4; 4;  (* 64 *)
    4; 0; 4; 1; 4; 4; 4; 2; 4; 4; 4; 4; 4; 4; 4; 4;  (* 80 *)
    4; 4; 4; 4; 3; 4; 4; 4; 4; 4; 4; 4; 4; 4; 4; 4;  (* 96 *)
    4; 4; 4; 4; 4; 4; 4; 4; 4; 4; 4; 4; 4; 4; 4; 4;  (* 112 *)
    4; 4; 4; 4; 4; 4; 4; 4; 4; 4; 4; 4; 4; 4; 4; 4;  (* 128 *)
    4; 4; 4; 4; 4; 4; 4; 4; 4; 4; 4; 4; 4; 4; 4; 4;  (* 144 *)
    4; 4; 4; 4; 4; 4; 4; 4; 4; 4; 4; 4; 4; 4; 4; 4;  (* 160 *)
    4; 4; 4; 4; 4; 4; 4; 4; 4; 4; 4; 4; 4; 4; 4; 4;  (* 176 *)
    4; 4; 4; 4; 4; 4; 4; 4; 4; 4; 4; 4; 4; 4; 4; 4;  (* 192 *)
    4; 4; 4; 4; 4; 4; 4; 4; 4; 4; 4; 4; 4; 4; 4; 4;  (* 208 *)
    4; 4; 4; 4; 4; 4; 4; 4; 4; 4; 4; 4; 4; 4; 4; 4;  (* 224 *)
    4; 4; 4; 4; 4; 4; 4; 4; 4; 4; 4; 4; 4; 4; 4; 4;  (* 240 *)
    4; 4; 4; 4; 4; 4; 4; 4; 4; 4; 4; 4; 4; 4; 4; 4   (* 256 *) ].

(** [encoding[b]].  [None] stands for a read outside the table. *)
Definition encode (b : Z) : option Z :=
  if decide (0 ≤ b) then encoding !! Z.to_nat b else None.

Definition h_idx : Z := 0.
Definition m_idx : Z := 1.

(** The character [other_nuc]: the base before the site on a reverse
    read, the base after it on a forward read, ['\0'] where there is
    none.  [pos + 1] is an [int]: past [int_max] it is undefined. *)
Definition other_nuc (aln : bam1_t) (pos : Z) : option Z :=
  if bam_is_rev aln then
    Some (if decide (pos > 0) then base_at aln (pos - 1) else 0)
  else if decide (pos + 1 ≤ int_max) then
    Some (if decide (pos + 1 < l_qseq aln) then base_at aln (pos + 1) else 0)
  else None.

(** The body of the [while] loop of [operator()], after
    [bam_next_basemod] returned [n] and set [pos].  Both [continue] and
    the end of the body lead to the next call of [bam_next_basemod]. *)
Definition site_body (aln : bam1_t) (n pos : Z) (s : mod_prob_stats)
  : option mod_prob_stats :=
  if decide (n < m_idx) then Some s
  else
    nuc ← other_nuc aln pos;
    other_enc ← encode (to_uint8 nuc);
    if decide (other_enc = n_nucs) then Some s
    else
      h ← mods s !! Z.to_nat h_idx;
      m ← mods s !! Z.to_nat m_idx;
      if bam_is_rev aln then
        hr ← table_incr (hydroxy_rev s) other_enc (qual h);
        mr ← table_incr (methyl_rev s) other_enc (qual m);
        Some {| mods := mods s;
                methyl_fwd := methyl_fwd s; methyl_rev := mr;
                hydroxy_fwd := hydroxy_fwd s; hydroxy_rev := hr |}
      else
        hf ← table_incr (hydroxy_fwd s) other_enc (qual h);
        mf ← table_incr (methyl_fwd s) other_enc (qual m);
        Some {| mods := mods s;
                methyl_fwd := mf; methyl_rev := methyl_rev s;
                hydroxy_fwd := hf; hydroxy_rev := hydroxy_rev s |}.

(** [while ((n = bam_next_basemod(aln, m.get(), d, max_mods, &pos)) > 0)]
    over the sites still to be reported. *)
Fixpoint basemod_loop (aln : bam1_t) (pending : list (Z * list hts_base_mod))
    (s : mod_prob_stats) : option mod_prob_stats :=
  match pending with
  | [] => Some s
  | site :: rest =>
      let '(n, d, pos) := bam_next_basemod site (mods s) in
      if decide (n > 0) then
        s' ← site_body aln n pos (set_mods d s);
        basemod_loop aln rest s'
      else Some (set_mods d s)
  end.

(** [mod_prob_stats::operator()(const bam1_t *aln)]. *)
Definition operator_call (s : mod_prob_stats) (aln : bam1_t) : option mod_prob_stats :=
  basemod_loop aln (basemods aln) s.

(** [while ((read_status = sam_read1(in, hdr.get(), aln.get())) > -1) mps(aln.get());]
    The result is the last [read_status] and the state. *)
Fixpoint read_loop (stream : list (Z * bam1_t)) (mps : mod_prob_stats)
  : option (Z * mod_prob_stats) :=
  match stream with
  | [] => Some (-1, mps)
  | (read_status, aln) :: rest =>
      if decide (read_status > -1) then
        mps' ← operator_call mps aln;
        read_loop rest mps'
      else Some (read_status, mps)
  end.

(** The report is the state itself: its four tables, as
    [NLOHMANN_DEFINE_TYPE_INTRUSIVE] lists them. *)
Definition report : Type := list (list (list Z)).

(** [main].  [None] stands for a run that meets undefined behaviour. *)
Definition main (e : run_env) : option (list (event report) * completion) :=
  if decide (argc e < 2) then Some ([PrintHelp], Return EXIT_SUCCESS)
  else match cli11_parse_exit e with
  | Some status => Some ([], Return status)
  | None =>
    if negb (hts_open_ok e) then
      Some ([], Throw ("failed to open file: " +:+ infile e))
    else if negb (sam_hdr_read_ok e) then
      Some ([], Throw ("failed to parse header from file: " +:+ infile e))
    else
      '(read_status, mps) ← read_loop (sam_stream e) mod_prob_stats_init;
      if decide (read_status < -1) then
        Some ([Stderr "failed reading bam record"], Return EXIT_FAILURE)
      else if negb (ofstream_ok e) then
        Some ([OpenOutput (outfile e)],
              Throw ("Error opening output file: " +:+ outfile e))
      else
        Some ([OpenOutput (outfile e); WriteReport (tables mps)],
              Return EXIT_SUCCESS)
  end.

End NanoporeMods.

(** ** The program with the two output layouts (second source file) *)

Module NanoporeModsFmt.

Definition n_nucs : Z := 4.

Definition encoding : list Z :=
  [ 4; 4; 4; 4; 4; 4; 4; 4; 4; 4; 4; 4; 4; 4; 4; 4;  (* 16 *)
    4; 4; 4; 4; 4; 4; 4; 4; 4; 4; 4; 4; 4; 4; 4; 4;  (* 32 *)
    4; 4; 4; 4; 4; 4; 4; 4; 4; 4; 4; 4; 4; 4; 4; 4;  (* 48 *)
    4; 4; 4; 4; 4; 4; 4; 4; 4; 4; 4; 4; 4; 4; 4; 4;  (* 64 *)
    4; 0; 4; 1; 4; 4; 4; 2; 4; 4; 4; 4; 4; 4; 4; 4;  (* 80 *)
    4; 4; 4; 4; 3; 4; 4; 4; 4; 4; 4; 4; 4; 4; 4; 4;  (* 96 *)
    4; 4; 4; 4; 4; 4; 4; 4; 4; 4; 4; 4; 4; 4; 4; 4;  (* 112 *)
    4; 4; 4; 4; 4; 4; 4; 4; 4; 4; 4; 4; 4; 4; 4; 4;  (* 128 *)
    4; 4; 4; 4; 4; 4; 4; 4; 4; 4; 4; 4; 4; 4; 4; 4;  (* 144 *)
    4; 4; 4; 4; 4; 4; 4; 4; 4; 4; 4; 4; 4; 4; 4; 4;  (* 160 *)
    4; 4; 4; 4; 4; 4; 4; 4; 4; 4; 4; 4; 4; 4; 4; 4;  (* 176 *)
    4; 4; 4; 4; 4; 4; 4; 4; 4; 4; 4; 4; 4; 4; 4; 4;  (* 192 *)
    4; 4; 4; 4; 4; 4; 4; 4; 4; 4; 4; 4; 4; 4; 4; 4;  (* 208 *)
    4; 4; 4; 4; 4; 4; 4; 4; 4; 4; 4; 4; 4; 4; 4; 4;  (* 224 *)
    4; 4; 4; 4; 4; 4; 4; 4; 4; 4; 4; 4; 4; 4; 4; 4;  (* 240 *)
    4; 4; 4; 4; 4; 4; 4; 4; 4; 4; 4; 4; 4; 4; 4; 4   (* 256 *) ].

Definition dinucs : list string := ["CA"; "CC"; "CG"; "CT"].
Definition dinucs_rev : list string := ["CT"; "CG"; "CC"; "CA"].

(** [encoding[b]].  [None] stands for a read outside the table. *)
Definition encode (b : Z) : option Z :=
  if decide (0 ≤ b) then encoding !! Z.to_nat b else None.

Definition h_idx : Z := 0.
Definition m_idx : Z := 1.

(** The character [other_nuc]: the base before the site on a reverse
    read, the base after it on a forward read, ['\0'] where there is
    none.  [pos + 1] is an [int]: past [int_max] it is undefined. *)
Definition other_nuc (aln : bam1_t) (pos : Z) : option Z :=
  if bam_is_rev aln then
    Some (if decide (pos > 0) then base_at aln (pos - 1) else 0)
  else if decide (pos + 1 ≤ int_max) then
    Some (if decide (pos + 1 < l_qseq aln) then base_at aln (pos + 1) else 0)
  else None.

(** The body of the [while] loop of [operator()], after
    [bam_next_basemod] returned [n] and set [pos].  Both [continue] and
    the end of the body lead to the next call of [bam_next_basemod]. *)
Definition site_body (aln : bam1_t) (n pos : Z) (s : mod_prob_stats)
  : option mod_prob_stats :=
  if decide (n < m_idx) then Some s
  else
    nuc ← other_nuc aln pos;
    other_enc ← encode (to_uint8 nuc);
    if decide (other_enc = n_nucs) then Some s
    else
      h ← mods s !! Z.to_nat h_idx;
      m ← mods s !! Z.to_nat m_idx;
      if bam_is_rev aln then
        hr ← table_incr (hydroxy_rev s) other_enc (qual h);
        mr ← table_incr (methyl_rev s) other_enc (qual m);
        Some {| mods := mods s;
                methyl_fwd := methyl_fwd s; methyl_rev := mr;
                hydroxy_fwd := hydroxy_fwd s; hydroxy_rev := hr |}
      else
        hf ← table_incr (hydroxy_fwd s) other_enc (qual h);
        mf ← table_incr (methyl_fwd s) other_enc (qual m);
        Some {| mods := mods s;
                methyl_fwd := mf; methyl_rev := methyl_rev s;
                hydroxy_fwd := hf; hydroxy_rev := hydroxy_rev s |}.

(** [while ((n = bam_next_basemod(aln, m.get(), d, max_mods, &pos)) > 0)]
    over the sites still to be reported. *)
Fixpoint basemod_loop (aln : bam1_t) (pending : list (Z * list hts_base_mod))
    (s : mod_prob_stats) : option mod_prob_stats :=
  match pending with
  | [] => Some s
  | site :: rest =>
      let '(n, d, pos) := bam_next_basemod site (mods s) in
      if decide (n > 0) then
        s' ← site_body aln n pos (set_mods d s);
        basemod_loop aln rest s'
      else Some (set_mods d s)
  end.

(** [mod_prob_stats::operator()(const bam1_t *aln)]. *)
Definition operator_call (s : mod_prob_stats) (aln : bam1_t) : option mod_prob_stats :=
  basemod_loop aln (basemods aln) s.

(** [while ((read_status = sam_read1(in, hdr.get(), aln.get())) > -1) mps(aln.get());]
    The result is the last [read_status] and the state. *)
Fixpoint read_loop (stream : list (Z * bam1_t)) (mps : mod_prob_stats)
  : option (Z * mod_prob_stats) :=
  match stream with
  | [] => Some (-1, mps)
  | (read_status, aln) :: rest =>
      if decide (read_status > -1) then
        mps' ← operator_call mps aln;
        read_loop rest mps'
      else Some (read_status, mps)
  end.

(** [std::ranges::transform(a, b, std::begin(a), std::plus{})]: the sums
    overwrite the front of [a], as far as the shorter range goes. *)
Definition v_sum (a b : list Z) : list Z :=
  zip_with add64 a b ++ drop (length b) a.

(** [for (auto i = 0u; i < n_nucs; ++i) v_sum(work[i], r[n_nucs - 1 - i]);]
    over the indices [idxs] still to come. *)
Fixpoint sum_rows (idxs : list nat) (work r : list (list Z)) : option (list (list Z)) :=
  match idxs with
  | [] => Some work
  | i :: idxs' =>
      a ← work !! i;
      b ← r !! (Z.to_nat n_nucs - 1 - i)%nat;
      sum_rows idxs' (<[i := v_sum a b]> work) r
  end.

(** [for (const auto &[idx, vals] : std::views::enumerate(x))
       result[y[idx]] = std::vector(std::cbegin(vals), std::cend(vals));]
    from index [idx] on. *)
Fixpoint enumerate_into (idx : nat) (x : list (list Z)) (y : list string)
    (result : gmap string (list Z)) : option (gmap string (list Z)) :=
  match x with
  | [] => Some result
  | vals :: x' =>
      key ← y !! idx;
      enumerate_into (S idx) x' y (<[key := vals]> result)
  end.

(** The lambda [sum_to_map] of [mod_prob_stats_fmt]. *)
Definition sum_to_map (f r : list (list Z)) : option (gmap string (list Z)) :=
  work ← sum_rows (seq 0 (Z.to_nat n_nucs)) f r;
  enumerate_into 0 work dinucs ∅.

(** The lambda [to_map] of [mod_prob_stats_fmt_stranded]. *)
Definition to_map (x : list (list Z)) (y : list string) : option (gmap string (list Z)) :=
  enumerate_into 0 x y ∅.

Module Collapsed.
Record t : Type := {
  methyl : gmap string (list Z);
  hydroxy : gmap string (list Z)
}.
End Collapsed.

Module Stranded.
Record t : Type := {
  methyl_fwd : gmap string (list Z);
  methyl_rev : gmap string (list Z);
  hydroxy_fwd : gmap string (list Z);
  hydroxy_rev : gmap string (list Z)
}.
End Stranded.

(** The constructor [mod_prob_stats_fmt(const mod_prob_stats &mps)]. *)
Definition mod_prob_stats_fmt (mps : mod_prob_stats) : option Collapsed.t :=
  m ← sum_to_map (methyl_fwd mps) (methyl_rev mps);
  h ← sum_to_map (hydroxy_fwd mps) (hydroxy_rev mps);
  Some {| Collapsed.methyl := m; Collapsed.hydroxy := h |}.

(** The constructor [mod_prob_stats_fmt_stranded(const mod_prob_stats &mps)]. *)
Definition mod_prob_stats_fmt_stranded (mps : mod_prob_stats) : option Stranded.t :=
  mf ← to_map (methyl_fwd mps) dinucs;
  mr ← to_map (methyl_rev mps) dinucs_rev;
  hf ← to_map (hydroxy_fwd mps) dinucs;
  hr ← to_map (hydroxy_rev mps) dinucs_rev;
  Some {| Stranded.methyl_fwd := mf; Stranded.methyl_rev := mr;
          Stranded.hydroxy_fwd := hf; Stranded.hydroxy_rev := hr |}.

Inductive report : Type :=
  | ReportCollapsed (r : Collapsed.t)
  | ReportStranded (r : Stranded.t).

(** [main]; [stranded] is the flag [--stranded].  [None] stands for a run
    that meets undefined behaviour. *)
Definition main (stranded : bool) (e : run_env)
  : option (list (event report) * completion) :=
  if decide (argc e < 2) then Some ([PrintHelp], Return EXIT_SUCCESS)
  else match cli11_parse_exit e with
  | Some status => Some ([], Return status)
  | None =>
    if negb (hts_open_ok e) then
      Some ([], Throw ("failed to open file: " +:+ infile e))
    else if negb (sam_hdr_read_ok e) then
      Some ([], Throw ("failed to parse header from file: " +:+ infile e))
    else
      '(read_status, mps) ← read_loop (sam_stream e) mod_prob_stats_init;
      if decide (read_status < -1) then
        Some ([Stderr "failed reading bam record"], Return EXIT_FAILURE)
      else if negb (ofstream_ok e) then
        Some ([OpenOutput (outfile e)],
              Throw ("Error opening output file: " +:+ outfile e))
      else if stranded then
        r ← mod_prob_stats_fmt_stranded mps;
        Some ([OpenOutput (outfile e); WriteReport (ReportStranded r)],
              Return EXIT_SUCCESS)
      else
        r ← mod_prob_stats_fmt mps;
        Some ([OpenOutput (outfile e); WriteReport (ReportCollapsed r)],
              Return EXIT_SUCCESS)
  end.

End NanoporeModsFmt.

(** ** Either program *)

Inductive variant : Type := Raw | Formatted.

Definition encode_of (v : variant) : Z → option Z :=
  match v with
  | Raw => NanoporeMods.encode
  | Formatted => NanoporeModsFmt.encode
  end.

Definition other_nuc_of (v : variant) : bam1_t → Z → option Z :=
  match v with
  | Raw => NanoporeMods.other_nuc
  | Formatted => NanoporeModsFmt.other_nuc
  end.

Definition site_body_of (v : variant)
  : bam1_t → Z → Z → mod_prob_stats → option mod_prob_stats :=
  match v with
  | Raw => NanoporeMods.site_body
  | Formatted => NanoporeModsFmt.site_body
  end.

Definition operator_call_of (v : variant)
  : mod_prob_stats → bam1_t → option mod_prob_stats :=
  match v with
  | Raw => NanoporeMods.operator_call
  | Formatted => NanoporeModsFmt.operator_call
  end.

Definition read_loop_of (v : variant)
  : list (Z * bam1_t) → mod_prob_stats → option (Z * mod_prob_stats) :=
  match v with
  | Raw => NanoporeMods.read_loop
  | Formatted => NanoporeModsFmt.read_loop
  end.

(** ** Well-formed values

    The sizes that the C++ types fix, and the range of a
    [std::uint64_t]. *)

Definition table_shape (t : list (list Z)) : Prop :=
  length t = Z.to_nat 4 ∧ Forall (λ h, length h = Z.to_nat n_values) t.

Definition table_range (t : list (list Z)) : Prop :=
  Forall (Forall (λ x, 0 ≤ x < uint64_modulus)) t.

Definition tables_shape (s : mod_prob_stats) : Prop :=
  Forall table_shape (tables s).

Definition tables_range (s : mod_prob_stats) : Prop :=
  Forall table_range (tables s).

(** Qualities as the reader reports them from the [ML] tag: bytes. *)
Definition quals_ok (d : list hts_base_mod) : Prop :=
  Forall (λ m, 0 ≤ qual m < n_values) d.

Definition stats_ok (s : mod_prob_stats) : Prop :=
  length (mods s) = Z.to_nat max_mods ∧ quals_ok (mods s) ∧ tables_shape s.

(** A record whose sites lie inside the read and carry byte qualities. *)
Definition aln_ok (aln : bam1_t) : Prop :=
  l_qseq aln ≤ int_max ∧
  Forall (λ site, 0 ≤ site.1 < l_qseq aln ∧ quals_ok site.2) (basemods aln).

(** Every counter of [s] can take [k] increments before it wraps. *)
Definition headroom (s : mod_prob_stats) (k : Z) : Prop :=
  Forall (Forall (Forall (λ x, x + k < uint64_modulus))) (tables s).

(** No counter of the forward table [f] and the counter of the reverse
    table [r] at the mirrored row ([i] against [3 - i]) and the same
    column add up to the wrap-around. *)
Definition pairs_fit (f r : list (list Z)) : Prop :=
  Forall2 (Forall2 (λ x y, x + y < uint64_modulus)) f (reverse r).

Definition collapse_fits (s : mod_prob_stats) : Prop :=
  pairs_fit (methyl_fwd s) (methyl_rev s) ∧
  pairs_fit (hydroxy_fwd s) (hydroxy_rev s).

(** The contract of the encoder at one byte, as a boolean, for the
    exhaustive check over the 256 bytes. *)
Definition encode_contract_at (enc : Z → option Z) (b : Z) : bool :=
  match enc b with
  | Some x =>
      if b =? 65 then x =? 0
      else if b =? 67 then x =? 1
      else if b =? 71 then x =? 2
      else if b =? 84 then x =? 3
      else x =? 4
  | None => false
  end.

Definition all_bytes : list Z := Z.of_nat <$> seq 0 256.

(** [grown k t t']: every counter of [t'] is the counter of [t] after at
    most [k] increments of a [std::uint64_t]. *)
Definition grown (k : nat) (t t' : list (list Z)) : Prop :=
  ∀ c q, ∃ j, (j ≤ k)%nat ∧ cell t' c q = Nat.iter j incr64 <$> cell t c q.

(** ** Totals *)

Definition hist_total (h : list Z) : Z := foldr Z.add 0 h.

Definition table_total (t : list (list Z)) : Z := foldr Z.add 0 (hist_total <$> t).

Definition map_total (m : gmap string (list Z)) : Z :=
  map_fold (λ _ h acc, hist_total h + acc) 0 m.

Definition raw_total (s : mod_prob_stats) : Z :=
  table_total (methyl_fwd s) + table_total (methyl_rev s) +
  table_total (hydroxy_fwd s) + table_total (hydroxy_rev s).

Definition collapsed_total (r : NanoporeModsFmt.Collapsed.t) : Z :=
  map_total (NanoporeModsFmt.Collapsed.methyl r) +
  map_total (NanoporeModsFmt.Collapsed.hydroxy r).

(** ** Reading a strand-separated report back *)

(** The histograms of [m] under the keys [y], in the order of [y]. *)
Definition unmap (m : gmap string (list Z)) (y : list string) : option (list (list Z)) :=
  mapM (λ key, m !! key) y.

Definition unseparate (r : NanoporeModsFmt.Stranded.t) : option (list (list (list Z))) :=
  mf ← unmap (NanoporeModsFmt.Stranded.methyl_fwd r) NanoporeModsFmt.dinucs;
  mr ← unmap (NanoporeModsFmt.Stranded.methyl_rev r) NanoporeModsFmt.dinucs_rev;
  hf ← unmap (NanoporeModsFmt.Stranded.hydroxy_fwd r) NanoporeModsFmt.dinucs;
  hr ← unmap (NanoporeModsFmt.Stranded.hydroxy_rev r) NanoporeModsFmt.dinucs_rev;
  Some [mf; mr; hf; hr].

(** ** Sample records and states *)

(** A table that is zero but for the value [x] at row [c], column [q]. *)
Definition table_with (c q : nat) (x : Z) : list (list Z) :=
  <[c := <[q := x]> (replicate (Z.to_nat n_values) 0)]> zero_table.

(** The accessor of a read given by the ASCII codes of its bases. *)
Definition bases_at (bases : list Z) (i : Z) : Z :=
  if decide (0 ≤ i) then default 0 (bases !! Z.to_nat i) else 0.

(** A modification of the given quality. *)
Definition call (q : Z) : hts_base_mod :=
  {| modified_base := 104; canonical_base := 67; strand := 0; qual := q |}.

(** The read [A C G T A]. *)
Definition ACGTA : Z → Z := bases_at [65; 67; 71; 84; 65].

(** Forward, one site at offset 1 with both kinds: qualities 10 and 20. *)
Definition read_fwd_pair : bam1_t :=
  {| l_qseq := 5; bam_is_rev := false; base_at := ACGTA;
     basemods := [(1, [call 10; call 20])] |}.

(** Forward, one site at offset 1 with a single kind of quality 10. *)
Definition read_fwd_single : bam1_t :=
  {| l_qseq := 5; bam_is_rev := false; base_at := ACGTA;
     basemods := [(1, [call 10])] |}.

(** Forward, a site with both kinds at offset 0 (qualities 30 and 200),
    then a site with a single kind at offset 1 (quality 10). *)
Definition read_fwd_pair_then_single : bam1_t :=
  {| l_qseq := 5; bam_is_rev := false; base_at := ACGTA;
     basemods := [(0, [call 30; call 200]); (1, [call 10])] |}.

(** The state after [read_fwd_pair] from the initial state. *)
Definition stats_after_pair : mod_prob_stats :=
  {| mods := [call 10; call 20] ++ replicate 8 hts_base_mod_zero;
     methyl_fwd := table_with 2 20 1;
     methyl_rev := zero_table;
     hydroxy_fwd := table_with 2 10 1;
     hydroxy_rev := zero_table |}.

(** Reverse, one site at offset 3 with both kinds. *)
Definition read_rev_pair : bam1_t :=
  {| l_qseq := 5; bam_is_rev := true; base_at := ACGTA;
     basemods := [(3, [call 10; call 20])] |}.

(** Forward with a site at the last offset, reverse with a site at
    offset 0. *)
Definition read_fwd_last : bam1_t :=
  {| l_qseq := 5; bam_is_rev := false; base_at := ACGTA;
     basemods := [(4, [call 10; call 20])] |}.

Definition read_rev_first : bam1_t :=
  {| l_qseq := 5; bam_is_rev := true; base_at := ACGTA;
     basemods := [(0, [call 10; call 20])] |}.

(** A state whose counter [hydroxy_fwd[2][10]] holds the largest
    [std::uint64_t]. *)
Definition stats_saturated : mod_prob_stats :=
  {| mods := replicate (Z.to_nat max_mods) hts_base_mod_zero;
     methyl_fwd := zero_table;
     methyl_rev := zero_table;
     hydroxy_fwd := table_with 2 10 (uint64_modulus - 1);
     hydroxy_rev := zero_table |}.

(** A state whose counters [methyl_fwd[0][0]] and [methyl_rev[3][0]],
    which the collapsed layout adds, both hold [2^63]. *)
Definition stats_two_halves : mod_prob_stats :=
  {| mods := replicate (Z.to_nat max_mods) hts_base_mod_zero;
     methyl_fwd := table_with 0 0 (2 ^ 63);
     methyl_rev := table_with 3 0 (2 ^ 63);
     hydroxy_fwd := zero_table;
     hydroxy_rev := zero_table |}.

(** A run over one record that ends at the end of the file, and one
    that ends on a read error. *)
Definition env_eof : run_env :=
  {| argc := 5; cli11_parse_exit := None;
     infile := "in.bam"; outfile := "out.json";
     hts_open_ok := true; sam_hdr_read_ok := true;
     sam_stream := [(0, read_fwd_pair); (-1, read_fwd_pair)];
     ofstream_ok := true |}.

Definition env_read_error : run_env :=
  {| argc := 5; cli11_parse_exit := None;
     infile := "in.bam"; outfile := "out.json";
     hts_open_ok := true; sam_hdr_read_ok := true;
     sam_stream := [(0, read_fwd_pair); (-2, read_fwd_pair)];
     ofstream_ok := true |}.

(** Reverse, one site at offset 2 with both kinds: its neighbour is the
    'C' at offset 1, the mirror of the 'G' that [read_fwd_pair] counts
    under. *)
Definition read_rev_mirror : bam1_t :=
  {| l_qseq := 5; bam_is_rev := true; base_at := ACGTA;
     basemods := [(2, [call 10; call 20])] |}.

(** The state after records [read_fwd_pair] and [read_rev_mirror] only:
    [x] in the two forward counters that [read_fwd_pair] increments, [y]
    in the two reverse counters that [read_rev_mirror] increments. *)
Definition stats_counting (x y : Z) : mod_prob_stats :=
  {| mods := [call 10; call 20] ++ replicate 8 hts_base_mod_zero;
     methyl_fwd := table_with 2 20 x;
     methyl_rev := table_with 1 20 y;
     hydroxy_fwd := table_with 2 10 x;
     hydroxy_rev := table_with 1 10 y |}.

(** A stream of [n] records [read_fwd_pair] followed by [m] records
    [read_rev_mirror], each read with status 0, then the end of the
    file. *)
Definition stream_of_pairs (n m : nat) : list (Z * bam1_t) :=
  replicate n (0, read_fwd_pair) ++ replicate m (0, read_rev_mirror).

(** The number of sites of the records that the read loop processes:
    those read before the first status below zero. *)
Fixpoint sites_read (stream : list (Z * bam1_t)) : nat :=
  match stream with
  | [] => 0%nat
  | (read_status, aln) :: rest =>
      if decide (read_status > -1)
      then (length (basemods aln) + sites_read rest)%nat
      else 0%nat
  end.

(** ** What a record counts

    The counters that a site with both kinds increments, read off the
    body of the loop of [operator()]. *)

Definition table_is_rev (id : table_id) : bool :=
  match id with
  | MethylRev | HydroxyRev => true
  | MethylFwd | HydroxyFwd => false
  end.

Definition table_is_methyl (id : table_id) : bool :=
  match id with
  | MethylFwd | MethylRev => true
  | HydroxyFwd | HydroxyRev => false
  end.

(** The context of a site: the code of its neighbour, when there is a
    neighbour and it is one of the four bases. *)
Definition site_context (aln : bam1_t) (pos : Z) : option Z :=
  nuc ← NanoporeModsFmt.other_nuc aln pos;
  enc ← NanoporeModsFmt.encode (to_uint8 nuc);
  if decide (enc = NanoporeModsFmt.n_nucs) then None else Some enc.

(** Whether a site whose scratch entries [mods[0]] and [mods[1]] are [h]
    and [m] is counted at row [c], column [q] of the table [id]. *)
Definition counted_at (id : table_id) (c q : nat) (aln : bam1_t) (pos : Z)
    (h m : hts_base_mod) : bool :=
  bool_decide (table_is_rev id = bam_is_rev aln) &&
  match site_context aln pos with
  | Some enc =>
      bool_decide (enc = Z.of_nat c) &&
      bool_decide (qual (if table_is_methyl id then m else h) = Z.of_nat q)
  | None => false
  end.

(** The same for a site that reports both kinds: the entries are its
    first two modifications. *)
Definition hits (id : table_id) (c q : nat) (aln : bam1_t)
    (site : Z * list hts_base_mod) : bool :=
  match site.2 with
  | h :: m :: _ => counted_at id c q aln site.1 h m
  | _ => false
  end.

(** The number of sites of a record counted at a counter. *)
Definition count_hits (id : table_id) (c q : nat) (aln : bam1_t) : nat :=
  sum_list_with (λ site, Nat.b2n (hits id c q aln site))
                (basemods aln).

(** Every site of the record reports at least two modifications. *)
Definition sites_paired (aln : bam1_t) : Prop :=
  Forall (λ site : Z * list hts_base_mod, (2 ≤ length site.2)%nat) (basemods aln).

(** A stream of records that are all read with status 0. *)
Definition stream_of (records : list bam1_t) : list (Z * bam1_t) :=
  (λ aln, (0, aln)) <$> records.

(** The number of sites of a list of records counted at a counter. *)
Definition count_hits_all (id : table_id) (c q : nat) (records : list bam1_t) : nat :=
  sum_list_with (count_hits id c q) records.

(** ** The balance of the two kinds *)

(** The totals of the rows of a table, modulo [2^64]. *)
Definition row_totals (t : list (list Z)) : list Z :=
  (λ h, hist_total h mod uint64_modulus) <$> t.

(** On each strand the hydroxy table and the methyl table have the same
    row totals, modulo [2^64]. *)
Definition kinds_balanced (s : mod_prob_stats) : Prop :=
  row_totals (hydroxy_fwd s) = row_totals (methyl_fwd s) ∧
  row_totals (hydroxy_rev s) = row_totals (methyl_rev s).

(** ** More of either program, and of the runs *)

(** The loop over the sites of a record, in either program. *)
Definition basemod_loop_of (v : variant)
  : bam1_t → list (Z * list hts_base_mod) → mod_prob_stats → option mod_prob_stats :=
  match v with
  | Raw => NanoporeMods.basemod_loop
  | Formatted => NanoporeModsFmt.basemod_loop
  end.

(** The state after [read_fwd_single] from the initial state. *)
Definition stats_after_single : mod_prob_stats :=
  {| mods := [call 10] ++ replicate 9 hts_base_mod_zero;
     methyl_fwd := table_with 2 0 1;
     methyl_rev := zero_table;
     hydroxy_fwd := table_with 2 10 1;
     hydroxy_rev := zero_table |}.

(** The status on which the read loop ends: the first one that is not
    above [-1], or [-1] past the end of the stream. *)
Fixpoint last_status (stream : list (Z * bam1_t)) : Z :=
  match stream with
  | [] => -1
  | (read_status, _) :: rest =>
      if decide (read_status > -1) then last_status rest else read_status
  end.

(** The sum of all counters of a strand-separated report. *)
Definition stranded_total (r : NanoporeModsFmt.Stranded.t) : Z :=
  map_total (NanoporeModsFmt.Stranded.methyl_fwd r) +
  map_total (NanoporeModsFmt.Stranded.methyl_rev r) +
  map_total (NanoporeModsFmt.Stranded.hydroxy_fwd r) +
  map_total (NanoporeModsFmt.Stranded.hydroxy_rev r).

(** A histogram of the declared size whose counters are [std::uint64_t]. *)
Definition histogram_ok (h : list Z) : Prop :=
  length h = Z.to_nat n_values ∧ Forall (λ x, 0 ≤ x < uint64_modulus) h.

(** ** The reports that [main] writes *)

(** The maps of a report of the second program, in the order of the
    members that [NLOHMANN_DEFINE_TYPE_INTRUSIVE] lists. *)
Definition report_maps (r : NanoporeModsFmt.report) : list (gmap string (list Z)) :=
  match r with
  | NanoporeModsFmt.ReportCollapsed rc =>
      [NanoporeModsFmt.Collapsed.methyl rc; NanoporeModsFmt.Collapsed.hydroxy rc]
  | NanoporeModsFmt.ReportStranded rs =>
      [NanoporeModsFmt.Stranded.methyl_fwd rs; NanoporeModsFmt.Stranded.methyl_rev rs;
       NanoporeModsFmt.Stranded.hydroxy_fwd rs; NanoporeModsFmt.Stranded.hydroxy_rev rs]
  end.

(** An event without the report it carries. *)
Definition outline {R : Type} (ev : event R) : event unit :=
  match ev with
  | PrintHelp => PrintHelp
  | Stderr msg => Stderr msg
  | OpenOutput path => OpenOutput path
  | WriteReport _ => WriteReport tt
  end.

(** What [main] must meet to get as far as the report: arguments that
    are given and parsed, an input and a header that are read, a reader
    that ends with [-1], and an output file that opens. *)
Definition run_completes (e : run_env) : Prop :=
  2 ≤ argc e ∧ cli11_parse_exit e = None ∧
  hts_open_ok e = true ∧ sam_hdr_read_ok e = true ∧
  last_status (sam_stream e) = -1 ∧ ofstream_ok e = true.

(** A map of a report as the reader of the output expects it: the four
    keys, and under each a histogram of the declared size. *)
Definition map_ok (m : gmap string (list Z)) : Prop :=
  dom m =@{gset string} {["CA"; "CC"; "CG"; "CT"]} ∧
  map_Forall (λ _ h, histogram_ok h) m.

(** A table of the report of the first program: four histograms of the
    declared size. *)
Definition table_ok (t : list (list Z)) : Prop :=
  length t = 4%nat ∧ Forall histogram_ok t.

(** ** Records that differ in what the accumulator does not read *)

(** Two records with the same length, strand and bases whose sites have
    the same positions and, entry by entry, the same qualities; the codes
    of the modifications ([modified_base], [canonical_base], [strand])
    are free. *)
Definition same_calls (aln aln' : bam1_t) : Prop :=
  l_qseq aln = l_qseq aln' ∧ bam_is_rev aln = bam_is_rev aln' ∧
  (∀ i, base_at aln i = base_at aln' i) ∧
  Forall2 (λ site site' : Z * list hts_base_mod,
             site.1 = site'.1 ∧ qual <$> site.2 = qual <$> site'.2)
          (basemods aln) (basemods aln').

(** Two states with the same tables whose scratch entries have the same
    qualities. *)
Definition same_counts (s s' : mod_prob_stats) : Prop :=
  tables s = tables s' ∧ qual <$> mods s = qual <$> mods s'.

(** [read_fwd_pair] with the two kinds listed the other way round:
    methylation (code ['m'], quality 10) first, then hydroxymethylation
    (code ['h'], quality 20). *)
Definition read_fwd_pair_swapped : bam1_t :=
  {| l_qseq := 5; bam_is_rev := false; base_at := ACGTA;
     basemods :=
       [(1, [ {| modified_base := 109; canonical_base := 67; strand := 0; qual := 10 |};
              {| modified_base := 104; canonical_base := 67; strand := 0; qual := 20 |} ])] |}.

(** ** The names of the contexts *)

(** The Watson-Crick complement of a base letter. *)
Definition complement (b : Z) : Z :=
  if b =? 65 then 84
  else if b =? 67 then 71
  else if b =? 71 then 67
  else if b =? 84 then 65
  else b.

(** The dinucleotide ['C'] followed by the letter [b]. *)
Definition dinuc_of (b : Z) : string :=
  "C" +:+ String (Ascii.ascii_of_nat (Z.to_nat b)) EmptyString.

(** * Properties *)

(** Closed bounds such as [0 < 2 ^ 63 < uint64_modulus], by evaluation. *)
Ltac closed_range :=
  vm_compute; split; first [reflexivity | discriminate].

(** ** The nucleotide encoder *)

Lemma all_bytes_complete (b : Z) : 0 ≤ b < 256 → b ∈ all_bytes.
Proof.
  intros Hb. apply list_elem_of_fmap.
  exists (Z.to_nat b). split; [lia|].
  apply elem_of_seq. lia.
Qed.

Lemma contract_all_bytes (v : variant) :
  forallb (encode_contract_at (encode_of v)) all_bytes = true.
Proof. destruct v; vm_compute; reflexivity. Qed.

(** The encoder of either program, case by case. *)
Lemma encode_cases (v : variant) (b : Z) :
  0 ≤ b < 256 →
  ∃ x, encode_of v b = Some x ∧
       (b = 65 → x = 0) ∧ (b = 67 → x = 1) ∧
       (b = 71 → x = 2) ∧ (b = 84 → x = 3) ∧
       (b ≠ 65 → b ≠ 67 → b ≠ 71 → b ≠ 84 → x = 4).
Proof.
  intros Hb.
  pose proof (contract_all_bytes v) as Hall.
  rewrite forallb_forall in Hall.
  specialize (Hall b). rewrite <- list_elem_of_In in Hall.
  specialize (Hall (all_bytes_complete b Hb)).
  unfold encode_contract_at in Hall.
  destruct (encode_of v b) as [x|]; [|discriminate].
  exists x. split; [reflexivity|].
  repeat match type of Hall with
         | context [?a =? ?c] => destruct (Z.eqb_spec a c)
         end; try discriminate; repeat split; intros; lia.
Qed.

(** The value of the encoder is at most 4, and it is 4 exactly off the
    four bases. *)
Lemma encode_invalid_iff (v : variant) (b : Z) :
  0 ≤ b < 256 →
  ∃ x, encode_of v b = Some x ∧ 0 ≤ x ≤ 4 ∧ (b ∉ [65; 67; 71; 84] ↔ x = 4).
Proof.
  intros Hb.
  destruct (encode_cases v b Hb) as (x & Hx & HA & HC & HG & HT & Hother).
  exists x. split; [exact Hx|].
  rewrite !not_elem_of_cons.
  destruct (decide (b = 65)) as [->|?]; [specialize (HA eq_refl); lia|].
  destruct (decide (b = 67)) as [->|?]; [specialize (HC eq_refl); lia|].
  destruct (decide (b = 71)) as [->|?]; [specialize (HG eq_refl); lia|].
  destruct (decide (b = 84)) as [->|?]; [specialize (HT eq_refl); lia|].
  rewrite (Hother ltac:(assumption) ltac:(assumption) ltac:(assumption) ltac:(assumption)).
  split; [lia|]. split; [done|]. intros _.
  repeat split; try done. apply not_elem_of_nil.
Qed.

(** C2.  In either program the encoder is defined at each of the 256
    bytes and its value is one of 0, 1, 2, 3, 4; 'A', 'C', 'G', 'T'
    (65, 67, 71, 84) go to 0, 1, 2, 3 in this order and every other byte,
    the lowercase letters among them, goes to 4. *)
Theorem encode_total_and_exact (v : variant) (b : Z) :
  0 ≤ b < 256 →
  ∃ x, encode_of v b = Some x ∧
       0 ≤ x ≤ 4 ∧
       (b = 65 ↔ x = 0) ∧ (b = 67 ↔ x = 1) ∧
       (b = 71 ↔ x = 2) ∧ (b = 84 ↔ x = 3) ∧
       (b ∉ [65; 67; 71; 84] ↔ x = 4).
Proof.
  intros Hb.
  destruct (encode_cases v b Hb) as (x & Hx & HA & HC & HG & HT & Hother).
  exists x. split; [exact Hx|].
  rewrite !not_elem_of_cons.
  destruct (decide (b = 65)) as [->|?]; [specialize (HA eq_refl); lia|].
  destruct (decide (b = 67)) as [->|?]; [specialize (HC eq_refl); lia|].
  destruct (decide (b = 71)) as [->|?]; [specialize (HG eq_refl); lia|].
  destruct (decide (b = 84)) as [->|?]; [specialize (HT eq_refl); lia|].
  rewrite (Hother ltac:(assumption) ltac:(assumption) ltac:(assumption) ltac:(assumption)).
  repeat split; try lia; intros; try lia.
  apply not_elem_of_nil.
Qed.

Lemma encode_total_and_exact_witness :
  0 ≤ 97 < 256 ∧
  ∃ x, encode_of Formatted 97 = Some x ∧
       0 ≤ x ≤ 4 ∧
       (97 = 65 ↔ x = 0) ∧ (97 = 67 ↔ x = 1) ∧
       (97 = 71 ↔ x = 2) ∧ (97 = 84 ↔ x = 3) ∧
       (97 ∉ [65; 67; 71; 84] ↔ x = 4).
Proof.
  assert (0 ≤ 97 < 256) as Hb by lia.
  split; [exact Hb|]. exact (encode_total_and_exact Formatted 97 Hb).
Defined.

(** The encoder applied to its own result. *)
Lemma encode_twice (v : variant) (b : Z) :
  0 ≤ b < 256 → encode_of v b ≫= encode_of v = Some 4.
Proof.
  intros Hb.
  destruct (encode_invalid_iff v b Hb) as (x & Hx & Hr & _).
  rewrite Hx. simpl.
  assert (x = 0 ∨ x = 1 ∨ x = 2 ∨ x = 3 ∨ x = 4) as Hc by lia.
  destruct v; destruct Hc as [->|[->|[->|[->| ->]]]]; reflexivity.
Qed.

(** C8, as the code has it.  Encoding twice gives 4 whatever the byte,
    so [encode (encode b) = encode b] exactly at the bytes other than
    'A', 'C', 'G', 'T'. *)
Theorem encode_idempotent_off_bases (v : variant) (b : Z) :
  0 ≤ b < 256 →
  encode_of v b ≫= encode_of v = Some 4 ∧
  (encode_of v b ≫= encode_of v = encode_of v b ↔ b ∉ [65; 67; 71; 84]).
Proof.
  intros Hb. split; [exact (encode_twice v b Hb)|].
  rewrite (encode_twice v b Hb).
  destruct (encode_invalid_iff v b Hb) as (x & Hx & _ & H4).
  rewrite Hx, H4. split; [intros [= <-]; reflexivity | intros ->; reflexivity].
Qed.

Lemma encode_idempotent_off_bases_witness :
  0 ≤ 110 < 256 ∧
  encode_of Raw 110 ≫= encode_of Raw = Some 4 ∧
  (encode_of Raw 110 ≫= encode_of Raw = encode_of Raw 110 ↔ 110 ∉ [65; 67; 71; 84]).
Proof.
  assert (0 ≤ 110 < 256) as Hb by lia.
  split; [exact Hb|]. exact (encode_idempotent_off_bases Raw 110 Hb).
Defined.

(** C8 as stated fails at 'A': it encodes to 0, and 0 encodes to 4. *)
Lemma encode_not_idempotent_at_A :
  encode_of Formatted 65 = Some 0 ∧ encode_of Formatted 0 = Some 4 ∧
  encode_of Formatted 65 ≫= encode_of Formatted ≠ encode_of Formatted 65.
Proof. repeat split; vm_compute; discriminate. Qed.

(** ** Counters and their increments *)

Lemma incr64_no_wrap (x : Z) :
  0 ≤ x → x + 1 < uint64_modulus → incr64 x = x + 1.
Proof. intros ??. unfold incr64. apply Z.mod_small. lia. Qed.

Lemma incr64_range (x : Z) : 0 ≤ incr64 x < uint64_modulus.
Proof. unfold incr64. apply Z.mod_pos_bound. reflexivity. Qed.

Lemma add64_no_wrap (x y : Z) :
  0 ≤ x → 0 ≤ y → x + y < uint64_modulus → add64 x y = x + y.
Proof. intros ???. unfold add64. apply Z.mod_small. lia. Qed.

Lemma hist_incr_Some (h h' : list Z) (q : Z) :
  hist_incr h q = Some h' →
  0 ≤ q < Z.of_nat (length h) ∧ h' = alter incr64 (Z.to_nat q) h.
Proof. unfold hist_incr. case_decide; [|discriminate]. intros [= <-]. done. Qed.

Lemma hist_incr_defined (h : list Z) (q : Z) :
  0 ≤ q < Z.of_nat (length h) → is_Some (hist_incr h q).
Proof. intros Hq. unfold hist_incr. rewrite decide_True by done. eauto. Qed.

Lemma table_incr_Some (t t' : list (list Z)) (c q : Z) :
  table_incr t c q = Some t' →
  ∃ h, 0 ≤ c ∧ t !! Z.to_nat c = Some h ∧ 0 ≤ q < Z.of_nat (length h) ∧
       t' = <[Z.to_nat c := alter incr64 (Z.to_nat q) h]> t.
Proof.
  unfold table_incr. case_decide; [|discriminate].
  destruct (t !! Z.to_nat c) as [h|] eqn:Hh; [|discriminate]. simpl.
  destruct (hist_incr h q) as [h'|] eqn:Hq; [|discriminate]. simpl.
  intros [= <-]. apply hist_incr_Some in Hq as [? ->]. eauto.
Qed.

Lemma table_incr_defined (t : list (list Z)) (c q : Z) :
  table_shape t → 0 ≤ c < 4 → 0 ≤ q < n_values → is_Some (table_incr t c q).
Proof.
  intros [Hlen Hrows] Hc Hq. unfold table_incr.
  rewrite decide_True by lia.
  destruct (lookup_lt_is_Some_2 t (Z.to_nat c)) as [h Hh]; [lia|].
  rewrite Hh. simpl.
  rewrite Forall_lookup in Hrows. specialize (Hrows _ _ Hh). simpl in Hrows.
  destruct (hist_incr_defined h q) as [h' Hh']; [lia|].
  rewrite Hh'. simpl. eauto.
Qed.

(** The counters of a table after [t[c][q]++]: the one at [c], [q] is
    incremented, the others are kept. *)
Lemma cell_table_incr (t t' : list (list Z)) (c q : Z) (c' q' : nat) :
  table_incr t c q = Some t' →
  cell t' c' q' =
    if decide (c' = Z.to_nat c ∧ q' = Z.to_nat q)
    then incr64 <$> cell t c' q' else cell t c' q'.
Proof.
  intros (h & Hc & Hh & Hq & ->)%table_incr_Some. unfold cell.
  destruct (decide (c' = Z.to_nat c)) as [->|Hne].
  - rewrite list_lookup_insert_eq by (by eapply lookup_lt_Some).
    rewrite Hh. simpl.
    destruct (decide (q' = Z.to_nat q)) as [->|Hne'].
    + destruct (decide _) as [_|[]]; [|done]. by rewrite list_lookup_alter_eq.
    + destruct (decide _) as [[_ ?]|_]; [done|]. by rewrite list_lookup_alter_ne.
  - destruct (decide _) as [[? _]|_]; [done|].
    by rewrite list_lookup_insert_ne.
Qed.

Lemma table_incr_shape (t t' : list (list Z)) (c q : Z) :
  table_incr t c q = Some t' → table_shape t → table_shape t'.
Proof.
  intros (h & Hc & Hh & Hq & ->)%table_incr_Some [Hlen Hrows].
  split; [by rewrite length_insert|].
  apply Forall_insert; [done|]. simpl. rewrite length_alter.
  rewrite Forall_lookup in Hrows. exact (Hrows _ _ Hh).
Qed.

(** ** The two accumulators are the same function *)

Lemma encode_agree : NanoporeMods.encode = NanoporeModsFmt.encode.
Proof. reflexivity. Qed.

Lemma other_nuc_agree : NanoporeMods.other_nuc = NanoporeModsFmt.other_nuc.
Proof. reflexivity. Qed.

Lemma site_body_agree : NanoporeMods.site_body = NanoporeModsFmt.site_body.
Proof. reflexivity. Qed.

Lemma basemod_loop_agree (aln : bam1_t) (pending : list (Z * list hts_base_mod))
    (s : mod_prob_stats) :
  NanoporeMods.basemod_loop aln pending s = NanoporeModsFmt.basemod_loop aln pending s.
Proof.
  revert s. induction pending as [|site rest IH]; intros s; [reflexivity|].
  cbn [NanoporeMods.basemod_loop NanoporeModsFmt.basemod_loop].
  destruct (bam_next_basemod site (mods s)) as [[n d] pos].
  case_decide; [|reflexivity].
  rewrite site_body_agree.
  destruct (NanoporeModsFmt.site_body aln n pos (set_mods d s)) as [s'|];
    simpl; [apply IH | reflexivity].
Qed.

Lemma operator_call_agree (s : mod_prob_stats) (aln : bam1_t) :
  NanoporeMods.operator_call s aln = NanoporeModsFmt.operator_call s aln.
Proof. apply basemod_loop_agree. Qed.

Lemma read_loop_agree (stream : list (Z * bam1_t)) (s : mod_prob_stats) :
  NanoporeMods.read_loop stream s = NanoporeModsFmt.read_loop stream s.
Proof.
  revert s. induction stream as [|[st aln] rest IH]; intros s; [reflexivity|].
  cbn [NanoporeMods.read_loop NanoporeModsFmt.read_loop].
  case_decide; [|reflexivity].
  rewrite operator_call_agree.
  destruct (NanoporeModsFmt.operator_call s aln) as [s'|];
    simpl; [apply IH | reflexivity].
Qed.

Lemma site_body_of_eq (v : variant) : site_body_of v = NanoporeModsFmt.site_body.
Proof. destruct v; reflexivity. Qed.

Lemma other_nuc_of_eq (v : variant) : other_nuc_of v = NanoporeModsFmt.other_nuc.
Proof. destruct v; reflexivity. Qed.

Lemma encode_of_eq (v : variant) : encode_of v = NanoporeModsFmt.encode.
Proof. destruct v; reflexivity. Qed.

Lemma operator_call_of_eq (v : variant) (s : mod_prob_stats) (aln : bam1_t) :
  operator_call_of v s aln = NanoporeModsFmt.operator_call s aln.
Proof. destruct v; [apply operator_call_agree | reflexivity]. Qed.

Lemma read_loop_of_eq (v : variant) (stream : list (Z * bam1_t)) (s : mod_prob_stats) :
  read_loop_of v stream s = NanoporeModsFmt.read_loop stream s.
Proof. destruct v; [apply read_loop_agree | reflexivity]. Qed.

(** C10.  From any state and over any stream of records, the read loops
    of the two programs end with the same read status and the same state,
    so with the same four tables, and they are undefined on the same
    streams; so are the two [operator()] on any record. *)
Theorem accumulators_agree (s : mod_prob_stats) :
  (∀ aln, NanoporeMods.operator_call s aln = NanoporeModsFmt.operator_call s aln) ∧
  (∀ stream, NanoporeMods.read_loop stream s = NanoporeModsFmt.read_loop stream s) ∧
  ∀ stream st1 s1 st2 s2,
    NanoporeMods.read_loop stream s = Some (st1, s1) →
    NanoporeModsFmt.read_loop stream s = Some (st2, s2) →
    st1 = st2 ∧
    methyl_fwd s1 = methyl_fwd s2 ∧ methyl_rev s1 = methyl_rev s2 ∧
    hydroxy_fwd s1 = hydroxy_fwd s2 ∧ hydroxy_rev s1 = hydroxy_rev s2.
Proof.
  split; [intros aln; apply operator_call_agree|].
  split; [intros stream; apply read_loop_agree|].
  intros stream st1 s1 st2 s2 H1 H2.
  rewrite read_loop_agree, H2 in H1. by injection H1 as -> ->.
Qed.

(** ** One site *)

Lemma grown_refl (k : nat) (t : list (list Z)) : grown k t t.
Proof.
  intros c q. exists 0%nat. split; [lia|].
  simpl. by destruct (cell t c q).
Qed.

Lemma grown_trans (k1 k2 : nat) (t1 t2 t3 : list (list Z)) :
  grown k1 t1 t2 → grown k2 t2 t3 → grown (k1 + k2) t1 t3.
Proof.
  intros H12 H23 c q.
  destruct (H12 c q) as (j1 & Hj1 & E1), (H23 c q) as (j2 & Hj2 & E2).
  exists (j2 + j1)%nat. split; [lia|].
  rewrite E2, E1. destruct (cell t1 c q) as [x|]; [|done].
  simpl. by rewrite Nat.iter_add.
Qed.

Lemma grown_table_incr (t t' : list (list Z)) (c q : Z) :
  table_incr t c q = Some t' → grown 1 t t'.
Proof.
  intros H c' q'. rewrite (cell_table_incr _ _ _ _ c' q' H).
  case_decide.
  - exists 1%nat. split; [lia|]. done.
  - exists 0%nat. split; [lia|]. by destruct (cell t c' q').
Qed.

(** What the body of the loop does when it is defined: the scratch array
    is kept and each table grows by one increment at most. *)
Lemma site_body_grown (aln : bam1_t) (n pos : Z) (s s' : mod_prob_stats) :
  NanoporeModsFmt.site_body aln n pos s = Some s' →
  mods s' = mods s ∧ ∀ id, grown 1 (table_of id s) (table_of id s').
Proof.
  unfold NanoporeModsFmt.site_body. intros H.
  case_decide; [injection H as <-; split; [done|intros; apply grown_refl]|].
  destruct (NanoporeModsFmt.other_nuc aln pos) as [nuc|]; [|discriminate].
  simpl in H.
  destruct (NanoporeModsFmt.encode (to_uint8 nuc)) as [enc|]; [|discriminate].
  simpl in H.
  case_decide; [injection H as <-; split; [done|intros; apply grown_refl]|].
  destruct (mods s !! Z.to_nat NanoporeModsFmt.h_idx) as [h|]; [|discriminate].
  simpl in H.
  destruct (mods s !! Z.to_nat NanoporeModsFmt.m_idx) as [m|]; [|discriminate].
  simpl in H.
  destruct (bam_is_rev aln).
  - destruct (table_incr (hydroxy_rev s) enc (qual h)) as [hr|] eqn:Hh;
      [|discriminate]. simpl in H.
    destruct (table_incr (methyl_rev s) enc (qual m)) as [mr|] eqn:Hm;
      [|discriminate]. simpl in H.
    injection H as <-. split; [done|].
    intros []; simpl; eauto using grown_refl, grown_table_incr.
  - destruct (table_incr (hydroxy_fwd s) enc (qual h)) as [hf|] eqn:Hh;
      [|discriminate]. simpl in H.
    destruct (table_incr (methyl_fwd s) enc (qual m)) as [mf|] eqn:Hm;
      [|discriminate]. simpl in H.
    injection H as <-. split; [done|].
    intros []; simpl; eauto using grown_refl, grown_table_incr.
Qed.

Lemma basemod_loop_grown (aln : bam1_t) (pending : list (Z * list hts_base_mod))
    (s s' : mod_prob_stats) :
  NanoporeModsFmt.basemod_loop aln pending s = Some s' →
  ∀ id, grown (length pending) (table_of id s) (table_of id s').
Proof.
  revert s. induction pending as [|site rest IH]; intros s H id.
  - injection H as <-. apply grown_refl.
  - cbn [NanoporeModsFmt.basemod_loop] in H.
    destruct (bam_next_basemod site (mods s)) as [[n d] pos].
    case_decide.
    + destruct (NanoporeModsFmt.site_body aln n pos (set_mods d s)) as [s1|] eqn:Hb;
        [|discriminate]. simpl in H.
      apply site_body_grown in Hb as [_ Hb].
      change (length (site :: rest)) with (1 + length rest)%nat.
      eapply grown_trans; [|by apply IH].
      specialize (Hb id). by destruct id.
    + injection H as <-. destruct id; apply grown_refl.
Qed.

(** ** The accumulator is defined on well-formed records *)

Lemma bam_next_basemod_spec (site : Z * list hts_base_mod) (d : list hts_base_mod) :
  bam_next_basemod site d =
    (Z.of_nat (length site.2),
     take (Z.to_nat max_mods) site.2 ++
       drop (length (take (Z.to_nat max_mods) site.2)) d,
     site.1).
Proof. reflexivity. Qed.

Lemma bam_next_basemod_scratch (site : Z * list hts_base_mod) (d : list hts_base_mod) :
  length d = Z.to_nat max_mods → quals_ok d → quals_ok site.2 →
  length (bam_next_basemod site d).1.2 = Z.to_nat max_mods ∧
  quals_ok (bam_next_basemod site d).1.2.
Proof.
  intros Hlen Hd Hsite. rewrite bam_next_basemod_spec. simpl. split.
  - rewrite length_app, length_drop, length_take. lia.
  - apply Forall_app. split; [by apply Forall_take | by apply Forall_drop].
Qed.

Lemma tables_shape_iff (s : mod_prob_stats) :
  tables_shape s ↔
  table_shape (methyl_fwd s) ∧ table_shape (methyl_rev s) ∧
  table_shape (hydroxy_fwd s) ∧ table_shape (hydroxy_rev s).
Proof.
  unfold tables_shape, tables. rewrite !Forall_cons, Forall_nil. tauto.
Qed.

Lemma set_mods_ok (d : list hts_base_mod) (s : mod_prob_stats) :
  length d = Z.to_nat max_mods → quals_ok d → stats_ok s → stats_ok (set_mods d s).
Proof. intros ?? (_ & _ & ?). by repeat split. Qed.

Lemma encode_byte_range (c : Z) :
  ∃ x, NanoporeModsFmt.encode (to_uint8 c) = Some x ∧ 0 ≤ x ≤ 4.
Proof.
  assert (0 ≤ to_uint8 c < 256) as Hb by (apply Z.mod_pos_bound; lia).
  destruct (encode_invalid_iff Formatted _ Hb) as (x & Hx & Hr & _).
  eauto.
Qed.

Lemma site_body_defined (aln : bam1_t) (n pos : Z) (s : mod_prob_stats) :
  stats_ok s →
  (bam_is_rev aln = false → pos + 1 ≤ int_max) →
  ∃ s', NanoporeModsFmt.site_body aln n pos s = Some s' ∧ stats_ok s'.
Proof.
  intros Hs Hpos. pose proof Hs as (Hlen & Hq & Hsh).
  unfold NanoporeModsFmt.site_body.
  case_decide; [eauto|].
  assert (∃ nuc, NanoporeModsFmt.other_nuc aln pos = Some nuc) as [nuc ->].
  { unfold NanoporeModsFmt.other_nuc. destruct (bam_is_rev aln); [eauto|].
    rewrite decide_True by auto. eauto. }
  simpl. destruct (encode_byte_range nuc) as (enc & -> & Henc). simpl.
  case_decide as Hne; [eauto|]. unfold NanoporeModsFmt.n_nucs in Hne.
  destruct (lookup_lt_is_Some_2 (mods s) (Z.to_nat NanoporeModsFmt.h_idx))
    as [h Hh]; [rewrite Hlen; vm_compute; lia|].
  destruct (lookup_lt_is_Some_2 (mods s) (Z.to_nat NanoporeModsFmt.m_idx))
    as [m Hm]; [rewrite Hlen; vm_compute; lia|].
  rewrite Hh, Hm. simpl.
  pose proof Hq as Hq'. unfold quals_ok in Hq'. rewrite Forall_lookup in Hq'.
  pose proof (Hq' _ _ Hh) as Hqh. pose proof (Hq' _ _ Hm) as Hqm.
  simpl in Hqh, Hqm.
  apply tables_shape_iff in Hsh as (Hmf & Hmr & Hhf & Hhr).
  destruct (bam_is_rev aln).
  - destruct (table_incr_defined (hydroxy_rev s) enc (qual h)) as [hr Ehr];
      [done|lia|done|].
    destruct (table_incr_defined (methyl_rev s) enc (qual m)) as [mr Emr];
      [done|lia|done|].
    rewrite Ehr, Emr. simpl. eexists. split; [reflexivity|].
    split; [done|]. split; [done|].
    apply tables_shape_iff. simpl. eauto 6 using table_incr_shape.
  - destruct (table_incr_defined (hydroxy_fwd s) enc (qual h)) as [hf Ehf];
      [done|lia|done|].
    destruct (table_incr_defined (methyl_fwd s) enc (qual m)) as [mf Emf];
      [done|lia|done|].
    rewrite Ehf, Emf. simpl. eexists. split; [reflexivity|].
    split; [done|]. split; [done|].
    apply tables_shape_iff. simpl. eauto 6 using table_incr_shape.
Qed.

Lemma basemod_loop_defined (aln : bam1_t) (pending : list (Z * list hts_base_mod))
    (s : mod_prob_stats) :
  stats_ok s →
  Forall (λ site, site.1 + 1 ≤ int_max ∧ quals_ok site.2) pending →
  ∃ s', NanoporeModsFmt.basemod_loop aln pending s = Some s' ∧ stats_ok s'.
Proof.
  revert s. induction pending as [|site rest IH]; intros s Hs Hp; [by eexists|].
  apply Forall_cons in Hp as [[Hpos Hq] Hrest].
  cbn [NanoporeModsFmt.basemod_loop].
  pose proof Hs as (Hlen & Hqs & _).
  destruct (bam_next_basemod_scratch site (mods s) Hlen Hqs Hq) as [Hl' Hq'].
  rewrite bam_next_basemod_spec in *. simpl in Hl', Hq'. cbv zeta.
  set (d := take _ _ ++ drop _ _) in *.
  pose proof (set_mods_ok d s Hl' Hq' Hs) as Hs1.
  case_decide; [|eauto].
  destruct (site_body_defined aln (Z.of_nat (length site.2)) site.1 _ Hs1)
    as (s2 & -> & Hs2); [done|].
  simpl. by apply IH.
Qed.

(** On a well-formed state and a well-formed record, [operator()] of
    either program returns, and the state it leaves is well formed. *)
Lemma operator_call_defined (v : variant) (s : mod_prob_stats) (aln : bam1_t) :
  stats_ok s → aln_ok aln →
  ∃ s', operator_call_of v s aln = Some s' ∧ stats_ok s'.
Proof.
  intros Hs [Hlen Hsites]. rewrite operator_call_of_eq.
  apply basemod_loop_defined; [done|].
  eapply Forall_impl; [exact Hsites|]. simpl. intros site [? ?]. split; [lia|done].
Qed.

Lemma zero_table_shape : table_shape zero_table.
Proof.
  split; [reflexivity|]. unfold zero_table.
  apply Forall_replicate. by rewrite length_replicate.
Qed.

Lemma mod_prob_stats_init_ok : stats_ok mod_prob_stats_init.
Proof.
  split; [reflexivity|]. split.
  - apply Forall_replicate. simpl. unfold n_values. lia.
  - apply tables_shape_iff. simpl. auto using zero_table_shape.
Qed.

(** The read loop of either program is defined when every record it
    processes is well formed; it ends on a status below zero and leaves a
    well-formed state. *)
Lemma read_loop_defined (v : variant) (stream : list (Z * bam1_t)) (s : mod_prob_stats) :
  stats_ok s → Forall (λ r, aln_ok r.2) stream →
  ∃ st s', read_loop_of v stream s = Some (st, s') ∧ st ≤ -1 ∧ stats_ok s'.
Proof.
  rewrite read_loop_of_eq.
  revert s. induction stream as [|[st aln] rest IH]; intros s Hs Hok.
  - exists (-1), s. done.
  - apply Forall_cons in Hok as [Haln Hrest]. simpl in Haln.
    cbn [NanoporeModsFmt.read_loop]. case_decide.
    + destruct (operator_call_defined Formatted s aln Hs Haln) as (s1 & E & Hs1).
      simpl in E. rewrite E. simpl. by apply IH.
    + exists st, s. split; [done|]. split; [lia|done].
Qed.

(** ** The pairing guard *)

(** Inside the loop [n > 0], so the guard [n < m_idx] never fires. *)
Lemma pairing_guard_is_dead (n : Z) : n > 0 → ¬ n < NanoporeModsFmt.m_idx.
Proof. unfold NanoporeModsFmt.m_idx. lia. Qed.

(** C1, what the code does at a site with a single kind.  In either
    program the forward read [A C G T A] with one site at offset 1 that
    reports a single modification of quality 10 increments
    [hydroxy_fwd[2][10]] and, from the zeroed scratch entry [mods[1]],
    [methyl_fwd[2][0]]: two increments where the pairing rule allows none.
    After a site with both kinds (qualities 30 and 200) the single-kind
    site counts its methylation at the stale quality 200. *)
Theorem single_kind_site_is_counted (v : variant) :
  (∃ s, operator_call_of v mod_prob_stats_init read_fwd_single = Some s ∧
        cell (hydroxy_fwd s) 2 10 = Some 1 ∧
        cell (methyl_fwd s) 2 0 = Some 1 ∧
        raw_total s = 2) ∧
  (∃ s, operator_call_of v mod_prob_stats_init read_fwd_pair_then_single = Some s ∧
        cell (hydroxy_fwd s) 1 30 = Some 1 ∧
        cell (methyl_fwd s) 1 200 = Some 1 ∧
        cell (hydroxy_fwd s) 2 10 = Some 1 ∧
        cell (methyl_fwd s) 2 200 = Some 1 ∧
        raw_total s = 4).
Proof.
  destruct v; split; eexists; (split; [vm_compute; reflexivity|]);
    repeat split; vm_compute; reflexivity.
Qed.

(** ** The context neighbour *)

(** C3.  In either program, for a site at [pos] with [n > 0]
    modifications whose scratch entries [mods[0]] and [mods[1]] are [h]
    and [m]:
    - on a reverse read with [pos > 0] the neighbour is the base at
      [pos - 1]; when it encodes to a context [enc] below 4 the body of the
      loop increments row [enc] of [hydroxy_rev] at the quality of [h] and
      row [enc] of [methyl_rev] at the quality of [m], and nothing else;
      when it encodes to 4 the state is left as it is;
    - on a forward read with [pos + 1 < l_qseq] the neighbour is the base
      at [pos + 1], and the same holds with [hydroxy_fwd] and
      [methyl_fwd];
    - where there is no neighbour (reverse and [pos ≤ 0], forward and
      [l_qseq ≤ pos + 1]) the neighbour is the byte 0, the encoder sends it
      to 4 and the body of the loop leaves the state as it is, whatever
      [n] and the state.
    ([pos] is an [int], so [pos + 1] is computed for [pos] below the
    largest [int] only.) *)
Theorem context_neighbor (v : variant) (aln : bam1_t) (pos : Z) :
  pos < int_max →
  (bam_is_rev aln = true → pos > 0 →
     other_nuc_of v aln pos = Some (base_at aln (pos - 1)) ∧
     ∀ n s h m enc,
       n > 0 → mods s !! 0%nat = Some h → mods s !! 1%nat = Some m →
       encode_of v (to_uint8 (base_at aln (pos - 1))) = Some enc →
       site_body_of v aln n pos s =
         if decide (enc = 4) then Some s
         else
           hr ← table_incr (hydroxy_rev s) enc (qual h);
           mr ← table_incr (methyl_rev s) enc (qual m);
           Some {| mods := mods s;
                   methyl_fwd := methyl_fwd s; methyl_rev := mr;
                   hydroxy_fwd := hydroxy_fwd s; hydroxy_rev := hr |}) ∧
  (bam_is_rev aln = false → pos + 1 < l_qseq aln →
     other_nuc_of v aln pos = Some (base_at aln (pos + 1)) ∧
     ∀ n s h m enc,
       n > 0 → mods s !! 0%nat = Some h → mods s !! 1%nat = Some m →
       encode_of v (to_uint8 (base_at aln (pos + 1))) = Some enc →
       site_body_of v aln n pos s =
         if decide (enc = 4) then Some s
         else
           hf ← table_incr (hydroxy_fwd s) enc (qual h);
           mf ← table_incr (methyl_fwd s) enc (qual m);
           Some {| mods := mods s;
                   methyl_fwd := mf; methyl_rev := methyl_rev s;
                   hydroxy_fwd := hf; hydroxy_rev := hydroxy_rev s |}) ∧
  (bam_is_rev aln = true ∧ pos ≤ 0 ∨ bam_is_rev aln = false ∧ l_qseq aln ≤ pos + 1 →
     other_nuc_of v aln pos = Some 0 ∧
     encode_of v (to_uint8 0) = Some 4 ∧
     ∀ n s, site_body_of v aln n pos s = Some s).
Proof.
  intros Hpos. rewrite other_nuc_of_eq, encode_of_eq, site_body_of_eq.
  split; [|split].
  - intros Hrev Hp.
    assert (NanoporeModsFmt.other_nuc aln pos = Some (base_at aln (pos - 1))) as Hnuc.
    { unfold NanoporeModsFmt.other_nuc. rewrite Hrev. by rewrite decide_True. }
    split; [exact Hnuc|].
    intros n s h m enc Hn Hh Hm Henc. unfold NanoporeModsFmt.site_body.
    rewrite decide_False by (unfold NanoporeModsFmt.m_idx; lia).
    rewrite Hnuc. cbn [mbind option_bind]. rewrite Henc. cbn [mbind option_bind].
    unfold NanoporeModsFmt.n_nucs. destruct (decide (enc = 4)); [reflexivity|].
    change (Z.to_nat NanoporeModsFmt.h_idx) with 0%nat.
    change (Z.to_nat NanoporeModsFmt.m_idx) with 1%nat.
    rewrite Hh, Hm, Hrev. reflexivity.
  - intros Hfwd Hp.
    assert (NanoporeModsFmt.other_nuc aln pos = Some (base_at aln (pos + 1))) as Hnuc.
    { unfold NanoporeModsFmt.other_nuc. rewrite Hfwd.
      rewrite decide_True by lia. by rewrite decide_True. }
    split; [exact Hnuc|].
    intros n s h m enc Hn Hh Hm Henc. unfold NanoporeModsFmt.site_body.
    rewrite decide_False by (unfold NanoporeModsFmt.m_idx; lia).
    rewrite Hnuc. cbn [mbind option_bind]. rewrite Henc. cbn [mbind option_bind].
    unfold NanoporeModsFmt.n_nucs. destruct (decide (enc = 4)); [reflexivity|].
    change (Z.to_nat NanoporeModsFmt.h_idx) with 0%nat.
    change (Z.to_nat NanoporeModsFmt.m_idx) with 1%nat.
    rewrite Hh, Hm, Hfwd. reflexivity.
  - unfold NanoporeModsFmt.site_body, NanoporeModsFmt.other_nuc.
    intros [[-> Hp] | [-> Hp]].
    + rewrite decide_False by lia. split; [done|]. split; [done|].
      intros n s. case_decide; reflexivity.
    + rewrite decide_True by lia. rewrite decide_False by lia.
      split; [done|]. split; [done|].
      intros n s. case_decide; reflexivity.
Qed.

(** The theorem at the three sample sites: the forward site at offset 1
    of [A C G T A] is counted under the 'G' at offset 2 (row 2 of the
    forward tables), the reverse site at offset 3 under the 'G' at offset
    2 (row 2 of the reverse tables), and the forward site at the last
    offset is not counted. *)
Lemma context_neighbor_witness :
  1 < int_max ∧ 3 < int_max ∧ 4 < int_max ∧
  (other_nuc_of Raw read_fwd_pair 1 = Some (base_at read_fwd_pair (1 + 1)) ∧
   site_body_of Raw read_fwd_pair 2 1
       (set_mods (mods stats_after_pair) mod_prob_stats_init) =
     Some stats_after_pair) ∧
  (other_nuc_of Raw read_rev_pair 3 = Some (base_at read_rev_pair (3 - 1)) ∧
   site_body_of Raw read_rev_pair 2 3
       (set_mods (mods stats_after_pair) mod_prob_stats_init) =
     Some {| mods := mods stats_after_pair;
             methyl_fwd := zero_table; methyl_rev := table_with 2 20 1;
             hydroxy_fwd := zero_table; hydroxy_rev := table_with 2 10 1 |}) ∧
  (other_nuc_of Raw read_fwd_last 4 = Some 0 ∧
   encode_of Raw (to_uint8 0) = Some 4 ∧
   ∀ n s, site_body_of Raw read_fwd_last n 4 s = Some s).
Proof.
  assert (1 < int_max) as H1 by (vm_compute; reflexivity).
  assert (3 < int_max) as H3 by (vm_compute; reflexivity).
  assert (4 < int_max) as H4 by (vm_compute; reflexivity).
  split; [exact H1|]. split; [exact H3|]. split; [exact H4|].
  split; [|split].
  - destruct (context_neighbor Raw read_fwd_pair 1 H1) as (_ & Hfwd & _).
    destruct (Hfwd eq_refl ltac:(vm_compute; reflexivity)) as [Hnuc Hbody].
    split; [exact Hnuc|].
    rewrite (Hbody 2 (set_mods (mods stats_after_pair) mod_prob_stats_init)
               (call 10) (call 20) 2);
      [reflexivity|lia|reflexivity|reflexivity|reflexivity].
  - destruct (context_neighbor Raw read_rev_pair 3 H3) as (Hrev & _ & _).
    destruct (Hrev eq_refl ltac:(lia)) as [Hnuc Hbody].
    split; [exact Hnuc|].
    rewrite (Hbody 2 (set_mods (mods stats_after_pair) mod_prob_stats_init)
               (call 10) (call 20) 2);
      [reflexivity|lia|reflexivity|reflexivity|reflexivity].
  - destruct (context_neighbor Raw read_fwd_last 4 H4) as (_ & _ & Hnone).
    apply Hnone. right. split; [reflexivity|]. vm_compute. discriminate.
Defined.

(** The boundary sites of the specification, run through [operator()]:
    a forward site at the last offset and a reverse site at offset 0
    leave the four tables at zero. *)
Lemma boundary_sites_not_counted (v : variant) :
  (∃ s, operator_call_of v mod_prob_stats_init read_fwd_last = Some s ∧
        tables s = tables mod_prob_stats_init) ∧
  (∃ s, operator_call_of v mod_prob_stats_init read_rev_first = Some s ∧
        tables s = tables mod_prob_stats_init).
Proof.
  destruct v; split; eexists; (split; [vm_compute; reflexivity|]);
    vm_compute; reflexivity.
Qed.

(** ** What a counted site increments *)

(** A site with at least one modification whose neighbour encodes to a
    context [enc] below 4 increments row [enc] of the hydroxy table of
    the strand at the quality of [mods[0]] and row [enc] of the methyl
    table of the strand at the quality of [mods[1]]. *)
Lemma site_body_counts (aln : bam1_t) (n pos nuc enc : Z) (s : mod_prob_stats)
    (h m : hts_base_mod) :
  n > 0 →
  NanoporeModsFmt.other_nuc aln pos = Some nuc →
  NanoporeModsFmt.encode (to_uint8 nuc) = Some enc → enc ≠ 4 →
  mods s !! 0%nat = Some h → mods s !! 1%nat = Some m →
  NanoporeModsFmt.site_body aln n pos s =
    if bam_is_rev aln then
      hr ← table_incr (hydroxy_rev s) enc (qual h);
      mr ← table_incr (methyl_rev s) enc (qual m);
      Some {| mods := mods s;
              methyl_fwd := methyl_fwd s; methyl_rev := mr;
              hydroxy_fwd := hydroxy_fwd s; hydroxy_rev := hr |}
    else
      hf ← table_incr (hydroxy_fwd s) enc (qual h);
      mf ← table_incr (methyl_fwd s) enc (qual m);
      Some {| mods := mods s;
              methyl_fwd := mf; methyl_rev := methyl_rev s;
              hydroxy_fwd := hf; hydroxy_rev := hydroxy_rev s |}.
Proof.
  intros Hn Hnuc Henc Hne Hh Hm. unfold NanoporeModsFmt.site_body.
  rewrite decide_False by (by apply pairing_guard_is_dead).
  rewrite Hnuc. cbn [mbind option_bind]. rewrite Henc. cbn [mbind option_bind].
  rewrite decide_False by done.
  change (Z.to_nat NanoporeModsFmt.h_idx) with 0%nat.
  change (Z.to_nat NanoporeModsFmt.m_idx) with 1%nat.
  rewrite Hh, Hm. reflexivity.
Qed.

(** ** Counters only grow *)

Lemma iter_incr64_no_wrap (j : nat) (x : Z) :
  0 ≤ x → x + Z.of_nat j < uint64_modulus →
  Nat.iter j incr64 x = x + Z.of_nat j.
Proof.
  intros Hx. induction j as [|j IH]; intros Hj; simpl; [lia|].
  rewrite IH by lia. rewrite incr64_no_wrap by lia. lia.
Qed.

Lemma cell_Forall (P : Z → Prop) (t : list (list Z)) (c q : nat) (x : Z) :
  Forall (Forall P) t → cell t c q = Some x → P x.
Proof.
  intros Ht. unfold cell. destruct (t !! c) as [h|] eqn:Hh; [|discriminate].
  simpl. intros Hx.
  rewrite Forall_lookup in Ht. specialize (Ht _ _ Hh).
  rewrite Forall_lookup in Ht. exact (Ht _ _ Hx).
Qed.

Lemma table_of_in_tables (id : table_id) (s : mod_prob_stats) :
  table_of id s ∈ tables s.
Proof. destruct id; unfold tables; simpl; set_solver. Qed.

(** The core of the monotonicity: a counter that has room for the sites
    of the record is kept or increased by [operator()]. *)
Lemma operator_call_grows_cell (s s' : mod_prob_stats) (aln : bam1_t)
    (id : table_id) (c q : nat) (x : Z) :
  NanoporeModsFmt.operator_call s aln = Some s' →
  cell (table_of id s) c q = Some x →
  0 ≤ x → x + Z.of_nat (length (basemods aln)) < uint64_modulus →
  ∃ x', cell (table_of id s') c q = Some x' ∧
        x ≤ x' ≤ x + Z.of_nat (length (basemods aln)).
Proof.
  intros Hs' Hx Hx0 Hx1.
  destruct (basemod_loop_grown _ _ _ _ Hs' id c q) as (j & Hj & E).
  rewrite Hx in E. simpl in E. eexists. split; [exact E|].
  rewrite iter_incr64_no_wrap by lia. lia.
Qed.

(** C7, as the code has it.  Processing a record with [operator()] of
    either program leaves every counter unchanged or increased (by the
    number of sites of the record at most), as long as no counter is
    within that many increments of [2^64], where [++] on a
    [std::uint64_t] wraps to zero. *)
Theorem counters_grow_below_wrap (v : variant) (s s' : mod_prob_stats) (aln : bam1_t) :
  tables_range s →
  headroom s (Z.of_nat (length (basemods aln))) →
  operator_call_of v s aln = Some s' →
  ∀ id c q x,
    cell (table_of id s) c q = Some x →
    ∃ x', cell (table_of id s') c q = Some x' ∧
          x ≤ x' ≤ x + Z.of_nat (length (basemods aln)).
Proof.
  intros Hr Hh Hs' id c q x Hx.
  rewrite operator_call_of_eq in Hs'.
  pose proof (table_of_in_tables id s) as Hin.
  unfold tables_range in Hr. rewrite Forall_forall in Hr.
  unfold headroom in Hh. rewrite Forall_forall in Hh.
  pose proof (cell_Forall _ _ _ _ _ (Hr _ Hin) Hx) as Hx0.
  pose proof (cell_Forall _ _ _ _ _ (Hh _ Hin) Hx) as Hx1.
  simpl in Hx0, Hx1.
  eapply operator_call_grows_cell; eauto; lia.
Qed.

Lemma counters_grow_below_wrap_witness :
  tables_range mod_prob_stats_init ∧
  headroom mod_prob_stats_init (Z.of_nat (length (basemods read_fwd_pair))) ∧
  operator_call_of Formatted mod_prob_stats_init read_fwd_pair = Some stats_after_pair ∧
  ∀ id c q x,
    cell (table_of id mod_prob_stats_init) c q = Some x →
    ∃ x', cell (table_of id stats_after_pair) c q = Some x' ∧
          x ≤ x' ≤ x + Z.of_nat (length (basemods read_fwd_pair)).
Proof.
  assert (tables_range mod_prob_stats_init) as Hr by compute_done.
  split; [exact Hr|].
  assert (headroom mod_prob_stats_init (Z.of_nat (length (basemods read_fwd_pair))))
    as Hh by compute_done.
  split; [exact Hh|].
  assert (operator_call_of Formatted mod_prob_stats_init read_fwd_pair
          = Some stats_after_pair) as Hs by (vm_compute; reflexivity).
  split; [exact Hs|].
  exact (counters_grow_below_wrap Formatted _ _ _ Hr Hh Hs).
Defined.

(** ** Counters over a whole run *)

Lemma read_loop_grown (stream : list (Z * bam1_t)) (s s' : mod_prob_stats) (st : Z) :
  NanoporeModsFmt.read_loop stream s = Some (st, s') →
  ∀ id, grown (sites_read stream) (table_of id s) (table_of id s').
Proof.
  revert s. induction stream as [|[st0 aln] rest IH]; intros s H id.
  - injection H as <- <-. apply grown_refl.
  - cbn [NanoporeModsFmt.read_loop sites_read] in *. case_decide.
    + destruct (NanoporeModsFmt.operator_call s aln) as [s1|] eqn:Hcall;
        [|discriminate]. simpl in H.
      pose proof (basemod_loop_grown _ _ _ _ Hcall id) as H1.
      pose proof (IH _ H id) as H2.
      exact (grown_trans _ _ _ _ _ H1 H2).
    + injection H as <- <-. apply grown_refl.
Qed.

Lemma incr64_le (x : Z) : 0 ≤ x → incr64 x ≤ x + 1.
Proof. intros Hx. unfold incr64. apply Z.mod_le; [lia|done]. Qed.

Lemma iter_incr64_bounds (j : nat) (x : Z) :
  0 ≤ x → 0 ≤ Nat.iter j incr64 x ≤ x + Z.of_nat j.
Proof.
  intros Hx. induction j as [|j IH]; simpl; [lia|].
  pose proof (incr64_range (Nat.iter j incr64 x)).
  pose proof (incr64_le (Nat.iter j incr64 x)). lia.
Qed.

Lemma cell_zero_table (c q : nat) (x : Z) : cell zero_table c q = Some x → x = 0.
Proof.
  unfold cell, zero_table. intros H.
  destruct (replicate (Z.to_nat 4) (replicate (Z.to_nat n_values) 0) !! c)
    as [h|] eqn:Hh; [|discriminate].
  apply lookup_replicate in Hh as [-> _]. cbn [mbind option_bind] in H.
  by apply lookup_replicate in H as [-> _].
Qed.

Lemma cell_init (id : table_id) (c q : nat) (x : Z) :
  cell (table_of id mod_prob_stats_init) c q = Some x → x = 0.
Proof. destruct id; apply cell_zero_table. Qed.

(** In a run from the initial state no counter exceeds the number of
    sites processed so far. *)
Lemma run_counters_bounded (stream : list (Z * bam1_t)) (s : mod_prob_stats)
    (st : Z) (id : table_id) (c q : nat) (x : Z) :
  NanoporeModsFmt.read_loop stream mod_prob_stats_init = Some (st, s) →
  cell (table_of id s) c q = Some x →
  0 ≤ x ≤ Z.of_nat (sites_read stream).
Proof.
  intros Hrun Hx.
  destruct (read_loop_grown _ _ _ _ Hrun id c q) as (j & Hj & E).
  rewrite Hx in E.
  destruct (cell (table_of id mod_prob_stats_init) c q) as [x0|] eqn:H0;
    [|discriminate].
  apply cell_init in H0 as ->. injection E as ->.
  pose proof (iter_incr64_bounds j 0 ltac:(lia)). lia.
Qed.

(** X17.  Monotonicity over a run: from the initial state, as long as
    the run has processed fewer than [2^64] sites, the record included,
    every counter is kept or increased by the record. *)
Lemma counters_grow_in_a_run (v : variant) (stream : list (Z * bam1_t))
    (s s' : mod_prob_stats) (st : Z) (aln : bam1_t) :
  read_loop_of v stream mod_prob_stats_init = Some (st, s) →
  Z.of_nat (sites_read stream) + Z.of_nat (length (basemods aln)) < uint64_modulus →
  operator_call_of v s aln = Some s' →
  ∀ id c q x,
    cell (table_of id s) c q = Some x →
    ∃ x', cell (table_of id s') c q = Some x' ∧
          x ≤ x' ≤ x + Z.of_nat (length (basemods aln)).
Proof.
  rewrite read_loop_of_eq, operator_call_of_eq.
  intros Hrun Hroom Hs' id c q x Hx.
  pose proof (run_counters_bounded _ _ _ _ _ _ _ Hrun Hx).
  eapply operator_call_grows_cell; eauto; lia.
Qed.

Lemma counters_grow_in_a_run_witness :
  read_loop_of Raw [(0, read_fwd_pair)] mod_prob_stats_init
    = Some (-1, stats_counting 1 0) ∧
  Z.of_nat (sites_read [(0, read_fwd_pair)]) +
    Z.of_nat (length (basemods read_fwd_pair)) < uint64_modulus ∧
  operator_call_of Raw (stats_counting 1 0) read_fwd_pair = Some (stats_counting 2 0) ∧
  ∀ id c q x,
    cell (table_of id (stats_counting 1 0)) c q = Some x →
    ∃ x', cell (table_of id (stats_counting 2 0)) c q = Some x' ∧
          x ≤ x' ≤ x + Z.of_nat (length (basemods read_fwd_pair)).
Proof.
  assert (read_loop_of Raw [(0, read_fwd_pair)] mod_prob_stats_init
          = Some (-1, stats_counting 1 0)) as Hrun by (vm_compute; reflexivity).
  assert (Z.of_nat (sites_read [(0, read_fwd_pair)]) +
            Z.of_nat (length (basemods read_fwd_pair)) < uint64_modulus)
    as Hroom by (vm_compute; reflexivity).
  assert (operator_call_of Raw (stats_counting 1 0) read_fwd_pair
          = Some (stats_counting 2 0)) as Hcall by (vm_compute; reflexivity).
  split; [exact Hrun|]. split; [exact Hroom|]. split; [exact Hcall|].
  exact (counters_grow_in_a_run Raw _ _ _ _ _ Hrun Hroom Hcall).
Defined.

(** ** The formatters on tables of the right shape *)

Lemma table_shape_inv (t : list (list Z)) :
  table_shape t →
  ∃ h0 h1 h2 h3, t = [h0; h1; h2; h3] ∧
    length h0 = Z.to_nat n_values ∧ length h1 = Z.to_nat n_values ∧
    length h2 = Z.to_nat n_values ∧ length h3 = Z.to_nat n_values.
Proof.
  intros [Hlen Hrows].
  destruct t as [|h0 [|h1 [|h2 [|h3 [|]]]]]; try discriminate.
  exists h0, h1, h2, h3. split; [done|].
  rewrite !Forall_cons in Hrows. tauto.
Qed.

Lemma v_sum_same_length (a b : list Z) :
  length a = length b → NanoporeModsFmt.v_sum a b = zip_with add64 a b.
Proof.
  intros Hlen. unfold NanoporeModsFmt.v_sum.
  rewrite drop_ge by lia. apply app_nil_r.
Qed.

(** The collapsed map of a forward and a reverse table, written out. *)
Lemma sum_to_map_rows (f0 f1 f2 f3 r0 r1 r2 r3 : list Z) :
  NanoporeModsFmt.sum_to_map [f0; f1; f2; f3] [r0; r1; r2; r3] =
  Some (<["CT" := NanoporeModsFmt.v_sum f3 r0]>
       (<["CG" := NanoporeModsFmt.v_sum f2 r1]>
       (<["CC" := NanoporeModsFmt.v_sum f1 r2]>
       (<["CA" := NanoporeModsFmt.v_sum f0 r3]> ∅)))).
Proof. reflexivity. Qed.

(** The relabelled map of a table, written out. *)
Lemma to_map_rows (h0 h1 h2 h3 : list Z) (k0 k1 k2 k3 : string) :
  NanoporeModsFmt.to_map [h0; h1; h2; h3] [k0; k1; k2; k3] =
  Some (<[k3 := h3]> (<[k2 := h2]> (<[k1 := h1]> (<[k0 := h0]> ∅)))).
Proof. reflexivity. Qed.

Lemma four_keys_dom (k0 k1 k2 k3 : string) (h0 h1 h2 h3 : list Z) :
  dom (<[k3 := h3]> (<[k2 := h2]> (<[k1 := h1]> (<[k0 := h0]>
         (∅ : gmap string (list Z)))))) =@{gset string} {[k0; k1; k2; k3]}.
Proof.
  rewrite !dom_insert_L, dom_empty_L. apply set_eq. intros k.
  rewrite !elem_of_union, !elem_of_singleton, elem_of_empty. tauto.
Qed.

Lemma mod_prob_stats_fmt_maps (mps : mod_prob_stats) (m h : gmap string (list Z)) :
  NanoporeModsFmt.sum_to_map (methyl_fwd mps) (methyl_rev mps) = Some m →
  NanoporeModsFmt.sum_to_map (hydroxy_fwd mps) (hydroxy_rev mps) = Some h →
  NanoporeModsFmt.mod_prob_stats_fmt mps =
    Some {| NanoporeModsFmt.Collapsed.methyl := m;
            NanoporeModsFmt.Collapsed.hydroxy := h |}.
Proof.
  intros Hm Hh. unfold NanoporeModsFmt.mod_prob_stats_fmt.
  rewrite Hm, Hh. reflexivity.
Qed.

(** C5, as the code has it.  On tables of the declared sizes the
    strand-collapsed formatter returns two maps whose keys are exactly
    "CA", "CC", "CG", "CT"; under the key [dinucs[i]] the methyl map holds
    the element-wise sum modulo [2^64] (the sum of [std::uint64_t]) of
    row [i] of [methyl_fwd] and row [3 - i] of [methyl_rev], and the
    hydroxy map the same for the hydroxy tables. *)
Theorem collapsed_map_entries (mps : mod_prob_stats) :
  tables_shape mps →
  ∃ r, NanoporeModsFmt.mod_prob_stats_fmt mps = Some r ∧
    dom (NanoporeModsFmt.Collapsed.methyl r) =@{gset string} {["CA"; "CC"; "CG"; "CT"]} ∧
    dom (NanoporeModsFmt.Collapsed.hydroxy r) =@{gset string} {["CA"; "CC"; "CG"; "CT"]} ∧
    ∀ (i : nat) key, NanoporeModsFmt.dinucs !! i = Some key →
      ∃ mf mr hf hr,
        methyl_fwd mps !! i = Some mf ∧ methyl_rev mps !! (3 - i)%nat = Some mr ∧
        hydroxy_fwd mps !! i = Some hf ∧ hydroxy_rev mps !! (3 - i)%nat = Some hr ∧
        NanoporeModsFmt.Collapsed.methyl r !! key = Some (zip_with add64 mf mr) ∧
        NanoporeModsFmt.Collapsed.hydroxy r !! key = Some (zip_with add64 hf hr).
Proof.
  intros (Hmf & Hmr & Hhf & Hhr)%tables_shape_iff.
  apply table_shape_inv in Hmf as (a0 & a1 & a2 & a3 & Emf & ? & ? & ? & ?).
  apply table_shape_inv in Hmr as (b0 & b1 & b2 & b3 & Emr & ? & ? & ? & ?).
  apply table_shape_inv in Hhf as (c0 & c1 & c2 & c3 & Ehf & ? & ? & ? & ?).
  apply table_shape_inv in Hhr as (d0 & d1 & d2 & d3 & Ehr & ? & ? & ? & ?).
  eexists. split.
  { apply mod_prob_stats_fmt_maps.
    - rewrite Emf, Emr. apply sum_to_map_rows.
    - rewrite Ehf, Ehr. apply sum_to_map_rows. }
  cbn [NanoporeModsFmt.Collapsed.methyl NanoporeModsFmt.Collapsed.hydroxy].
  rewrite !four_keys_dom. split; [done|]. split; [done|].
  rewrite !v_sum_same_length by lia.
  rewrite Emf, Emr, Ehf, Ehr.
  intros i key Hkey.
  destruct i as [|[|[|[|i]]]]; try discriminate Hkey;
    injection Hkey as <-; do 4 eexists;
    (split; [reflexivity|]); (split; [reflexivity|]);
    (split; [reflexivity|]); (split; [reflexivity|]);
    split; by simplify_map_eq.
Qed.

Lemma collapsed_map_entries_witness :
  tables_shape stats_after_pair ∧
  ∃ r, NanoporeModsFmt.mod_prob_stats_fmt stats_after_pair = Some r ∧
    dom (NanoporeModsFmt.Collapsed.methyl r) =@{gset string} {["CA"; "CC"; "CG"; "CT"]} ∧
    dom (NanoporeModsFmt.Collapsed.hydroxy r) =@{gset string} {["CA"; "CC"; "CG"; "CT"]} ∧
    ∀ (i : nat) key, NanoporeModsFmt.dinucs !! i = Some key →
      ∃ mf mr hf hr,
        methyl_fwd stats_after_pair !! i = Some mf ∧
        methyl_rev stats_after_pair !! (3 - i)%nat = Some mr ∧
        hydroxy_fwd stats_after_pair !! i = Some hf ∧
        hydroxy_rev stats_after_pair !! (3 - i)%nat = Some hr ∧
        NanoporeModsFmt.Collapsed.methyl r !! key = Some (zip_with add64 mf mr) ∧
        NanoporeModsFmt.Collapsed.hydroxy r !! key = Some (zip_with add64 hf hr).
Proof.
  assert (tables_shape stats_after_pair) as Hs by compute_done.
  split; [exact Hs|].
  exact (collapsed_map_entries stats_after_pair Hs).
Defined.

(** The first scenario of the specification: after the forward read
    [A C G T A] with one site at offset 1 (hydroxy quality 10, methyl
    quality 20) the collapsed report counts one at [methyl["CG"][20]] and
    one at [hydroxy["CG"][10]], and nothing else. *)
Lemma scenario_forward_read :
  ∃ s r, NanoporeModsFmt.operator_call mod_prob_stats_init read_fwd_pair = Some s ∧
         NanoporeModsFmt.mod_prob_stats_fmt s = Some r ∧
         NanoporeModsFmt.Collapsed.methyl r !! "CG" ≫= (.!! 20%nat) = Some 1 ∧
         NanoporeModsFmt.Collapsed.hydroxy r !! "CG" ≫= (.!! 10%nat) = Some 1 ∧
         collapsed_total r = 2.
Proof.
  do 2 eexists. split; [vm_compute; reflexivity|].
  split; [vm_compute; reflexivity|].
  repeat split; vm_compute; reflexivity.
Qed.

(** The second scenario of the specification: the same read on the
    reverse strand with one site at offset 3.  The neighbour is the 'G'
    at offset 2, so the reverse tables count at row 2, and the collapsed
    report adds this row to row [3 - 2] of the forward tables, under
    [dinucs[1]], which is "CC". *)
Lemma scenario_reverse_read :
  ∃ s r, NanoporeModsFmt.operator_call mod_prob_stats_init read_rev_pair = Some s ∧
         cell (methyl_rev s) 2 20 = Some 1 ∧
         cell (hydroxy_rev s) 2 10 = Some 1 ∧
         raw_total s = 2 ∧
         NanoporeModsFmt.mod_prob_stats_fmt s = Some r ∧
         NanoporeModsFmt.Collapsed.methyl r !! "CC" ≫= (.!! 20%nat) = Some 1 ∧
         NanoporeModsFmt.Collapsed.hydroxy r !! "CC" ≫= (.!! 10%nat) = Some 1 ∧
         collapsed_total r = 2.
Proof.
  do 2 eexists. split; [vm_compute; reflexivity|].
  split; [reflexivity|]. split; [reflexivity|].
  split; [vm_compute; reflexivity|].
  split; [vm_compute; reflexivity|].
  repeat split; vm_compute; reflexivity.
Qed.

(** ** The strand-separated formatter *)

Lemma unmap_four (m : gmap string (list Z)) (k0 k1 k2 k3 : string)
    (h0 h1 h2 h3 : list Z) :
  m !! k0 = Some h0 → m !! k1 = Some h1 → m !! k2 = Some h2 → m !! k3 = Some h3 →
  unmap m [k0; k1; k2; k3] = Some [h0; h1; h2; h3].
Proof. intros E0 E1 E2 E3. unfold unmap. simpl. rewrite E0, E1, E2, E3. reflexivity. Qed.

Lemma mod_prob_stats_fmt_stranded_maps (mps : mod_prob_stats)
    (mf mr hf hr : gmap string (list Z)) :
  NanoporeModsFmt.to_map (methyl_fwd mps) NanoporeModsFmt.dinucs = Some mf →
  NanoporeModsFmt.to_map (methyl_rev mps) NanoporeModsFmt.dinucs_rev = Some mr →
  NanoporeModsFmt.to_map (hydroxy_fwd mps) NanoporeModsFmt.dinucs = Some hf →
  NanoporeModsFmt.to_map (hydroxy_rev mps) NanoporeModsFmt.dinucs_rev = Some hr →
  NanoporeModsFmt.mod_prob_stats_fmt_stranded mps =
    Some {| NanoporeModsFmt.Stranded.methyl_fwd := mf;
            NanoporeModsFmt.Stranded.methyl_rev := mr;
            NanoporeModsFmt.Stranded.hydroxy_fwd := hf;
            NanoporeModsFmt.Stranded.hydroxy_rev := hr |}.
Proof.
  intros E1 E2 E3 E4. unfold NanoporeModsFmt.mod_prob_stats_fmt_stranded.
  rewrite E1, E2, E3, E4. reflexivity.
Qed.

(** One table under four distinct keys: the map holds each row under its
    key, has these four keys, and gives the table back. *)
Lemma to_map_relabels (t : list (list Z)) (k0 k1 k2 k3 : string) :
  table_shape t → NoDup [k0; k1; k2; k3] →
  ∃ m, NanoporeModsFmt.to_map t [k0; k1; k2; k3] = Some m ∧
       (∀ (i : nat) key, [k0; k1; k2; k3] !! i = Some key → m !! key = t !! i) ∧
       dom m =@{gset string} {[k0; k1; k2; k3]} ∧
       unmap m [k0; k1; k2; k3] = Some t.
Proof.
  intros (h0 & h1 & h2 & h3 & -> & _)%table_shape_inv Hnd.
  rewrite !NoDup_cons, !not_elem_of_cons in Hnd.
  destruct Hnd as ((? & ? & ? & _) & (? & ? & _) & (? & _) & _).
  eexists. split; [apply to_map_rows|].
  assert (∀ (i : nat) key, [k0; k1; k2; k3] !! i = Some key →
    <[k3 := h3]> (<[k2 := h2]> (<[k1 := h1]> (<[k0 := h0]> (∅ : gmap string (list Z)))))
      !! key = [h0; h1; h2; h3] !! i) as Hrows.
  { intros i key Hkey.
    destruct i as [|[|[|[|i]]]]; try discriminate Hkey;
      injection Hkey as <-; by simplify_map_eq. }
  split; [exact Hrows|]. split; [apply four_keys_dom|].
  apply unmap_four.
  - exact (Hrows 0%nat k0 eq_refl).
  - exact (Hrows 1%nat k1 eq_refl).
  - exact (Hrows 2%nat k2 eq_refl).
  - exact (Hrows 3%nat k3 eq_refl).
Qed.

Lemma dinucs_NoDup : NoDup NanoporeModsFmt.dinucs.
Proof. unfold NanoporeModsFmt.dinucs. compute_done. Qed.

Lemma dinucs_rev_NoDup : NoDup NanoporeModsFmt.dinucs_rev.
Proof. unfold NanoporeModsFmt.dinucs_rev. compute_done. Qed.

(** C6.  On tables of the declared sizes the strand-separated formatter
    returns four maps; each holds the rows of its raw table unchanged:
    rows 0, 1, 2, 3 of a forward table under "CA", "CC", "CG", "CT" and
    rows 0, 1, 2, 3 of a reverse table under "CT", "CG", "CC", "CA"; each
    map has exactly these four keys; and reading each map back by its
    four keys in this order gives its raw table, so that the raw state is
    recovered from the report. *)
Theorem stranded_is_relabeling (mps : mod_prob_stats) :
  tables_shape mps →
  ∃ r, NanoporeModsFmt.mod_prob_stats_fmt_stranded mps = Some r ∧
    (∀ (i : nat) key, ["CA"; "CC"; "CG"; "CT"] !! i = Some key →
       NanoporeModsFmt.Stranded.methyl_fwd r !! key = methyl_fwd mps !! i ∧
       NanoporeModsFmt.Stranded.hydroxy_fwd r !! key = hydroxy_fwd mps !! i) ∧
    (∀ (i : nat) key, ["CT"; "CG"; "CC"; "CA"] !! i = Some key →
       NanoporeModsFmt.Stranded.methyl_rev r !! key = methyl_rev mps !! i ∧
       NanoporeModsFmt.Stranded.hydroxy_rev r !! key = hydroxy_rev mps !! i) ∧
    (dom (NanoporeModsFmt.Stranded.methyl_fwd r) =@{gset string} {["CA"; "CC"; "CG"; "CT"]} ∧
     dom (NanoporeModsFmt.Stranded.methyl_rev r) =@{gset string} {["CT"; "CG"; "CC"; "CA"]} ∧
     dom (NanoporeModsFmt.Stranded.hydroxy_fwd r) =@{gset string} {["CA"; "CC"; "CG"; "CT"]} ∧
     dom (NanoporeModsFmt.Stranded.hydroxy_rev r) =@{gset string} {["CT"; "CG"; "CC"; "CA"]}) ∧
    (unmap (NanoporeModsFmt.Stranded.methyl_fwd r) ["CA"; "CC"; "CG"; "CT"]
       = Some (methyl_fwd mps) ∧
     unmap (NanoporeModsFmt.Stranded.methyl_rev r) ["CT"; "CG"; "CC"; "CA"]
       = Some (methyl_rev mps) ∧
     unmap (NanoporeModsFmt.Stranded.hydroxy_fwd r) ["CA"; "CC"; "CG"; "CT"]
       = Some (hydroxy_fwd mps) ∧
     unmap (NanoporeModsFmt.Stranded.hydroxy_rev r) ["CT"; "CG"; "CC"; "CA"]
       = Some (hydroxy_rev mps)) ∧
    unseparate r = Some (tables mps).
Proof.
  intros (Hmf & Hmr & Hhf & Hhr)%tables_shape_iff.
  destruct (to_map_relabels _ _ _ _ _ Hmf dinucs_NoDup) as (mf & Emf & Lmf & Dmf & Umf).
  destruct (to_map_relabels _ _ _ _ _ Hmr dinucs_rev_NoDup) as (mr & Emr & Lmr & Dmr & Umr).
  destruct (to_map_relabels _ _ _ _ _ Hhf dinucs_NoDup) as (hf & Ehf & Lhf & Dhf & Uhf).
  destruct (to_map_relabels _ _ _ _ _ Hhr dinucs_rev_NoDup) as (hr & Ehr & Lhr & Dhr & Uhr).
  eexists. split; [by apply mod_prob_stats_fmt_stranded_maps|].
  cbn [NanoporeModsFmt.Stranded.methyl_fwd NanoporeModsFmt.Stranded.methyl_rev
       NanoporeModsFmt.Stranded.hydroxy_fwd NanoporeModsFmt.Stranded.hydroxy_rev].
  split; [intros i key Hkey; split; auto|].
  split; [intros i key Hkey; split; auto|].
  split; [done|].
  split; [done|].
  unfold unseparate.
  cbn [NanoporeModsFmt.Stranded.methyl_fwd NanoporeModsFmt.Stranded.methyl_rev
       NanoporeModsFmt.Stranded.hydroxy_fwd NanoporeModsFmt.Stranded.hydroxy_rev].
  unfold NanoporeModsFmt.dinucs, NanoporeModsFmt.dinucs_rev.
  rewrite Umf, Umr, Uhf, Uhr. reflexivity.
Qed.

Lemma stranded_is_relabeling_witness :
  tables_shape (stats_counting 2 1) ∧
  ∃ r, NanoporeModsFmt.mod_prob_stats_fmt_stranded (stats_counting 2 1) = Some r ∧
    (∀ (i : nat) key, ["CA"; "CC"; "CG"; "CT"] !! i = Some key →
       NanoporeModsFmt.Stranded.methyl_fwd r !! key = methyl_fwd (stats_counting 2 1) !! i ∧
       NanoporeModsFmt.Stranded.hydroxy_fwd r !! key = hydroxy_fwd (stats_counting 2 1) !! i) ∧
    (∀ (i : nat) key, ["CT"; "CG"; "CC"; "CA"] !! i = Some key →
       NanoporeModsFmt.Stranded.methyl_rev r !! key = methyl_rev (stats_counting 2 1) !! i ∧
       NanoporeModsFmt.Stranded.hydroxy_rev r !! key = hydroxy_rev (stats_counting 2 1) !! i) ∧
    (dom (NanoporeModsFmt.Stranded.methyl_fwd r) =@{gset string} {["CA"; "CC"; "CG"; "CT"]} ∧
     dom (NanoporeModsFmt.Stranded.methyl_rev r) =@{gset string} {["CT"; "CG"; "CC"; "CA"]} ∧
     dom (NanoporeModsFmt.Stranded.hydroxy_fwd r) =@{gset string} {["CA"; "CC"; "CG"; "CT"]} ∧
     dom (NanoporeModsFmt.Stranded.hydroxy_rev r) =@{gset string} {["CT"; "CG"; "CC"; "CA"]}) ∧
    (unmap (NanoporeModsFmt.Stranded.methyl_fwd r) ["CA"; "CC"; "CG"; "CT"]
       = Some (methyl_fwd (stats_counting 2 1)) ∧
     unmap (NanoporeModsFmt.Stranded.methyl_rev r) ["CT"; "CG"; "CC"; "CA"]
       = Some (methyl_rev (stats_counting 2 1)) ∧
     unmap (NanoporeModsFmt.Stranded.hydroxy_fwd r) ["CA"; "CC"; "CG"; "CT"]
       = Some (hydroxy_fwd (stats_counting 2 1)) ∧
     unmap (NanoporeModsFmt.Stranded.hydroxy_rev r) ["CT"; "CG"; "CC"; "CA"]
       = Some (hydroxy_rev (stats_counting 2 1))) ∧
    unseparate r = Some (tables (stats_counting 2 1)).
Proof.
  assert (tables_shape (stats_counting 2 1)) as Hs by compute_done.
  split; [exact Hs|].
  exact (stranded_is_relabeling (stats_counting 2 1) Hs).
Defined.

(** Two states of the declared sizes with the same strand-separated
    report have the same four tables. *)
Lemma stranded_injective (mps1 mps2 : mod_prob_stats) :
  tables_shape mps1 → tables_shape mps2 →
  NanoporeModsFmt.mod_prob_stats_fmt_stranded mps1 =
    NanoporeModsFmt.mod_prob_stats_fmt_stranded mps2 →
  tables mps1 = tables mps2.
Proof.
  intros (Hmf1 & Hmr1 & Hhf1 & Hhr1)%tables_shape_iff
         (Hmf2 & Hmr2 & Hhf2 & Hhr2)%tables_shape_iff.
  destruct (to_map_relabels _ _ _ _ _ Hmf1 dinucs_NoDup) as (mf1 & Emf1 & _ & _ & Umf1).
  destruct (to_map_relabels _ _ _ _ _ Hmr1 dinucs_rev_NoDup) as (mr1 & Emr1 & _ & _ & Umr1).
  destruct (to_map_relabels _ _ _ _ _ Hhf1 dinucs_NoDup) as (hf1 & Ehf1 & _ & _ & Uhf1).
  destruct (to_map_relabels _ _ _ _ _ Hhr1 dinucs_rev_NoDup) as (hr1 & Ehr1 & _ & _ & Uhr1).
  destruct (to_map_relabels _ _ _ _ _ Hmf2 dinucs_NoDup) as (mf2 & Emf2 & _ & _ & Umf2).
  destruct (to_map_relabels _ _ _ _ _ Hmr2 dinucs_rev_NoDup) as (mr2 & Emr2 & _ & _ & Umr2).
  destruct (to_map_relabels _ _ _ _ _ Hhf2 dinucs_NoDup) as (hf2 & Ehf2 & _ & _ & Uhf2).
  destruct (to_map_relabels _ _ _ _ _ Hhr2 dinucs_rev_NoDup) as (hr2 & Ehr2 & _ & _ & Uhr2).
  rewrite (mod_prob_stats_fmt_stranded_maps mps1 mf1 mr1 hf1 hr1) by done.
  rewrite (mod_prob_stats_fmt_stranded_maps mps2 mf2 mr2 hf2 hr2) by done.
  intros [= -> -> -> ->]. unfold tables. congruence.
Qed.

(** ** Conservation of counts by the strand-collapsed formatter *)

Lemma hist_total_zip_add64 (a b : list Z) :
  Forall (λ x, 0 ≤ x < uint64_modulus) a →
  Forall (λ x, 0 ≤ x < uint64_modulus) b →
  Forall2 (λ x y, x + y < uint64_modulus) a b →
  hist_total (zip_with add64 a b) = hist_total a + hist_total b.
Proof.
  intros Ha Hb Hab. induction Hab as [|x y a b Hxy Hab IH]; [reflexivity|].
  apply Forall_cons in Ha as [Hx Ha]. apply Forall_cons in Hb as [Hy Hb].
  unfold hist_total in *. simpl. rewrite IH by done.
  rewrite add64_no_wrap by lia. lia.
Qed.

(** Without any condition the totals agree modulo [2^64]. *)
Lemma hist_total_zip_add64_mod (a b : list Z) :
  length a = length b →
  hist_total (zip_with add64 a b) mod uint64_modulus =
    (hist_total a + hist_total b) mod uint64_modulus.
Proof.
  revert b. induction a as [|x a IH]; intros [|y b] Hlen; try discriminate;
    [reflexivity|].
  injection Hlen as Hlen. unfold hist_total in *. simpl.
  rewrite Z.add_mod, IH by done. unfold add64.
  rewrite Z.mod_mod by done. rewrite <- Z.add_mod by done.
  f_equal. lia.
Qed.

Lemma map_total_insert (m : gmap string (list Z)) (key : string) (h : list Z) :
  m !! key = None → map_total (<[key := h]> m) = hist_total h + map_total m.
Proof.
  intros Hnone. unfold map_total.
  rewrite map_fold_insert_L; [done| |done].
  intros. lia.
Qed.

Lemma map_total_four (k0 k1 k2 k3 : string) (h0 h1 h2 h3 : list Z) :
  NoDup [k0; k1; k2; k3] →
  map_total (<[k3 := h3]> (<[k2 := h2]> (<[k1 := h1]> (<[k0 := h0]> ∅)))) =
  hist_total h0 + hist_total h1 + hist_total h2 + hist_total h3.
Proof.
  intros Hnd. rewrite !NoDup_cons, !not_elem_of_cons in Hnd.
  destruct Hnd as ((? & ? & ? & _) & (? & ? & _) & (? & _) & _).
  rewrite !map_total_insert by by simplify_map_eq.
  unfold map_total. rewrite map_fold_empty. lia.
Qed.

Lemma table_total_four (h0 h1 h2 h3 : list Z) :
  table_total [h0; h1; h2; h3] =
  hist_total h0 + hist_total h1 + hist_total h2 + hist_total h3.
Proof. unfold table_total. simpl. lia. Qed.

(** One kind: the total of the collapsed map of a forward and a reverse
    table whose mirrored counters do not add up to the wrap-around. *)
Lemma sum_to_map_total (f r : list (list Z)) :
  table_shape f → table_shape r →
  table_range f → table_range r →
  pairs_fit f r →
  ∃ m, NanoporeModsFmt.sum_to_map f r = Some m ∧
       map_total m = table_total f + table_total r.
Proof.
  intros (f0 & f1 & f2 & f3 & -> & ? & ? & ? & ?)%table_shape_inv
         (r0 & r1 & r2 & r3 & -> & ? & ? & ? & ?)%table_shape_inv Hf Hr Hfit.
  unfold table_range in Hf, Hr. rewrite !Forall_cons in Hf, Hr.
  destruct Hf as (? & ? & ? & ? & _), Hr as (? & ? & ? & ? & _).
  unfold pairs_fit in Hfit. cbn [reverse rev_append] in Hfit.
  apply Forall2_cons in Hfit as [? Hfit]. apply Forall2_cons in Hfit as [? Hfit].
  apply Forall2_cons in Hfit as [? Hfit]. apply Forall2_cons in Hfit as [? _].
  eexists. split; [apply sum_to_map_rows|].
  rewrite (map_total_four "CA" "CC" "CG" "CT") by compute_done.
  rewrite !v_sum_same_length by lia.
  rewrite !hist_total_zip_add64 by done.
  rewrite !table_total_four. lia.
Qed.

(** C4, as the code has it.  On a raw state of the declared sizes in
    which no forward counter and its mirrored reverse counter add up to
    [2^64], the sum of all counters of the two collapsed maps equals the
    sum of all counters of the four raw tables. *)
Theorem collapse_conserves_below_wrap (mps : mod_prob_stats) :
  tables_shape mps → tables_range mps → collapse_fits mps →
  ∃ r, NanoporeModsFmt.mod_prob_stats_fmt mps = Some r ∧
       collapsed_total r = raw_total mps.
Proof.
  intros (Hmf & Hmr & Hhf & Hhr)%tables_shape_iff Hrange [Hfm Hfh].
  unfold tables_range, tables in Hrange. rewrite !Forall_cons in Hrange.
  destruct Hrange as (Rmf & Rmr & Rhf & Rhr & _).
  destruct (sum_to_map_total _ _ Hmf Hmr Rmf Rmr Hfm) as (m & Em & Tm).
  destruct (sum_to_map_total _ _ Hhf Hhr Rhf Rhr Hfh) as (h & Eh & Th).
  eexists. split; [by apply mod_prob_stats_fmt_maps|].
  unfold collapsed_total, raw_total.
  cbn [NanoporeModsFmt.Collapsed.methyl NanoporeModsFmt.Collapsed.hydroxy].
  lia.
Qed.

Lemma collapse_conserves_below_wrap_witness :
  tables_shape stats_after_pair ∧ tables_range stats_after_pair ∧
  collapse_fits stats_after_pair ∧
  ∃ r, NanoporeModsFmt.mod_prob_stats_fmt stats_after_pair = Some r ∧
       collapsed_total r = raw_total stats_after_pair.
Proof.
  assert (tables_shape stats_after_pair) as Hs by compute_done.
  assert (tables_range stats_after_pair) as Hr by compute_done.
  assert (collapse_fits stats_after_pair) as Hf
    by (unfold collapse_fits, pairs_fit; compute_done).
  split; [exact Hs|]. split; [exact Hr|]. split; [exact Hf|].
  exact (collapse_conserves_below_wrap stats_after_pair Hs Hr Hf).
Defined.

(** The totals of a state where a sum wraps: with [2^63] in
    [methyl_fwd[0][0]] and in [methyl_rev[3][0]] the raw counters add up
    to [2^64] and the collapsed ones to 0. *)
Lemma collapse_loses_counts_at_wrap :
  tables_shape stats_two_halves ∧ tables_range stats_two_halves ∧
  ∃ r, NanoporeModsFmt.mod_prob_stats_fmt stats_two_halves = Some r ∧
       NanoporeModsFmt.Collapsed.methyl r !! "CA" ≫= (.!! 0%nat) = Some 0 ∧
       collapsed_total r = 0 ∧
       raw_total stats_two_halves = 2 ^ 64 ∧
       collapsed_total r ≠ raw_total stats_two_halves.
Proof.
  split; [compute_done|]. split; [compute_done|].
  eexists. split; [vm_compute; reflexivity|].
  repeat split; vm_compute; congruence.
Qed.

(** ** The condition of conservation is the exact one *)

Lemma add64_le (x y : Z) :
  0 ≤ x < uint64_modulus → 0 ≤ y < uint64_modulus →
  add64 x y ≤ x + y ∧ (add64 x y = x + y → x + y < uint64_modulus).
Proof.
  intros Hx Hy. unfold add64.
  pose proof (Z.mod_pos_bound (x + y) uint64_modulus ltac:(done)).
  pose proof (Z.mod_le (x + y) uint64_modulus ltac:(lia) ltac:(done)).
  split; [done|]. intros E. lia.
Qed.

Lemma hist_total_zip_add64_le (a b : list Z) :
  Forall (λ x, 0 ≤ x < uint64_modulus) a →
  Forall (λ x, 0 ≤ x < uint64_modulus) b →
  length a = length b →
  hist_total (zip_with add64 a b) ≤ hist_total a + hist_total b ∧
  (hist_total (zip_with add64 a b) = hist_total a + hist_total b →
   Forall2 (λ x y, x + y < uint64_modulus) a b).
Proof.
  revert b. induction a as [|x a IH]; intros [|y b] Ha Hb Hlen; try discriminate.
  - split; [done|]. constructor.
  - apply Forall_cons in Ha as [Hx Ha]. apply Forall_cons in Hb as [Hy Hb].
    injection Hlen as Hlen.
    destruct (IH b Ha Hb Hlen) as [Hle Heq].
    destruct (add64_le x y Hx Hy) as [Hle1 Heq1].
    unfold hist_total in *. simpl. split; [lia|].
    intros E. constructor; [apply Heq1 | apply Heq]; lia.
Qed.

(** One kind: the collapsed map never holds more than the two tables,
    and it holds as much only if the mirrored counters fit. *)
Lemma sum_to_map_total_le (f r : list (list Z)) :
  table_shape f → table_shape r →
  table_range f → table_range r →
  ∃ m, NanoporeModsFmt.sum_to_map f r = Some m ∧
       map_total m ≤ table_total f + table_total r ∧
       (map_total m = table_total f + table_total r → pairs_fit f r).
Proof.
  intros (f0 & f1 & f2 & f3 & -> & ? & ? & ? & ?)%table_shape_inv
         (r0 & r1 & r2 & r3 & -> & ? & ? & ? & ?)%table_shape_inv Hf Hr.
  unfold table_range in Hf, Hr. rewrite !Forall_cons in Hf, Hr.
  destruct Hf as (? & ? & ? & ? & _), Hr as (? & ? & ? & ? & _).
  eexists. split; [apply sum_to_map_rows|].
  rewrite (map_total_four "CA" "CC" "CG" "CT") by compute_done.
  rewrite !v_sum_same_length by lia.
  rewrite !table_total_four.
  destruct (hist_total_zip_add64_le f0 r3) as [? ?]; [done|done|lia|].
  destruct (hist_total_zip_add64_le f1 r2) as [? ?]; [done|done|lia|].
  destruct (hist_total_zip_add64_le f2 r1) as [? ?]; [done|done|lia|].
  destruct (hist_total_zip_add64_le f3 r0) as [? ?]; [done|done|lia|].
  split; [lia|]. intros E.
  unfold pairs_fit. cbn [reverse rev_append].
  repeat (apply Forall2_cons; split); [| | | |constructor]; auto with lia.
Qed.

(** X10.  On a raw state of the declared sizes the collapsed layout
    conserves the counts exactly when no forward counter and its mirrored
    reverse counter add up to [2^64]; otherwise it holds fewer. *)
Lemma collapse_conserves_iff (mps : mod_prob_stats) :
  tables_shape mps → tables_range mps →
  ∃ r, NanoporeModsFmt.mod_prob_stats_fmt mps = Some r ∧
       collapsed_total r ≤ raw_total mps ∧
       (collapsed_total r = raw_total mps ↔ collapse_fits mps).
Proof.
  intros (Hmf & Hmr & Hhf & Hhr)%tables_shape_iff Hrange.
  unfold tables_range, tables in Hrange. rewrite !Forall_cons in Hrange.
  destruct Hrange as (Rmf & Rmr & Rhf & Rhr & _).
  destruct (sum_to_map_total_le _ _ Hmf Hmr Rmf Rmr) as (m & Em & Lm & Fm).
  destruct (sum_to_map_total_le _ _ Hhf Hhr Rhf Rhr) as (h & Eh & Lh & Fh).
  eexists. split; [by apply mod_prob_stats_fmt_maps|].
  unfold collapsed_total, raw_total, collapse_fits.
  cbn [NanoporeModsFmt.Collapsed.methyl NanoporeModsFmt.Collapsed.hydroxy].
  split; [lia|]. split.
  - intros E. split; [apply Fm | apply Fh]; lia.
  - intros [Hfm Hfh].
    destruct (sum_to_map_total _ _ Hmf Hmr Rmf Rmr Hfm) as (m' & Em' & Tm).
    destruct (sum_to_map_total _ _ Hhf Hhr Rhf Rhr Hfh) as (h' & Eh' & Th).
    rewrite Em in Em'. rewrite Eh in Eh'.
    injection Em' as <-. injection Eh' as <-. lia.
Qed.

Lemma collapse_conserves_iff_witness :
  tables_shape stats_two_halves ∧ tables_range stats_two_halves ∧
  ∃ r, NanoporeModsFmt.mod_prob_stats_fmt stats_two_halves = Some r ∧
       collapsed_total r ≤ raw_total stats_two_halves ∧
       (collapsed_total r = raw_total stats_two_halves ↔ collapse_fits stats_two_halves).
Proof.
  assert (tables_shape stats_two_halves) as Hs by compute_done.
  assert (tables_range stats_two_halves) as Hr by compute_done.
  split; [exact Hs|]. split; [exact Hr|].
  exact (collapse_conserves_iff stats_two_halves Hs Hr).
Defined.

Lemma add_mod_congr (x x' y y' : Z) :
  x mod uint64_modulus = x' mod uint64_modulus →
  y mod uint64_modulus = y' mod uint64_modulus →
  (x + y) mod uint64_modulus = (x' + y') mod uint64_modulus.
Proof.
  intros Hx Hy.
  rewrite (Z.add_mod x), (Z.add_mod x') by done. by rewrite Hx, Hy.
Qed.

(** Whatever the counters, the collapsed total and the raw total agree
    modulo [2^64]. *)
Lemma collapse_conserves_modulo (mps : mod_prob_stats) :
  tables_shape mps →
  ∃ r, NanoporeModsFmt.mod_prob_stats_fmt mps = Some r ∧
       collapsed_total r mod uint64_modulus = raw_total mps mod uint64_modulus.
Proof.
  intros (Hmf & Hmr & Hhf & Hhr)%tables_shape_iff.
  apply table_shape_inv in Hmf as (a0 & a1 & a2 & a3 & Emf & ? & ? & ? & ?).
  apply table_shape_inv in Hmr as (b0 & b1 & b2 & b3 & Emr & ? & ? & ? & ?).
  apply table_shape_inv in Hhf as (c0 & c1 & c2 & c3 & Ehf & ? & ? & ? & ?).
  apply table_shape_inv in Hhr as (d0 & d1 & d2 & d3 & Ehr & ? & ? & ? & ?).
  eexists. split.
  { apply mod_prob_stats_fmt_maps.
    - rewrite Emf, Emr. apply sum_to_map_rows.
    - rewrite Ehf, Ehr. apply sum_to_map_rows. }
  unfold collapsed_total, raw_total.
  cbn [NanoporeModsFmt.Collapsed.methyl NanoporeModsFmt.Collapsed.hydroxy].
  rewrite !(map_total_four "CA" "CC" "CG" "CT") by compute_done.
  rewrite !v_sum_same_length by lia.
  rewrite Emf, Emr, Ehf, Ehr, !table_total_four.
  pose proof (hist_total_zip_add64_mod a0 b3 ltac:(lia)) as E1.
  pose proof (hist_total_zip_add64_mod a1 b2 ltac:(lia)) as E2.
  pose proof (hist_total_zip_add64_mod a2 b1 ltac:(lia)) as E3.
  pose proof (hist_total_zip_add64_mod a3 b0 ltac:(lia)) as E4.
  pose proof (hist_total_zip_add64_mod c0 d3 ltac:(lia)) as E5.
  pose proof (hist_total_zip_add64_mod c1 d2 ltac:(lia)) as E6.
  pose proof (hist_total_zip_add64_mod c2 d1 ltac:(lia)) as E7.
  pose proof (hist_total_zip_add64_mod c3 d0 ltac:(lia)) as E8.
  transitivity
    ((hist_total a0 + hist_total b3 + (hist_total a1 + hist_total b2) +
      (hist_total a2 + hist_total b1) + (hist_total a3 + hist_total b0) +
      (hist_total c0 + hist_total d3 + (hist_total c1 + hist_total d2) +
       (hist_total c2 + hist_total d1) + (hist_total c3 + hist_total d0)))
     mod uint64_modulus); [|f_equal; lia].
  repeat apply add_mod_congr; assumption.
Qed.

(** ** The end of [main] *)

Lemma read_loop_status (stream : list (Z * bam1_t)) (s s' : mod_prob_stats) (st : Z) :
  NanoporeModsFmt.read_loop stream s = Some (st, s') → st ≤ -1.
Proof.
  revert s. induction stream as [|[st0 aln] rest IH]; intros s H.
  - injection H as <- <-. lia.
  - cbn [NanoporeModsFmt.read_loop] in H. case_decide.
    + destruct (NanoporeModsFmt.operator_call s aln) as [s1|]; [|discriminate].
      simpl in H. eauto.
    + injection H as <- <-. lia.
Qed.

(** [main] of the first program once the input is open and the read
    loop has ended. *)
Lemma main_after_loop (e : run_env) (read_status : Z) (mps : mod_prob_stats) :
  2 ≤ argc e → cli11_parse_exit e = None →
  hts_open_ok e = true → sam_hdr_read_ok e = true →
  NanoporeMods.read_loop (sam_stream e) mod_prob_stats_init = Some (read_status, mps) →
  NanoporeMods.main e =
    if decide (read_status < -1) then
      Some ([Stderr "failed reading bam record"], Return EXIT_FAILURE)
    else if negb (ofstream_ok e) then
      Some ([OpenOutput (outfile e)],
            Throw ("Error opening output file: " +:+ outfile e))
    else
      Some ([OpenOutput (outfile e); WriteReport (tables mps)],
            Return EXIT_SUCCESS).
Proof.
  intros Hargc Hcli Hin Hhdr Hloop. unfold NanoporeMods.main.
  rewrite decide_False by lia. rewrite Hcli, Hin, Hhdr, Hloop. reflexivity.
Qed.

(** [main] of the second program once the input is open and the read
    loop has ended. *)
Lemma main_fmt_after_loop (stranded : bool) (e : run_env) (read_status : Z)
    (mps : mod_prob_stats) :
  2 ≤ argc e → cli11_parse_exit e = None →
  hts_open_ok e = true → sam_hdr_read_ok e = true →
  NanoporeModsFmt.read_loop (sam_stream e) mod_prob_stats_init = Some (read_status, mps) →
  NanoporeModsFmt.main stranded e =
    if decide (read_status < -1) then
      Some ([Stderr "failed reading bam record"], Return EXIT_FAILURE)
    else if negb (ofstream_ok e) then
      Some ([OpenOutput (outfile e)],
            Throw ("Error opening output file: " +:+ outfile e))
    else if stranded then
      r ← NanoporeModsFmt.mod_prob_stats_fmt_stranded mps;
      Some ([OpenOutput (outfile e); WriteReport (NanoporeModsFmt.ReportStranded r)],
            Return EXIT_SUCCESS)
    else
      r ← NanoporeModsFmt.mod_prob_stats_fmt mps;
      Some ([OpenOutput (outfile e); WriteReport (NanoporeModsFmt.ReportCollapsed r)],
            Return EXIT_SUCCESS).
Proof.
  intros Hargc Hcli Hin Hhdr Hloop. unfold NanoporeModsFmt.main.
  rewrite decide_False by lia. rewrite Hcli, Hin, Hhdr, Hloop. reflexivity.
Qed.

(** X1.  On records that are well formed, [main] of either program is
    defined: it returns or throws, whatever it meets. *)
Lemma main_defined (stranded : bool) (e : run_env) :
  Forall (λ r, aln_ok r.2) (sam_stream e) →
  is_Some (NanoporeMods.main e) ∧ is_Some (NanoporeModsFmt.main stranded e).
Proof.
  intros Hok.
  destruct (read_loop_defined Formatted _ _ mod_prob_stats_init_ok Hok)
    as (st & mps & Hloop & _ & _ & _ & Hshape).
  simpl in Hloop. pose proof Hloop as Hloop'. rewrite <- read_loop_agree in Hloop'.
  destruct (collapse_conserves_modulo mps Hshape) as (rc & Hrc & _).
  assert (is_Some (NanoporeModsFmt.mod_prob_stats_fmt_stranded mps)) as [rs Hrs].
  { apply tables_shape_iff in Hshape as (Hmf & Hmr & Hhf & Hhr).
    destruct (to_map_relabels _ _ _ _ _ Hmf dinucs_NoDup) as (mf & Emf & _).
    destruct (to_map_relabels _ _ _ _ _ Hmr dinucs_rev_NoDup) as (mr & Emr & _).
    destruct (to_map_relabels _ _ _ _ _ Hhf dinucs_NoDup) as (hf & Ehf & _).
    destruct (to_map_relabels _ _ _ _ _ Hhr dinucs_rev_NoDup) as (hr & Ehr & _).
    rewrite (mod_prob_stats_fmt_stranded_maps mps mf mr hf hr) by done. eauto. }
  unfold NanoporeMods.main, NanoporeModsFmt.main.
  case_decide; [by eauto|].
  destruct (cli11_parse_exit e); [by eauto|].
  destruct (hts_open_ok e); [|by eauto].
  destruct (sam_hdr_read_ok e); [|by eauto].
  cbn [negb]. rewrite Hloop, Hloop'. cbn [mbind option_bind].
  case_decide; [by eauto|].
  destruct (ofstream_ok e); [|by eauto]. cbn [negb].
  rewrite Hrc, Hrs. destruct stranded; by eauto.
Qed.

Lemma main_defined_witness :
  Forall (λ r : Z * bam1_t, aln_ok r.2) (sam_stream env_read_error) ∧
  is_Some (NanoporeMods.main env_read_error) ∧
  is_Some (NanoporeModsFmt.main false env_read_error).
Proof.
  assert (Forall (λ r : Z * bam1_t, aln_ok r.2) (sam_stream env_read_error)) as Hok.
  { unfold aln_ok, quals_ok. compute_done. }
  split; [exact Hok|].
  exact (main_defined false env_read_error Hok).
Defined.

(** C9.  Once the input and its header are read, let the read loop end
    with the status [read_status].  If it is below [-1], [main] of either
    program prints the diagnostic on the standard error and returns
    [EXIT_FAILURE], which is not zero: the output file is not opened and
    nothing is written.  And whenever [main] of either program writes a
    report, [read_status] is [-1]. *)
Theorem read_error_writes_no_report (stranded : bool) (e : run_env)
    (read_status : Z) (mps : mod_prob_stats) :
  2 ≤ argc e → cli11_parse_exit e = None →
  hts_open_ok e = true → sam_hdr_read_ok e = true →
  NanoporeModsFmt.read_loop (sam_stream e) mod_prob_stats_init = Some (read_status, mps) →
  (read_status < -1 →
     NanoporeMods.main e =
       Some ([Stderr "failed reading bam record"], Return EXIT_FAILURE) ∧
     NanoporeModsFmt.main stranded e =
       Some ([Stderr "failed reading bam record"], Return EXIT_FAILURE) ∧
     EXIT_FAILURE ≠ 0) ∧
  (∀ evs c r, NanoporeMods.main e = Some (evs, c) →
              WriteReport r ∈ evs → read_status = -1) ∧
  (∀ evs c r, NanoporeModsFmt.main stranded e = Some (evs, c) →
              WriteReport r ∈ evs → read_status = -1).
Proof.
  intros Hargc Hcli Hin Hhdr Hloop.
  pose proof (read_loop_status _ _ _ _ Hloop) as Hst.
  pose proof Hloop as Hloop'. rewrite <- read_loop_agree in Hloop'.
  rewrite (main_after_loop e read_status mps) by done.
  rewrite (main_fmt_after_loop stranded e read_status mps) by done.
  split; [|split].
  - intros Hlt. rewrite !decide_True by done. done.
  - intros evs c r Hmain Hin'. case_decide; [|lia].
    injection Hmain as <- <-. by apply list_elem_of_singleton in Hin'.
  - intros evs c r Hmain Hin'. case_decide; [|lia].
    injection Hmain as <- <-. by apply list_elem_of_singleton in Hin'.
Qed.

Lemma read_error_writes_no_report_witness :
  2 ≤ argc env_read_error ∧ cli11_parse_exit env_read_error = None ∧
  hts_open_ok env_read_error = true ∧ sam_hdr_read_ok env_read_error = true ∧
  NanoporeModsFmt.read_loop (sam_stream env_read_error) mod_prob_stats_init
    = Some (-2, stats_after_pair) ∧
  (-2 < -1 →
     NanoporeMods.main env_read_error =
       Some ([Stderr "failed reading bam record"], Return EXIT_FAILURE) ∧
     NanoporeModsFmt.main true env_read_error =
       Some ([Stderr "failed reading bam record"], Return EXIT_FAILURE) ∧
     EXIT_FAILURE ≠ 0) ∧
  (∀ evs c r, NanoporeMods.main env_read_error = Some (evs, c) →
              WriteReport r ∈ evs → -2 = -1) ∧
  (∀ evs c r, NanoporeModsFmt.main true env_read_error = Some (evs, c) →
              WriteReport r ∈ evs → -2 = -1).
Proof.
  assert (2 ≤ argc env_read_error) as H1 by (simpl; lia).
  assert (NanoporeModsFmt.read_loop (sam_stream env_read_error) mod_prob_stats_init
          = Some (-2, stats_after_pair)) as H5 by (vm_compute; reflexivity).
  split; [exact H1|]. split; [reflexivity|]. split; [reflexivity|].
  split; [reflexivity|]. split; [exact H5|].
  exact (read_error_writes_no_report true env_read_error (-2) stats_after_pair
           H1 eq_refl eq_refl eq_refl H5).
Defined.

(** A run that ends at the end of the file writes the report: in the
    collapsed layout, the first scenario of the specification. *)
Lemma run_to_eof_writes_report :
  ∃ r, NanoporeModsFmt.main false env_eof =
         Some ([OpenOutput "out.json"; WriteReport (NanoporeModsFmt.ReportCollapsed r)],
               Return EXIT_SUCCESS) ∧
       NanoporeModsFmt.Collapsed.methyl r !! "CG" ≫= (.!! 20%nat) = Some 1 ∧
       NanoporeModsFmt.Collapsed.hydroxy r !! "CG" ≫= (.!! 10%nat) = Some 1 ∧
       collapsed_total r = 2.
Proof.
  eexists. split; [vm_compute; reflexivity|].
  repeat split; vm_compute; reflexivity.
Qed.

(** ** Where the wrap-around shows *)

(** One call of [operator()] on a state whose counter
    [hydroxy_fwd[2][10]] holds the largest [std::uint64_t]: the forward
    read [A C G T A] with one site at offset 1 (qualities 10 and 20)
    takes the counter from [2^64 - 1] to 0. *)
Lemma counter_wraps_at_max :
  tables_shape stats_saturated ∧ tables_range stats_saturated ∧
  ∃ s', operator_call_of Formatted stats_saturated read_fwd_pair = Some s' ∧
        cell (hydroxy_fwd stats_saturated) 2 10 = Some (2 ^ 64 - 1) ∧
        cell (hydroxy_fwd s') 2 10 = Some 0.
Proof.
  split; [compute_done|]. split; [compute_done|].
  eexists. split; [vm_compute; reflexivity|].
  split; vm_compute; reflexivity.
Qed.

(** One entry of the collapsed map where the sum wraps: with [2^63] in
    [methyl_fwd[0][0]] and in [methyl_rev[3][0]] the map holds 0 at
    ["CA"][0], not [2^64]. *)
Lemma collapsed_entry_wraps :
  tables_shape stats_two_halves ∧ tables_range stats_two_halves ∧
  cell (methyl_fwd stats_two_halves) 0 0 = Some (2 ^ 63) ∧
  cell (methyl_rev stats_two_halves) 3 0 = Some (2 ^ 63) ∧
  ∃ r, NanoporeModsFmt.mod_prob_stats_fmt stats_two_halves = Some r ∧
       NanoporeModsFmt.Collapsed.methyl r !! "CA" ≫= (.!! 0%nat) = Some 0.
Proof.
  split; [compute_done|]. split; [compute_done|].
  split; [vm_compute; reflexivity|]. split; [vm_compute; reflexivity|].
  eexists. split; vm_compute; reflexivity.
Qed.

(** ** Long runs

    The states that streams of the two sample records reach from the
    initial state, for any number of records. *)

Lemma step_counting_fwd (x y : Z) :
  NanoporeModsFmt.operator_call (stats_counting x y) read_fwd_pair =
    Some (stats_counting (incr64 x) y).
Proof. reflexivity. Qed.

Lemma step_counting_rev (x y : Z) :
  NanoporeModsFmt.operator_call (stats_counting x y) read_rev_mirror =
    Some (stats_counting x (incr64 y)).
Proof. reflexivity. Qed.

Lemma step_init_fwd :
  NanoporeModsFmt.operator_call mod_prob_stats_init read_fwd_pair =
    Some (stats_counting 1 0).
Proof. reflexivity. Qed.

Lemma loop_counting_rev (m : nat) (x y : Z) :
  NanoporeModsFmt.read_loop (replicate m (0, read_rev_mirror)) (stats_counting x y) =
    Some (-1, stats_counting x (Nat.iter m incr64 y)).
Proof.
  revert y. induction m as [|m IH]; intros y; [reflexivity|].
  cbn [replicate NanoporeModsFmt.read_loop].
  rewrite decide_True by lia. rewrite step_counting_rev. cbn [mbind option_bind].
  rewrite IH. by rewrite Nat.iter_succ_r.
Qed.

Lemma loop_counting_fwd (n : nat) (rest : list (Z * bam1_t)) (x y : Z) :
  NanoporeModsFmt.read_loop (replicate n (0, read_fwd_pair) ++ rest) (stats_counting x y) =
    NanoporeModsFmt.read_loop rest (stats_counting (Nat.iter n incr64 x) y).
Proof.
  revert x. induction n as [|n IH]; intros x; [reflexivity|].
  cbn [replicate app NanoporeModsFmt.read_loop].
  rewrite decide_True by lia. rewrite step_counting_fwd. cbn [mbind option_bind].
  rewrite IH. by rewrite Nat.iter_succ_r.
Qed.

Lemma iter_incr64_mod (n : nat) (x : Z) :
  0 ≤ x < uint64_modulus →
  Nat.iter n incr64 x = (x + Z.of_nat n) mod uint64_modulus.
Proof.
  intros Hx. induction n as [|n IH].
  - simpl. rewrite Z.add_0_r. symmetry. by apply Z.mod_small.
  - rewrite Nat.iter_succ, IH. unfold incr64.
    rewrite Zplus_mod_idemp_l. f_equal. lia.
Qed.

(** From the initial state, [x > 0] forward records and [y] reverse
    records, fewer than [2^64] of each, leave [x] and [y] in the counters
    they increment. *)
Lemma run_of_pairs (x y : Z) :
  0 < x < uint64_modulus → 0 ≤ y < uint64_modulus →
  read_loop_of Formatted (stream_of_pairs (Z.to_nat x) (Z.to_nat y))
    mod_prob_stats_init = Some (-1, stats_counting x y).
Proof.
  intros Hx Hy. destruct (Z.to_nat x) as [|n] eqn:En; [lia|].
  unfold read_loop_of, stream_of_pairs.
  cbn [replicate app NanoporeModsFmt.read_loop].
  rewrite decide_True by lia. rewrite step_init_fwd. cbn [mbind option_bind].
  rewrite loop_counting_fwd, loop_counting_rev.
  rewrite !iter_incr64_mod by (unfold uint64_modulus; lia).
  rewrite !Z.mod_small by lia.
  do 3 f_equal; lia.
Qed.

(** C7 as stated fails in a run from the initial state: after [2^64 - 1]
    records [read_fwd_pair] (forward read [A C G T A], one site at offset
    1 with qualities 10 and 20) the counter [hydroxy_fwd[2][10]] holds
    [2^64 - 1], and one more such record takes it to 0. *)
Lemma counter_wraps_in_a_run :
  ∃ s s',
    read_loop_of Formatted (stream_of_pairs (Z.to_nat (2 ^ 64 - 1)) (Z.to_nat 0))
      mod_prob_stats_init = Some (-1, s) ∧
    cell (hydroxy_fwd s) 2 10 = Some (2 ^ 64 - 1) ∧
    operator_call_of Formatted s read_fwd_pair = Some s' ∧
    cell (hydroxy_fwd s') 2 10 = Some 0.
Proof.
  exists (stats_counting (2 ^ 64 - 1) 0), (stats_counting 0 0).
  split.
  { apply (run_of_pairs (2 ^ 64 - 1) 0); closed_range. }
  split; [reflexivity|]. split; [|reflexivity].
  vm_compute. reflexivity.
Qed.

(** C4 as stated fails after a run from the initial state: [2^63]
    records [read_fwd_pair] and [2^63] records [read_rev_mirror] leave
    [2^63] in [methyl_fwd[2][20]], [hydroxy_fwd[2][10]],
    [methyl_rev[1][20]] and [hydroxy_rev[1][10]]; the raw counters add up
    to [2^65] and the collapsed ones, whose "CG" entries wrap, to 0. *)
Lemma collapse_loses_counts_in_a_run :
  ∃ s r,
    read_loop_of Formatted (stream_of_pairs (Z.to_nat (2 ^ 63)) (Z.to_nat (2 ^ 63)))
      mod_prob_stats_init = Some (-1, s) ∧
    NanoporeModsFmt.mod_prob_stats_fmt s = Some r ∧
    raw_total s = 2 ^ 65 ∧
    collapsed_total r = 0.
Proof.
  exists (stats_counting (2 ^ 63) (2 ^ 63)). eexists.
  split.
  { apply run_of_pairs; closed_range. }
  split; [vm_compute; reflexivity|].
  split; vm_compute; reflexivity.
Qed.

(** C5 as stated fails after the same run: row 2 of [methyl_fwd] and row
    1 of [methyl_rev] both hold [2^63] at quality 20, and the collapsed
    map holds 0 at ["CG"][20]. *)
Lemma collapsed_entry_wraps_in_a_run :
  ∃ s r,
    read_loop_of Formatted (stream_of_pairs (Z.to_nat (2 ^ 63)) (Z.to_nat (2 ^ 63)))
      mod_prob_stats_init = Some (-1, s) ∧
    NanoporeModsFmt.dinucs !! 2%nat = Some "CG" ∧
    cell (methyl_fwd s) 2 20 = Some (2 ^ 63) ∧
    cell (methyl_rev s) (3 - 2) 20 = Some (2 ^ 63) ∧
    NanoporeModsFmt.mod_prob_stats_fmt s = Some r ∧
    NanoporeModsFmt.Collapsed.methyl r !! "CG" ≫= (.!! 20%nat) = Some 0.
Proof.
  exists (stats_counting (2 ^ 63) (2 ^ 63)). eexists.
  split.
  { apply run_of_pairs; closed_range. }
  split; [reflexivity|]. split; [reflexivity|]. split; [reflexivity|].
  split; vm_compute; reflexivity.
Qed.

(** ** What a record counts, exactly *)

Lemma counted_at_spec (id : table_id) (c q : nat) (aln : bam1_t) (pos : Z)
    (h m : hts_base_mod) :
  counted_at id c q aln pos h m = true ↔
  table_is_rev id = bam_is_rev aln ∧
  ∃ enc, site_context aln pos = Some enc ∧ enc = Z.of_nat c ∧
         qual (if table_is_methyl id then m else h) = Z.of_nat q.
Proof.
  unfold counted_at. rewrite andb_true_iff, bool_decide_eq_true.
  destruct (site_context aln pos) as [enc|].
  - rewrite andb_true_iff, !bool_decide_eq_true. split.
    + intros (? & ? & ?). eauto.
    + intros (? & enc' & [= <-] & ? & ?). done.
  - split; [intros [_ [=]] | intros (_ & enc' & [=] & _)].
Qed.

(** One increment of a table, cell by cell, with indices as naturals. *)
Lemma cell_table_incr_nat (t t' : list (list Z)) (enc qv : Z) (c q : nat) :
  table_incr t enc qv = Some t' →
  cell t' c q =
    Nat.iter (Nat.b2n (bool_decide (enc = Z.of_nat c) && bool_decide (qv = Z.of_nat q)))
             incr64 <$> cell t c q.
Proof.
  intros H. rewrite (cell_table_incr _ _ _ _ c q H).
  apply table_incr_Some in H as (h & Hc & _ & Hq & _).
  destruct (decide (c = Z.to_nat enc ∧ q = Z.to_nat qv)) as [[-> ->]|Hd].
  - rewrite !bool_decide_eq_true_2 by lia. done.
  - destruct (decide (enc = Z.of_nat c)) as [->|?].
    + rewrite bool_decide_eq_true_2 by done.
      rewrite bool_decide_eq_false_2 by (intros ->; apply Hd; lia).
      by destruct (cell t c q).
    + rewrite bool_decide_eq_false_2 by done. by destruct (cell t c q).
Qed.

Lemma cell_kept (t : list (list Z)) (c q : nat) :
  cell t c q = Nat.iter 0 incr64 <$> cell t c q.
Proof. by destruct (cell t c q). Qed.

(** The body of the loop, cell by cell: a counter is incremented when the
    site is counted at it, and kept otherwise. *)
Lemma site_body_exact (aln : bam1_t) (n pos : Z) (s s' : mod_prob_stats)
    (h m : hts_base_mod) (id : table_id) (c q : nat) :
  n > 0 →
  mods s !! 0%nat = Some h → mods s !! 1%nat = Some m →
  NanoporeModsFmt.site_body aln n pos s = Some s' →
  mods s' = mods s ∧
  cell (table_of id s') c q =
    Nat.iter (Nat.b2n (counted_at id c q aln pos h m)) incr64
      <$> cell (table_of id s) c q.
Proof.
  intros Hn Hh Hm. unfold NanoporeModsFmt.site_body, counted_at, site_context.
  rewrite decide_False by (by apply pairing_guard_is_dead).
  destruct (NanoporeModsFmt.other_nuc aln pos) as [nuc|]; [|discriminate].
  cbn [mbind option_bind].
  destruct (NanoporeModsFmt.encode (to_uint8 nuc)) as [enc|]; [|discriminate].
  cbn [mbind option_bind].
  case_decide as Henc.
  { intros [= <-]. rewrite andb_false_r. split; [done|apply cell_kept]. }
  change (Z.to_nat NanoporeModsFmt.h_idx) with 0%nat.
  change (Z.to_nat NanoporeModsFmt.m_idx) with 1%nat.
  rewrite Hh, Hm. cbn [mbind option_bind].
  destruct (bam_is_rev aln).
  - destruct (table_incr (hydroxy_rev s) enc (qual h)) as [hr|] eqn:Ehr;
      [|discriminate]. cbn [mbind option_bind].
    destruct (table_incr (methyl_rev s) enc (qual m)) as [mr|] eqn:Emr;
      [|discriminate]. cbn [mbind option_bind].
    intros [= <-]. split; [done|].
    destruct id; cbn [table_of table_is_rev table_is_methyl mods
                      methyl_fwd methyl_rev hydroxy_fwd hydroxy_rev].
    + rewrite bool_decide_eq_false_2 by done. apply cell_kept.
    + rewrite bool_decide_eq_true_2 by done.
      apply (cell_table_incr_nat _ _ _ _ c q Emr).
    + rewrite bool_decide_eq_false_2 by done. apply cell_kept.
    + rewrite bool_decide_eq_true_2 by done.
      apply (cell_table_incr_nat _ _ _ _ c q Ehr).
  - destruct (table_incr (hydroxy_fwd s) enc (qual h)) as [hf|] eqn:Ehf;
      [|discriminate]. cbn [mbind option_bind].
    destruct (table_incr (methyl_fwd s) enc (qual m)) as [mf|] eqn:Emf;
      [|discriminate]. cbn [mbind option_bind].
    intros [= <-]. split; [done|].
    destruct id; cbn [table_of table_is_rev table_is_methyl mods
                      methyl_fwd methyl_rev hydroxy_fwd hydroxy_rev].
    + rewrite bool_decide_eq_true_2 by done.
      apply (cell_table_incr_nat _ _ _ _ c q Emf).
    + rewrite bool_decide_eq_false_2 by done. apply cell_kept.
    + rewrite bool_decide_eq_true_2 by done.
      apply (cell_table_incr_nat _ _ _ _ c q Ehf).
    + rewrite bool_decide_eq_false_2 by done. apply cell_kept.
Qed.

Lemma table_of_set_mods (id : table_id) (d : list hts_base_mod) (s : mod_prob_stats) :
  table_of id (set_mods d s) = table_of id s.
Proof. by destruct id. Qed.

Lemma iter_fmap_add (a b : nat) (o : option Z) :
  Nat.iter a incr64 <$> (Nat.iter b incr64 <$> o) = Nat.iter (b + a) incr64 <$> o.
Proof.
  destruct o as [x|]; [|done]. simpl. f_equal.
  by rewrite Nat.add_comm, Nat.iter_add.
Qed.

(** The loop over sites that all report both kinds, cell by cell. *)
Lemma basemod_loop_exact (aln : bam1_t) (pending : list (Z * list hts_base_mod))
    (s s' : mod_prob_stats) (id : table_id) (c q : nat) :
  Forall (λ site : Z * list hts_base_mod, (2 ≤ length site.2)%nat) pending →
  NanoporeModsFmt.basemod_loop aln pending s = Some s' →
  cell (table_of id s') c q =
    Nat.iter (sum_list_with (λ site, Nat.b2n (hits id c q aln site)) pending) incr64
      <$> cell (table_of id s) c q.
Proof.
  revert s. induction pending as [|[pos found] rest IH]; intros s Hp H.
  - injection H as <-. apply cell_kept.
  - apply Forall_cons in Hp as [Hlen Hrest].
    destruct found as [|h [|m found]]; [simpl in Hlen; lia..|].
    cbn [NanoporeModsFmt.basemod_loop] in H.
    rewrite bam_next_basemod_spec in H. cbv zeta in H.
    rewrite decide_True in H by (simpl; lia).
    match type of H with
    | NanoporeModsFmt.site_body _ ?n ?p ?s0 ≫= _ = _ =>
        destruct (NanoporeModsFmt.site_body aln n p s0) as [s1|] eqn:Hb;
          [|discriminate]
    end.
    cbn [mbind option_bind] in H.
    apply (site_body_exact _ _ _ _ _ h m id c q) in Hb as [_ Hb];
      [|simpl; lia|reflexivity|reflexivity].
    rewrite table_of_set_mods in Hb.
    rewrite (IH _ Hrest H), Hb, iter_fmap_add. reflexivity.
Qed.

(** X2.  A record whose sites all report both kinds, processed by
    [operator()] of either program: every counter of the four tables is
    its old value after as many increments as the record has sites counted
    at it, that is sites on the strand of the table whose neighbour
    encodes to the row and whose quality (of [mods[0]] for a hydroxy
    table, of [mods[1]] for a methyl table) is the column. *)
Theorem record_counts_exactly (v : variant) (s s' : mod_prob_stats) (aln : bam1_t) :
  sites_paired aln →
  operator_call_of v s aln = Some s' →
  ∀ id c q,
    cell (table_of id s') c q =
      Nat.iter (count_hits id c q aln) incr64 <$> cell (table_of id s) c q.
Proof.
  intros Hp Hs' id c q. rewrite operator_call_of_eq in Hs'.
  exact (basemod_loop_exact _ _ _ _ id c q Hp Hs').
Qed.

Lemma record_counts_exactly_witness :
  sites_paired read_fwd_pair ∧
  operator_call_of Raw mod_prob_stats_init read_fwd_pair = Some stats_after_pair ∧
  ∀ id c q,
    cell (table_of id stats_after_pair) c q =
      Nat.iter (count_hits id c q read_fwd_pair) incr64
        <$> cell (table_of id mod_prob_stats_init) c q.
Proof.
  assert (sites_paired read_fwd_pair) as Hp by (unfold sites_paired; compute_done).
  assert (operator_call_of Raw mod_prob_stats_init read_fwd_pair
          = Some stats_after_pair) as Hs by (vm_compute; reflexivity).
  split; [exact Hp|]. split; [exact Hs|].
  exact (record_counts_exactly Raw _ _ _ Hp Hs).
Defined.

(** ** What a run counts *)

Lemma read_loop_stream_exact (records : list bam1_t) (s s' : mod_prob_stats)
    (st : Z) (id : table_id) (c q : nat) :
  Forall sites_paired records →
  NanoporeModsFmt.read_loop (stream_of records) s = Some (st, s') →
  st = -1 ∧
  cell (table_of id s') c q =
    Nat.iter (count_hits_all id c q records) incr64 <$> cell (table_of id s) c q.
Proof.
  revert s. induction records as [|aln rest IH]; intros s Hp H.
  - injection H as <- <-. split; [done|apply cell_kept].
  - apply Forall_cons in Hp as [Haln Hrest].
    cbn [stream_of fmap list_fmap NanoporeModsFmt.read_loop] in H.
    rewrite decide_True in H by lia.
    destruct (NanoporeModsFmt.operator_call s aln) as [s1|] eqn:Hcall;
      [|discriminate].
    cbn [mbind option_bind] in H.
    destruct (IH _ Hrest H) as [-> E]. split; [done|].
    rewrite E, (basemod_loop_exact _ _ _ _ id c q Haln Hcall), iter_fmap_add.
    reflexivity.
Qed.

Lemma cell_init_Some (id : table_id) (c q : nat) :
  (c < 4)%nat → (q < 256)%nat →
  cell (table_of id mod_prob_stats_init) c q = Some 0.
Proof.
  intros Hc Hq.
  assert (cell zero_table c q = Some 0) as H.
  { unfold cell, zero_table.
    rewrite (lookup_replicate_2 (Z.to_nat 4)) by (simpl; lia).
    cbn [mbind option_bind].
    apply lookup_replicate_2. change (Z.to_nat n_values) with 256%nat. lia. }
  by destruct id.
Qed.

(** X3.  A run of either program from the initial state over records
    that are all read with status 0 and whose sites all report both
    kinds ends at the end of the file, and every counter holds, modulo
    [2^64], the number of sites of the stream counted at it. *)
Theorem run_counts_exactly (v : variant) (records : list bam1_t)
    (st : Z) (s : mod_prob_stats) :
  Forall sites_paired records →
  read_loop_of v (stream_of records) mod_prob_stats_init = Some (st, s) →
  st = -1 ∧
  ∀ id c q, (c < 4)%nat → (q < 256)%nat →
    cell (table_of id s) c q =
      Some (Z.of_nat (count_hits_all id c q records) mod uint64_modulus).
Proof.
  intros Hp Hrun. rewrite read_loop_of_eq in Hrun.
  split; [exact (proj1 (read_loop_stream_exact _ _ _ _ MethylFwd 0 0 Hp Hrun))|].
  intros id c q Hc Hq.
  destruct (read_loop_stream_exact _ _ _ _ id c q Hp Hrun) as [_ ->].
  rewrite (cell_init_Some id c q Hc Hq). simpl. f_equal.
  rewrite iter_incr64_mod by (vm_compute; split; [discriminate|reflexivity]).
  f_equal.
Qed.

Lemma run_counts_exactly_witness :
  Forall sites_paired [read_fwd_pair; read_rev_mirror; read_fwd_pair] ∧
  read_loop_of Formatted (stream_of [read_fwd_pair; read_rev_mirror; read_fwd_pair])
    mod_prob_stats_init = Some (-1, stats_counting 2 1) ∧
  -1 = -1 ∧
  ∀ id c q, (c < 4)%nat → (q < 256)%nat →
    cell (table_of id (stats_counting 2 1)) c q =
      Some (Z.of_nat (count_hits_all id c q
                        [read_fwd_pair; read_rev_mirror; read_fwd_pair])
            mod uint64_modulus).
Proof.
  assert (Forall sites_paired [read_fwd_pair; read_rev_mirror; read_fwd_pair])
    as Hp by (unfold sites_paired; compute_done).
  assert (read_loop_of Formatted
            (stream_of [read_fwd_pair; read_rev_mirror; read_fwd_pair])
            mod_prob_stats_init = Some (-1, stats_counting 2 1))
    as Hrun by (vm_compute; reflexivity).
  split; [exact Hp|]. split; [exact Hrun|].
  exact (run_counts_exactly Formatted _ _ _ Hp Hrun).
Defined.

(** ** The order of the records does not matter *)

Lemma site_body_shape (aln : bam1_t) (n pos : Z) (s s' : mod_prob_stats) :
  NanoporeModsFmt.site_body aln n pos s = Some s' →
  tables_shape s → tables_shape s'.
Proof.
  unfold NanoporeModsFmt.site_body. intros H.
  case_decide; [by injection H as <-|].
  destruct (NanoporeModsFmt.other_nuc aln pos) as [nuc|]; [|discriminate].
  cbn [mbind option_bind] in H.
  destruct (NanoporeModsFmt.encode (to_uint8 nuc)) as [enc|]; [|discriminate].
  cbn [mbind option_bind] in H.
  case_decide; [by injection H as <-|].
  destruct (mods s !! Z.to_nat NanoporeModsFmt.h_idx) as [h|]; [|discriminate].
  cbn [mbind option_bind] in H.
  destruct (mods s !! Z.to_nat NanoporeModsFmt.m_idx) as [m|]; [|discriminate].
  cbn [mbind option_bind] in H.
  rewrite !tables_shape_iff. intros (Hmf & Hmr & Hhf & Hhr).
  destruct (bam_is_rev aln).
  - destruct (table_incr (hydroxy_rev s) enc (qual h)) as [hr|] eqn:Ehr;
      [|discriminate]. cbn [mbind option_bind] in H.
    destruct (table_incr (methyl_rev s) enc (qual m)) as [mr|] eqn:Emr;
      [|discriminate]. cbn [mbind option_bind] in H.
    injection H as <-. simpl. eauto 6 using table_incr_shape.
  - destruct (table_incr (hydroxy_fwd s) enc (qual h)) as [hf|] eqn:Ehf;
      [|discriminate]. cbn [mbind option_bind] in H.
    destruct (table_incr (methyl_fwd s) enc (qual m)) as [mf|] eqn:Emf;
      [|discriminate]. cbn [mbind option_bind] in H.
    injection H as <-. simpl. eauto 6 using table_incr_shape.
Qed.

Lemma basemod_loop_shape (aln : bam1_t) (pending : list (Z * list hts_base_mod))
    (s s' : mod_prob_stats) :
  NanoporeModsFmt.basemod_loop aln pending s = Some s' →
  tables_shape s → tables_shape s'.
Proof.
  revert s. induction pending as [|site rest IH]; intros s H Hs.
  - by injection H as <-.
  - cbn [NanoporeModsFmt.basemod_loop] in H.
    destruct (bam_next_basemod site (mods s)) as [[n d] pos].
    assert (tables_shape (set_mods d s)) as Hs1 by done.
    case_decide; [|by injection H as <-].
    destruct (NanoporeModsFmt.site_body aln n pos (set_mods d s)) as [s1|] eqn:Hb;
      [|discriminate]. cbn [mbind option_bind] in H.
    eauto using site_body_shape.
Qed.

Lemma read_loop_shape (stream : list (Z * bam1_t)) (s s' : mod_prob_stats) (st : Z) :
  NanoporeModsFmt.read_loop stream s = Some (st, s') →
  tables_shape s → tables_shape s'.
Proof.
  revert s. induction stream as [|[st0 aln] rest IH]; intros s H Hs.
  - by injection H as <- <-.
  - cbn [NanoporeModsFmt.read_loop] in H. case_decide; [|by injection H as <- <-].
    destruct (NanoporeModsFmt.operator_call s aln) as [s1|] eqn:Hcall;
      [|discriminate]. cbn [mbind option_bind] in H.
    eauto using basemod_loop_shape.
Qed.

(** Two tables of the declared sizes with the same counters are equal. *)
Lemma table_eq_of_cells (t t' : list (list Z)) :
  table_shape t → table_shape t' →
  (∀ c q, (c < 4)%nat → (q < 256)%nat → cell t c q = cell t' c q) →
  t = t'.
Proof.
  intros [Hlen Hrows] [Hlen' Hrows'] Hcells.
  apply (list_eq_same_length _ _ 4%nat); [done|done|].
  intros c h h' Hc Hh Hh'.
  rewrite Forall_lookup in Hrows. rewrite Forall_lookup in Hrows'.
  pose proof (Hrows _ _ Hh) as Lh. pose proof (Hrows' _ _ Hh') as Lh'.
  simpl in Lh, Lh'.
  apply (list_eq_same_length _ _ 256%nat); [done|done|].
  intros q x x' Hq Hx Hx'.
  specialize (Hcells c q Hc Hq). unfold cell in Hcells.
  rewrite Hh, Hh' in Hcells. cbn [mbind option_bind] in Hcells.
  congruence.
Qed.

(** X4.  Two runs of either program from the initial state over the
    same records in two different orders (all read with status 0, all
    their sites reporting both kinds) leave the same four tables. *)
Theorem record_order_is_irrelevant (v : variant) (records1 records2 : list bam1_t)
    (st1 st2 : Z) (s1 s2 : mod_prob_stats) :
  records1 ≡ₚ records2 →
  Forall sites_paired records1 →
  read_loop_of v (stream_of records1) mod_prob_stats_init = Some (st1, s1) →
  read_loop_of v (stream_of records2) mod_prob_stats_init = Some (st2, s2) →
  tables s1 = tables s2.
Proof.
  intros Hperm Hp1 H1 H2. rewrite read_loop_of_eq in H1, H2.
  assert (Forall sites_paired records2) as Hp2 by (by rewrite <- Hperm).
  pose proof (read_loop_shape _ _ _ _ H1
                (proj2 (proj2 mod_prob_stats_init_ok))) as Hs1.
  pose proof (read_loop_shape _ _ _ _ H2
                (proj2 (proj2 mod_prob_stats_init_ok))) as Hs2.
  apply tables_shape_iff in Hs1 as (? & ? & ? & ?).
  apply tables_shape_iff in Hs2 as (? & ? & ? & ?).
  assert (∀ id, table_of id s1 = table_of id s2) as Heq.
  { intros id. apply table_eq_of_cells; [by destruct id|by destruct id|].
    intros c q Hc Hq.
    destruct (read_loop_stream_exact _ _ _ _ id c q Hp1 H1) as [_ ->].
    destruct (read_loop_stream_exact _ _ _ _ id c q Hp2 H2) as [_ ->].
    unfold count_hits_all.
    by rewrite (sum_list_with_Permutation_proper (count_hits id c q) _ _ Hperm). }
  pose proof (Heq MethylFwd) as E1. pose proof (Heq MethylRev) as E2.
  pose proof (Heq HydroxyFwd) as E3. pose proof (Heq HydroxyRev) as E4.
  simpl in E1, E2, E3, E4. unfold tables. congruence.
Qed.

Lemma record_order_is_irrelevant_witness :
  [read_fwd_pair; read_rev_mirror] ≡ₚ [read_rev_mirror; read_fwd_pair] ∧
  Forall sites_paired [read_fwd_pair; read_rev_mirror] ∧
  read_loop_of Raw (stream_of [read_fwd_pair; read_rev_mirror])
    mod_prob_stats_init = Some (-1, stats_counting 1 1) ∧
  read_loop_of Raw (stream_of [read_rev_mirror; read_fwd_pair])
    mod_prob_stats_init = Some (-1, stats_counting 1 1) ∧
  tables (stats_counting 1 1) = tables (stats_counting 1 1).
Proof.
  assert ([read_fwd_pair; read_rev_mirror] ≡ₚ [read_rev_mirror; read_fwd_pair])
    as Hperm by apply Permutation_swap.
  assert (Forall sites_paired [read_fwd_pair; read_rev_mirror])
    as Hp by (unfold sites_paired; compute_done).
  assert (read_loop_of Raw (stream_of [read_fwd_pair; read_rev_mirror])
            mod_prob_stats_init = Some (-1, stats_counting 1 1))
    as H1 by (vm_compute; reflexivity).
  assert (read_loop_of Raw (stream_of [read_rev_mirror; read_fwd_pair])
            mod_prob_stats_init = Some (-1, stats_counting 1 1))
    as H2 by (vm_compute; reflexivity).
  split; [exact Hperm|]. split; [exact Hp|]. split; [exact H1|]. split; [exact H2|].
  exact (record_order_is_irrelevant Raw _ _ _ _ _ _ Hperm Hp H1 H2).
Defined.

(** ** The two kinds are counted together *)

Lemma hist_total_alter_incr64 (h : list Z) (i : nat) :
  (i < length h)%nat →
  hist_total (alter incr64 i h) mod uint64_modulus =
    (hist_total h + 1) mod uint64_modulus.
Proof.
  revert i. induction h as [|x h IH]; intros i Hi; [simpl in Hi; lia|].
  destruct i as [|i]; unfold hist_total in *; simpl.
  - unfold incr64. rewrite Zplus_mod_idemp_l. f_equal. lia.
  - simpl in Hi. change (list_alter incr64 i h) with (alter incr64 i h).
    rewrite <- (Zplus_mod_idemp_r (foldr Z.add 0 (alter incr64 i h))).
    rewrite IH by lia. rewrite Zplus_mod_idemp_r. f_equal. lia.
Qed.

Lemma row_totals_table_incr (t t' : list (list Z)) (enc q : Z) :
  table_incr t enc q = Some t' →
  row_totals t' =
    alter (λ z, (z + 1) mod uint64_modulus) (Z.to_nat enc) (row_totals t).
Proof.
  intros (h & Hc & Hh & Hq & ->)%table_incr_Some. unfold row_totals.
  rewrite list_fmap_insert. apply list_eq. intros i.
  destruct (decide (i = Z.to_nat enc)) as [->|Hne].
  - rewrite list_lookup_insert_eq
      by (rewrite length_fmap; by eapply lookup_lt_Some).
    rewrite list_lookup_alter_eq, list_lookup_fmap, Hh. simpl. f_equal.
    rewrite hist_total_alter_incr64 by lia.
    by rewrite Zplus_mod_idemp_l.
  - by rewrite list_lookup_insert_ne, list_lookup_alter_ne.
Qed.

Lemma site_body_balanced (aln : bam1_t) (n pos : Z) (s s' : mod_prob_stats) :
  NanoporeModsFmt.site_body aln n pos s = Some s' →
  kinds_balanced s → kinds_balanced s'.
Proof.
  unfold NanoporeModsFmt.site_body. intros H [Hf Hr].
  case_decide; [by injection H as <-|].
  destruct (NanoporeModsFmt.other_nuc aln pos) as [nuc|]; [|discriminate].
  cbn [mbind option_bind] in H.
  destruct (NanoporeModsFmt.encode (to_uint8 nuc)) as [enc|]; [|discriminate].
  cbn [mbind option_bind] in H.
  case_decide; [by injection H as <-|].
  destruct (mods s !! Z.to_nat NanoporeModsFmt.h_idx) as [h|]; [|discriminate].
  cbn [mbind option_bind] in H.
  destruct (mods s !! Z.to_nat NanoporeModsFmt.m_idx) as [m|]; [|discriminate].
  cbn [mbind option_bind] in H.
  destruct (bam_is_rev aln).
  - destruct (table_incr (hydroxy_rev s) enc (qual h)) as [hr|] eqn:Ehr;
      [|discriminate]. cbn [mbind option_bind] in H.
    destruct (table_incr (methyl_rev s) enc (qual m)) as [mr|] eqn:Emr;
      [|discriminate]. cbn [mbind option_bind] in H.
    injection H as <-. split; [exact Hf|]. simpl.
    rewrite (row_totals_table_incr _ _ _ _ Ehr), (row_totals_table_incr _ _ _ _ Emr).
    by rewrite Hr.
  - destruct (table_incr (hydroxy_fwd s) enc (qual h)) as [hf|] eqn:Ehf;
      [|discriminate]. cbn [mbind option_bind] in H.
    destruct (table_incr (methyl_fwd s) enc (qual m)) as [mf|] eqn:Emf;
      [|discriminate]. cbn [mbind option_bind] in H.
    injection H as <-. split; [|exact Hr]. simpl.
    rewrite (row_totals_table_incr _ _ _ _ Ehf), (row_totals_table_incr _ _ _ _ Emf).
    by rewrite Hf.
Qed.

Lemma basemod_loop_balanced (aln : bam1_t) (pending : list (Z * list hts_base_mod))
    (s s' : mod_prob_stats) :
  NanoporeModsFmt.basemod_loop aln pending s = Some s' →
  kinds_balanced s → kinds_balanced s'.
Proof.
  revert s. induction pending as [|site rest IH]; intros s H Hs.
  - by injection H as <-.
  - cbn [NanoporeModsFmt.basemod_loop] in H.
    destruct (bam_next_basemod site (mods s)) as [[n d] pos].
    assert (kinds_balanced (set_mods d s)) as Hs1 by done.
    case_decide; [|by injection H as <-].
    destruct (NanoporeModsFmt.site_body aln n pos (set_mods d s)) as [s1|] eqn:Hb;
      [|discriminate]. cbn [mbind option_bind] in H.
    eauto using site_body_balanced.
Qed.

(** X5.  In either program the read loop keeps the two kinds balanced:
    if, on each strand, every row of the hydroxy table and the same row
    of the methyl table have the same total modulo [2^64] before the
    loop, they have after it, whatever the records (sites with a single
    kind included).  The initial state is balanced, so every state of a
    run is. *)
Theorem kinds_stay_balanced (v : variant) (stream : list (Z * bam1_t))
    (s s' : mod_prob_stats) (st : Z) :
  kinds_balanced s →
  read_loop_of v stream s = Some (st, s') →
  kinds_balanced mod_prob_stats_init ∧ kinds_balanced s'.
Proof.
  intros Hs H. split; [done|]. rewrite read_loop_of_eq in H.
  revert s Hs H. induction stream as [|[st0 aln] rest IH]; intros s Hs H.
  - by injection H as <- <-.
  - cbn [NanoporeModsFmt.read_loop] in H. case_decide; [|by injection H as <- <-].
    destruct (NanoporeModsFmt.operator_call s aln) as [s1|] eqn:Hcall;
      [|discriminate]. cbn [mbind option_bind] in H.
    eauto using basemod_loop_balanced.
Qed.

Lemma kinds_stay_balanced_witness :
  kinds_balanced mod_prob_stats_init ∧
  read_loop_of Formatted [(0, read_fwd_single)] mod_prob_stats_init
    = Some (-1, stats_after_single) ∧
  kinds_balanced mod_prob_stats_init ∧ kinds_balanced stats_after_single.
Proof.
  assert (kinds_balanced mod_prob_stats_init) as Hs by done.
  assert (read_loop_of Formatted [(0, read_fwd_single)] mod_prob_stats_init
          = Some (-1, stats_after_single)) as H by (vm_compute; reflexivity).
  split; [exact Hs|]. split; [exact H|].
  exact (kinds_stay_balanced Formatted _ _ _ _ Hs H).
Defined.

(** ** A site with a single kind, in general *)

Lemma basemod_loop_of_eq (v : variant) (aln : bam1_t)
    (pending : list (Z * list hts_base_mod)) (s : mod_prob_stats) :
  basemod_loop_of v aln pending s = NanoporeModsFmt.basemod_loop aln pending s.
Proof. destruct v; [apply basemod_loop_agree | reflexivity]. Qed.

(** X6.  Wherever it comes in a record, a site that reports a single
    modification [h] is counted with the entry [mods[1]] that the scratch
    array held before it, [m_old]: the loop goes on from a state whose
    scratch array has [h] in front, and in which a counter is incremented
    exactly when the site is counted at it with the pair [h], [m_old]
    (hydroxy tables at the quality of [h], methyl tables at the quality
    of [m_old]). *)
Theorem single_kind_site_uses_stale_entry (v : variant) (aln : bam1_t) (pos : Z)
    (h m_old : hts_base_mod) (rest : list (Z * list hts_base_mod))
    (s s' : mod_prob_stats) :
  mods s !! 1%nat = Some m_old →
  basemod_loop_of v aln ((pos, [h]) :: rest) s = Some s' →
  ∃ s1, basemod_loop_of v aln rest s1 = Some s' ∧
        mods s1 = h :: drop 1 (mods s) ∧
        ∀ id c q,
          cell (table_of id s1) c q =
            Nat.iter (Nat.b2n (counted_at id c q aln pos h m_old)) incr64
              <$> cell (table_of id s) c q.
Proof.
  rewrite !basemod_loop_of_eq. intros Hm H.
  cbn [NanoporeModsFmt.basemod_loop] in H.
  rewrite bam_next_basemod_spec in H. cbv zeta in H.
  rewrite decide_True in H by (simpl; lia).
  change (take (Z.to_nat max_mods) (pos, [h]).2 ++
          drop (length (take (Z.to_nat max_mods) (pos, [h]).2)) (mods s))
    with (h :: drop 1 (mods s)) in H.
  match type of H with
  | NanoporeModsFmt.site_body _ ?n ?p ?s0 ≫= _ = _ =>
      destruct (NanoporeModsFmt.site_body aln n p s0) as [s1|] eqn:Hb;
        [|discriminate]
  end.
  cbn [mbind option_bind] in H.
  exists s1. split; [by rewrite basemod_loop_of_eq|].
  assert (mods (set_mods (h :: drop 1 (mods s)) s) !! 1%nat = Some m_old) as Hm1.
  { cbn [set_mods mods]. change ((h :: drop 1 (mods s)) !! 1%nat)
      with (drop 1 (mods s) !! 0%nat).
    by rewrite lookup_drop. }
  split.
  - by apply (site_body_exact _ _ _ _ _ h m_old MethylFwd 0 0) in Hb as [-> _];
      [|simpl; lia|reflexivity|exact Hm1].
  - intros id c q.
    apply (site_body_exact _ _ _ _ _ h m_old id c q) in Hb as [_ ->];
      [|simpl; lia|reflexivity|exact Hm1].
    by rewrite table_of_set_mods.
Qed.

Lemma single_kind_site_uses_stale_entry_witness :
  mods stats_after_pair !! 1%nat = Some (call 20) ∧
  basemod_loop_of Raw read_fwd_single [(1, [call 10])] stats_after_pair
    = Some {| mods := [call 10; call 20] ++ replicate 8 hts_base_mod_zero;
              methyl_fwd := table_with 2 20 2;
              methyl_rev := zero_table;
              hydroxy_fwd := table_with 2 10 2;
              hydroxy_rev := zero_table |} ∧
  ∃ s1, basemod_loop_of Raw read_fwd_single [] s1
          = Some {| mods := [call 10; call 20] ++ replicate 8 hts_base_mod_zero;
                    methyl_fwd := table_with 2 20 2;
                    methyl_rev := zero_table;
                    hydroxy_fwd := table_with 2 10 2;
                    hydroxy_rev := zero_table |} ∧
        mods s1 = call 10 :: drop 1 (mods stats_after_pair) ∧
        ∀ id c q,
          cell (table_of id s1) c q =
            Nat.iter (Nat.b2n (counted_at id c q read_fwd_single 1 (call 10) (call 20)))
                     incr64
              <$> cell (table_of id stats_after_pair) c q.
Proof.
  assert (mods stats_after_pair !! 1%nat = Some (call 20)) as Hm by reflexivity.
  assert (basemod_loop_of Raw read_fwd_single [(1, [call 10])] stats_after_pair
    = Some {| mods := [call 10; call 20] ++ replicate 8 hts_base_mod_zero;
              methyl_fwd := table_with 2 20 2;
              methyl_rev := zero_table;
              hydroxy_fwd := table_with 2 10 2;
              hydroxy_rev := zero_table |}) as H by (vm_compute; reflexivity).
  split; [exact Hm|]. split; [exact H|].
  exact (single_kind_site_uses_stale_entry Raw read_fwd_single 1 (call 10) (call 20)
           [] stats_after_pair _ Hm H).
Defined.

(** ** The read loop is a single pass *)

(** X7.  The read loop of either program goes through the stream once:
    over records read with a status above [-1] followed by more stream it
    continues from the state the records leave, and at the first status
    that is not above [-1] it stops with this status and the state
    reached, whatever follows in the stream. *)
Theorem read_loop_single_pass (v : variant) (before after : list (Z * bam1_t))
    (s : mod_prob_stats) :
  Forall (λ r : Z * bam1_t, r.1 > -1) before →
  read_loop_of v (before ++ after) s =
    (r ← read_loop_of v before s; read_loop_of v after r.2) ∧
  ∀ st aln, st ≤ -1 →
    read_loop_of v (before ++ (st, aln) :: after) s =
      (r ← read_loop_of v before s; Some (st, r.2)).
Proof.
  intros Hb.
  assert (∀ rest, NanoporeModsFmt.read_loop (before ++ rest) s =
                  (r ← NanoporeModsFmt.read_loop before s;
                   NanoporeModsFmt.read_loop rest r.2)) as Happ.
  { intros rest. revert s.
    induction Hb as [|[st0 aln0] before Hst Hb IH]; intros s; [reflexivity|].
    cbn [app NanoporeModsFmt.read_loop]. simpl in Hst.
    rewrite !decide_True by done.
    destruct (NanoporeModsFmt.operator_call s aln0) as [s1|]; [|reflexivity].
    cbn [mbind option_bind]. apply IH. }
  split.
  - rewrite !read_loop_of_eq, Happ.
    destruct (NanoporeModsFmt.read_loop before s) as [[st1 s1]|]; [|reflexivity].
    cbn [mbind option_bind]. by rewrite read_loop_of_eq.
  - intros st aln Hst. rewrite !read_loop_of_eq, Happ.
    destruct (NanoporeModsFmt.read_loop before s) as [[st1 s1]|]; [|reflexivity].
    cbn [mbind option_bind NanoporeModsFmt.read_loop].
    by rewrite decide_False by lia.
Qed.

Lemma read_loop_single_pass_witness :
  Forall (λ r : Z * bam1_t, r.1 > -1) [(0, read_fwd_pair)] ∧
  read_loop_of Raw ([(0, read_fwd_pair)] ++ [(0, read_rev_mirror)]) mod_prob_stats_init =
    (r ← read_loop_of Raw [(0, read_fwd_pair)] mod_prob_stats_init;
     read_loop_of Raw [(0, read_rev_mirror)] r.2) ∧
  ∀ st aln, st ≤ -1 →
    read_loop_of Raw ([(0, read_fwd_pair)] ++ (st, aln) :: [(0, read_rev_mirror)])
      mod_prob_stats_init =
      (r ← read_loop_of Raw [(0, read_fwd_pair)] mod_prob_stats_init; Some (st, r.2)).
Proof.
  assert (Forall (λ r : Z * bam1_t, r.1 > -1) [(0, read_fwd_pair)]) as Hb
    by (repeat constructor).
  split; [exact Hb|].
  exact (read_loop_single_pass Raw [(0, read_fwd_pair)] [(0, read_rev_mirror)]
           mod_prob_stats_init Hb).
Defined.

(** ** The two layouts of the second program *)

(** X8.  The strand-collapsed report is the strand-separated report with
    the two strands added: on tables of the declared sizes, under each of
    the keys "CA", "CC", "CG", "CT" the collapsed methyl histogram is the
    element-wise sum modulo [2^64] of the histograms that the separated
    report holds under the same key in [methyl_fwd] and [methyl_rev], and
    the same for hydroxy. *)
Theorem collapsed_is_sum_of_stranded (mps : mod_prob_stats) :
  tables_shape mps →
  ∃ rc rs,
    NanoporeModsFmt.mod_prob_stats_fmt mps = Some rc ∧
    NanoporeModsFmt.mod_prob_stats_fmt_stranded mps = Some rs ∧
    ∀ key, key ∈ NanoporeModsFmt.dinucs →
      ∃ mf mr hf hr,
        NanoporeModsFmt.Stranded.methyl_fwd rs !! key = Some mf ∧
        NanoporeModsFmt.Stranded.methyl_rev rs !! key = Some mr ∧
        NanoporeModsFmt.Stranded.hydroxy_fwd rs !! key = Some hf ∧
        NanoporeModsFmt.Stranded.hydroxy_rev rs !! key = Some hr ∧
        NanoporeModsFmt.Collapsed.methyl rc !! key = Some (zip_with add64 mf mr) ∧
        NanoporeModsFmt.Collapsed.hydroxy rc !! key = Some (zip_with add64 hf hr).
Proof.
  intros (Hmf & Hmr & Hhf & Hhr)%tables_shape_iff.
  apply table_shape_inv in Hmf as (a0 & a1 & a2 & a3 & Emf & ? & ? & ? & ?).
  apply table_shape_inv in Hmr as (b0 & b1 & b2 & b3 & Emr & ? & ? & ? & ?).
  apply table_shape_inv in Hhf as (c0 & c1 & c2 & c3 & Ehf & ? & ? & ? & ?).
  apply table_shape_inv in Hhr as (d0 & d1 & d2 & d3 & Ehr & ? & ? & ? & ?).
  do 2 eexists. split.
  { apply mod_prob_stats_fmt_maps.
    - rewrite Emf, Emr. apply sum_to_map_rows.
    - rewrite Ehf, Ehr. apply sum_to_map_rows. }
  split.
  { apply mod_prob_stats_fmt_stranded_maps.
    - rewrite Emf. apply to_map_rows.
    - rewrite Emr. apply to_map_rows.
    - rewrite Ehf. apply to_map_rows.
    - rewrite Ehr. apply to_map_rows. }
  cbn [NanoporeModsFmt.Collapsed.methyl NanoporeModsFmt.Collapsed.hydroxy
       NanoporeModsFmt.Stranded.methyl_fwd NanoporeModsFmt.Stranded.methyl_rev
       NanoporeModsFmt.Stranded.hydroxy_fwd NanoporeModsFmt.Stranded.hydroxy_rev].
  rewrite !v_sum_same_length by lia.
  intros key Hkey. unfold NanoporeModsFmt.dinucs in Hkey.
  rewrite !elem_of_cons, elem_of_nil in Hkey.
  destruct Hkey as [->|[->|[->|[->|[]]]]];
    do 4 eexists;
    (split; [by simplify_map_eq|]); (split; [by simplify_map_eq|]);
    (split; [by simplify_map_eq|]); (split; [by simplify_map_eq|]);
    split; by simplify_map_eq.
Qed.

Lemma collapsed_is_sum_of_stranded_witness :
  tables_shape stats_after_pair ∧
  ∃ rc rs,
    NanoporeModsFmt.mod_prob_stats_fmt stats_after_pair = Some rc ∧
    NanoporeModsFmt.mod_prob_stats_fmt_stranded stats_after_pair = Some rs ∧
    ∀ key, key ∈ NanoporeModsFmt.dinucs →
      ∃ mf mr hf hr,
        NanoporeModsFmt.Stranded.methyl_fwd rs !! key = Some mf ∧
        NanoporeModsFmt.Stranded.methyl_rev rs !! key = Some mr ∧
        NanoporeModsFmt.Stranded.hydroxy_fwd rs !! key = Some hf ∧
        NanoporeModsFmt.Stranded.hydroxy_rev rs !! key = Some hr ∧
        NanoporeModsFmt.Collapsed.methyl rc !! key = Some (zip_with add64 mf mr) ∧
        NanoporeModsFmt.Collapsed.hydroxy rc !! key = Some (zip_with add64 hf hr).
Proof.
  assert (tables_shape stats_after_pair) as Hs by compute_done.
  split; [exact Hs|].
  exact (collapsed_is_sum_of_stranded stats_after_pair Hs).
Defined.

(** X9.  The strand-separated layout conserves the counts without any
    condition on the counters: on tables of the declared sizes the sum of
    all counters of its four maps is the sum of all counters of the four
    raw tables. *)
Theorem stranded_conserves_total (mps : mod_prob_stats) :
  tables_shape mps →
  ∃ rs, NanoporeModsFmt.mod_prob_stats_fmt_stranded mps = Some rs ∧
        stranded_total rs = raw_total mps.
Proof.
  intros (Hmf & Hmr & Hhf & Hhr)%tables_shape_iff.
  apply table_shape_inv in Hmf as (a0 & a1 & a2 & a3 & Emf & _).
  apply table_shape_inv in Hmr as (b0 & b1 & b2 & b3 & Emr & _).
  apply table_shape_inv in Hhf as (c0 & c1 & c2 & c3 & Ehf & _).
  apply table_shape_inv in Hhr as (d0 & d1 & d2 & d3 & Ehr & _).
  eexists. split.
  { apply mod_prob_stats_fmt_stranded_maps.
    - rewrite Emf. apply to_map_rows.
    - rewrite Emr. apply to_map_rows.
    - rewrite Ehf. apply to_map_rows.
    - rewrite Ehr. apply to_map_rows. }
  unfold stranded_total, raw_total.
  cbn [NanoporeModsFmt.Stranded.methyl_fwd NanoporeModsFmt.Stranded.methyl_rev
       NanoporeModsFmt.Stranded.hydroxy_fwd NanoporeModsFmt.Stranded.hydroxy_rev].
  rewrite !(map_total_four "CA" "CC" "CG" "CT") by compute_done.
  rewrite !(map_total_four "CT" "CG" "CC" "CA") by compute_done.
  rewrite Emf, Emr, Ehf, Ehr, !table_total_four. lia.
Qed.

Lemma stranded_conserves_total_witness :
  tables_shape stats_two_halves ∧
  ∃ rs, NanoporeModsFmt.mod_prob_stats_fmt_stranded stats_two_halves = Some rs ∧
        stranded_total rs = raw_total stats_two_halves.
Proof.
  assert (tables_shape stats_two_halves) as Hs by compute_done.
  split; [exact Hs|].
  exact (stranded_conserves_total stats_two_halves Hs).
Defined.

(** ** The state at the end of a run *)

Lemma iter_incr64_range (j : nat) (x : Z) :
  0 ≤ x < uint64_modulus → 0 ≤ Nat.iter j incr64 x < uint64_modulus.
Proof. intros Hx. destruct j as [|j]; [done|]. simpl. apply incr64_range. Qed.

Lemma table_range_of_cells (t : list (list Z)) :
  (∀ c q x, cell t c q = Some x → 0 ≤ x < uint64_modulus) → table_range t.
Proof.
  intros H. unfold table_range. rewrite Forall_lookup. intros c h Hh.
  rewrite Forall_lookup. intros q x Hx. apply (H c q). unfold cell.
  rewrite Hh. exact Hx.
Qed.

(** Whatever the records, a run from the initial state leaves four
    tables of the declared sizes whose counters are [std::uint64_t]. *)
Lemma run_tables_ok (stream : list (Z * bam1_t)) (st : Z) (s : mod_prob_stats) :
  NanoporeModsFmt.read_loop stream mod_prob_stats_init = Some (st, s) →
  tables_shape s ∧ tables_range s.
Proof.
  intros Hrun. split.
  - eapply read_loop_shape; [exact Hrun|]. apply mod_prob_stats_init_ok.
  - assert (∀ id, table_range (table_of id s)) as H.
    { intros id. apply table_range_of_cells. intros c q x Hx.
      destruct (read_loop_grown _ _ _ _ Hrun id c q) as (j & _ & E).
      rewrite Hx in E.
      destruct (cell (table_of id mod_prob_stats_init) c q) as [x0|] eqn:H0;
        [|discriminate].
      apply cell_init in H0 as ->. injection E as ->.
      apply iter_incr64_range. closed_range. }
    unfold tables_range, tables.
    repeat (apply Forall_cons; split); [| | | |constructor].
    + exact (H MethylFwd).
    + exact (H MethylRev).
    + exact (H HydroxyFwd).
    + exact (H HydroxyRev).
Qed.

(** The status that ends the read loop is the first status of the stream
    that is not above [-1]. *)
Lemma read_loop_last_status (stream : list (Z * bam1_t)) (s s' : mod_prob_stats) (st : Z) :
  NanoporeModsFmt.read_loop stream s = Some (st, s') → st = last_status stream.
Proof.
  revert s. induction stream as [|[st0 aln] rest IH]; intros s H.
  - by injection H as <- <-.
  - cbn [NanoporeModsFmt.read_loop last_status] in *. case_decide.
    + destruct (NanoporeModsFmt.operator_call s aln) as [s1|]; [|discriminate].
      cbn [mbind option_bind] in H. eauto.
    + by injection H as <- <-.
Qed.

(** ** The reports on a state of the declared sizes *)

Lemma zip_add64_range (a b : list Z) :
  Forall (λ x, 0 ≤ x < uint64_modulus) (zip_with add64 a b).
Proof.
  revert b. induction a as [|x a IH]; intros [|y b]; simpl; try constructor.
  - unfold add64. apply Z.mod_pos_bound. reflexivity.
  - apply IH.
Qed.

Lemma four_keys_Forall (P : list Z → Prop) (k0 k1 k2 k3 : string)
    (h0 h1 h2 h3 : list Z) :
  P h0 → P h1 → P h2 → P h3 →
  map_Forall (λ _ h, P h)
    (<[k3 := h3]> (<[k2 := h2]> (<[k1 := h1]> (<[k0 := h0]>
       (∅ : gmap string (list Z)))))).
Proof.
  intros H0 H1 H2 H3.
  repeat (apply map_Forall_insert_2; [assumption|]).
  apply map_Forall_empty.
Qed.

Lemma four_keys_dom_rev (h0 h1 h2 h3 : list Z) :
  dom (<["CA" := h3]> (<["CC" := h2]> (<["CG" := h1]> (<["CT" := h0]>
         (∅ : gmap string (list Z)))))) =@{gset string} {["CA"; "CC"; "CG"; "CT"]}.
Proof.
  rewrite !dom_insert_L, dom_empty_L. apply set_eq. intros k.
  rewrite !elem_of_union, !elem_of_singleton, elem_of_empty. tauto.
Qed.

Lemma table_rows_ok (h0 h1 h2 h3 : list Z) :
  table_shape [h0; h1; h2; h3] → table_range [h0; h1; h2; h3] →
  histogram_ok h0 ∧ histogram_ok h1 ∧ histogram_ok h2 ∧ histogram_ok h3.
Proof.
  intros [_ Hs] Hr. unfold table_range in Hr.
  rewrite !Forall_cons in Hs, Hr. unfold histogram_ok. tauto.
Qed.

(** Both formatters on a state of the declared sizes: they are defined,
    the separated report reads back as the four tables, and every map of
    either report is well formed. *)
Lemma formatters_on_shape (mps : mod_prob_stats) :
  tables_shape mps → tables_range mps →
  ∃ rc rs,
    NanoporeModsFmt.mod_prob_stats_fmt mps = Some rc ∧
    NanoporeModsFmt.mod_prob_stats_fmt_stranded mps = Some rs ∧
    unseparate rs = Some (tables mps) ∧
    Forall map_ok (report_maps (NanoporeModsFmt.ReportCollapsed rc)) ∧
    Forall map_ok (report_maps (NanoporeModsFmt.ReportStranded rs)).
Proof.
  intros Hshape Hrange.
  pose proof Hshape as (Hmf & Hmr & Hhf & Hhr)%tables_shape_iff.
  unfold tables_range, tables in Hrange. rewrite !Forall_cons in Hrange.
  destruct Hrange as (Rmf & Rmr & Rhf & Rhr & _).
  destruct (to_map_relabels _ _ _ _ _ Hmf dinucs_NoDup) as (mf & Emf & _ & _ & Umf).
  destruct (to_map_relabels _ _ _ _ _ Hmr dinucs_rev_NoDup) as (mr & Emr & _ & _ & Umr).
  destruct (to_map_relabels _ _ _ _ _ Hhf dinucs_NoDup) as (hf & Ehf & _ & _ & Uhf).
  destruct (to_map_relabels _ _ _ _ _ Hhr dinucs_rev_NoDup) as (hr & Ehr & _ & _ & Uhr).
  pose proof Hmf as (a0 & a1 & a2 & a3 & Ea & ? & ? & ? & ?)%table_shape_inv.
  pose proof Hmr as (b0 & b1 & b2 & b3 & Eb & ? & ? & ? & ?)%table_shape_inv.
  pose proof Hhf as (c0 & c1 & c2 & c3 & Ec & ? & ? & ? & ?)%table_shape_inv.
  pose proof Hhr as (d0 & d1 & d2 & d3 & Ed & ? & ? & ? & ?)%table_shape_inv.
  rewrite Ea in Emf, Hmf, Rmf. rewrite Eb in Emr, Hmr, Rmr.
  rewrite Ec in Ehf, Hhf, Rhf. rewrite Ed in Ehr, Hhr, Rhr.
  unfold NanoporeModsFmt.dinucs in Emf, Ehf.
  unfold NanoporeModsFmt.dinucs_rev in Emr, Ehr.
  rewrite to_map_rows in Emf, Emr, Ehf, Ehr.
  injection Emf as <-. injection Emr as <-. injection Ehf as <-. injection Ehr as <-.
  destruct (table_rows_ok _ _ _ _ Hmf Rmf) as (? & ? & ? & ?).
  destruct (table_rows_ok _ _ _ _ Hmr Rmr) as (? & ? & ? & ?).
  destruct (table_rows_ok _ _ _ _ Hhf Rhf) as (? & ? & ? & ?).
  destruct (table_rows_ok _ _ _ _ Hhr Rhr) as (? & ? & ? & ?).
  do 2 eexists. split.
  { apply mod_prob_stats_fmt_maps.
    - rewrite Ea, Eb. apply sum_to_map_rows.
    - rewrite Ec, Ed. apply sum_to_map_rows. }
  split.
  { apply mod_prob_stats_fmt_stranded_maps.
    - rewrite Ea. apply to_map_rows.
    - rewrite Eb. apply to_map_rows.
    - rewrite Ec. apply to_map_rows.
    - rewrite Ed. apply to_map_rows. }
  split.
  { unfold unseparate.
    cbn [NanoporeModsFmt.Stranded.methyl_fwd NanoporeModsFmt.Stranded.methyl_rev
         NanoporeModsFmt.Stranded.hydroxy_fwd NanoporeModsFmt.Stranded.hydroxy_rev].
    unfold NanoporeModsFmt.dinucs, NanoporeModsFmt.dinucs_rev.
    rewrite Umf, Umr, Uhf, Uhr. unfold tables. by rewrite Ea, Eb, Ec, Ed. }
  assert (∀ a b : list Z, length a = Z.to_nat n_values → length b = Z.to_nat n_values →
            histogram_ok (NanoporeModsFmt.v_sum a b)) as Hsum.
  { intros a b Ha Hb. rewrite v_sum_same_length by lia. split.
    - rewrite length_zip_with. lia.
    - apply zip_add64_range. }
  cbn [report_maps NanoporeModsFmt.Collapsed.methyl NanoporeModsFmt.Collapsed.hydroxy
       NanoporeModsFmt.Stranded.methyl_fwd NanoporeModsFmt.Stranded.methyl_rev
       NanoporeModsFmt.Stranded.hydroxy_fwd NanoporeModsFmt.Stranded.hydroxy_rev].
  split.
  - repeat (apply Forall_cons; split); [| |constructor];
      (split; [apply four_keys_dom|apply four_keys_Forall; by apply Hsum]).
  - repeat (apply Forall_cons; split); [| | | |constructor].
    + split; [apply four_keys_dom|by apply four_keys_Forall].
    + split; [apply four_keys_dom_rev|by apply four_keys_Forall].
    + split; [apply four_keys_dom|by apply four_keys_Forall].
    + split; [apply four_keys_dom_rev|by apply four_keys_Forall].
Qed.

(** ** What [main] writes *)

(** [main] of the first program, when it writes a report. *)
Lemma main_writes (e : run_env) (evs : list (event NanoporeMods.report))
    (c : completion) (t : NanoporeMods.report) :
  NanoporeMods.main e = Some (evs, c) → WriteReport t ∈ evs →
  run_completes e ∧ evs = [OpenOutput (outfile e); WriteReport t] ∧
  c = Return EXIT_SUCCESS ∧
  ∃ mps, NanoporeModsFmt.read_loop (sam_stream e) mod_prob_stats_init = Some (-1, mps) ∧
         t = tables mps.
Proof.
  unfold NanoporeMods.main, run_completes. intros H Hin.
  case_decide as Hargc.
  { injection H as <- <-. by apply list_elem_of_singleton in Hin. }
  destruct (cli11_parse_exit e) as [status|].
  { injection H as <- <-. by apply elem_of_nil in Hin. }
  destruct (hts_open_ok e); cbn [negb] in H;
    [|injection H as <- <-; by apply elem_of_nil in Hin].
  destruct (sam_hdr_read_ok e); cbn [negb] in H;
    [|injection H as <- <-; by apply elem_of_nil in Hin].
  rewrite read_loop_agree in H.
  destruct (NanoporeModsFmt.read_loop (sam_stream e) mod_prob_stats_init)
    as [[st mps]|] eqn:Hloop; [|discriminate].
  cbn [mbind option_bind] in H.
  pose proof (read_loop_status _ _ _ _ Hloop) as Hst.
  pose proof (read_loop_last_status _ _ _ _ Hloop) as Hlast.
  case_decide as Hlt.
  { injection H as <- <-. by apply list_elem_of_singleton in Hin. }
  assert (st = -1) as -> by lia.
  destruct (ofstream_ok e); cbn [negb] in H;
    [|injection H as <- <-; by apply list_elem_of_singleton in Hin].
  injection H as <- <-.
  rewrite !elem_of_cons, elem_of_nil in Hin.
  destruct Hin as [Hin|[Hin|[]]]; [discriminate|]. injection Hin as ->.
  split; [repeat split; (lia || done)|]. eauto.
Qed.

(** [main] of the second program, when it writes a report. *)
Lemma main_fmt_writes (stranded : bool) (e : run_env)
    (evs : list (event NanoporeModsFmt.report)) (c : completion)
    (r : NanoporeModsFmt.report) :
  NanoporeModsFmt.main stranded e = Some (evs, c) → WriteReport r ∈ evs →
  run_completes e ∧ evs = [OpenOutput (outfile e); WriteReport r] ∧
  c = Return EXIT_SUCCESS ∧
  ∃ mps, NanoporeModsFmt.read_loop (sam_stream e) mod_prob_stats_init = Some (-1, mps) ∧
         if stranded
         then ∃ rs, NanoporeModsFmt.mod_prob_stats_fmt_stranded mps = Some rs ∧
                    r = NanoporeModsFmt.ReportStranded rs
         else ∃ rc, NanoporeModsFmt.mod_prob_stats_fmt mps = Some rc ∧
                    r = NanoporeModsFmt.ReportCollapsed rc.
Proof.
  unfold NanoporeModsFmt.main, run_completes. intros H Hin.
  case_decide as Hargc.
  { injection H as <- <-. by apply list_elem_of_singleton in Hin. }
  destruct (cli11_parse_exit e) as [status|].
  { injection H as <- <-. by apply elem_of_nil in Hin. }
  destruct (hts_open_ok e); cbn [negb] in H;
    [|injection H as <- <-; by apply elem_of_nil in Hin].
  destruct (sam_hdr_read_ok e); cbn [negb] in H;
    [|injection H as <- <-; by apply elem_of_nil in Hin].
  destruct (NanoporeModsFmt.read_loop (sam_stream e) mod_prob_stats_init)
    as [[st mps]|] eqn:Hloop; [|discriminate].
  cbn [mbind option_bind] in H.
  pose proof (read_loop_status _ _ _ _ Hloop) as Hst.
  pose proof (read_loop_last_status _ _ _ _ Hloop) as Hlast.
  case_decide as Hlt.
  { injection H as <- <-. by apply list_elem_of_singleton in Hin. }
  assert (st = -1) as -> by lia.
  destruct (ofstream_ok e); cbn [negb] in H;
    [|injection H as <- <-; by apply list_elem_of_singleton in Hin].
  destruct stranded.
  - destruct (NanoporeModsFmt.mod_prob_stats_fmt_stranded mps) as [rs|] eqn:Hrs;
      [|discriminate]. cbn [mbind option_bind] in H.
    injection H as <- <-.
    rewrite !elem_of_cons, elem_of_nil in Hin.
    destruct Hin as [Hin|[Hin|[]]]; [discriminate|]. injection Hin as ->.
    split; [repeat split; (lia || done)|]. eauto 8.
  - destruct (NanoporeModsFmt.mod_prob_stats_fmt mps) as [rc|] eqn:Hrc;
      [|discriminate]. cbn [mbind option_bind] in H.
    injection H as <- <-.
    rewrite !elem_of_cons, elem_of_nil in Hin.
    destruct Hin as [Hin|[Hin|[]]]; [discriminate|]. injection Hin as ->.
    split; [repeat split; (lia || done)|]. eauto 8.
Qed.

(** X11.  Every report that [main] of the second program writes, in
    either layout, is well formed, whatever the records were: each of its
    maps has exactly the keys "CA", "CC", "CG", "CT", and under each key a
    histogram of 256 counters in the range of a [std::uint64_t]. *)
Theorem written_report_is_well_formed (stranded : bool) (e : run_env)
    (evs : list (event NanoporeModsFmt.report)) (c : completion)
    (r : NanoporeModsFmt.report) :
  NanoporeModsFmt.main stranded e = Some (evs, c) →
  WriteReport r ∈ evs →
  length (report_maps r) = (if stranded then 4 else 2)%nat ∧
  Forall map_ok (report_maps r).
Proof.
  intros Hmain Hin.
  destruct (main_fmt_writes _ _ _ _ _ Hmain Hin) as (_ & _ & _ & mps & Hloop & Hr).
  destruct (run_tables_ok _ _ _ Hloop) as [Hshape Hrange].
  destruct (formatters_on_shape mps Hshape Hrange)
    as (rc & rs & Hrc & Hrs & _ & Hokc & Hoks).
  destruct stranded.
  - destruct Hr as (rs' & Hrs' & ->). rewrite Hrs in Hrs'. injection Hrs' as <-.
    split; [reflexivity|exact Hoks].
  - destruct Hr as (rc' & Hrc' & ->). rewrite Hrc in Hrc'. injection Hrc' as <-.
    split; [reflexivity|exact Hokc].
Qed.

Lemma written_report_is_well_formed_witness :
  ∃ evs c r,
    NanoporeModsFmt.main false env_eof = Some (evs, c) ∧
    WriteReport r ∈ evs ∧
    length (report_maps r) = 2%nat ∧
    Forall map_ok (report_maps r).
Proof.
  destruct run_to_eof_writes_report as (rc & Hmain & _).
  assert (WriteReport (NanoporeModsFmt.ReportCollapsed rc) ∈
            [OpenOutput "out.json"; WriteReport (NanoporeModsFmt.ReportCollapsed rc)])
    as Hin by (apply list_elem_of_further, list_elem_of_here).
  do 3 eexists. split; [exact Hmain|]. split; [exact Hin|].
  exact (written_report_is_well_formed false env_eof _ _ _ Hmain Hin).
Defined.

(** X12.  The report that [main] of the first program writes is four
    tables of four histograms of 256 counters in the range of a
    [std::uint64_t], whatever the records were. *)
Theorem written_tables_are_well_formed (e : run_env)
    (evs : list (event NanoporeMods.report)) (c : completion)
    (t : NanoporeMods.report) :
  NanoporeMods.main e = Some (evs, c) →
  WriteReport t ∈ evs →
  length t = 4%nat ∧ Forall table_ok t.
Proof.
  intros Hmain Hin.
  destruct (main_writes _ _ _ _ Hmain Hin) as (_ & _ & _ & mps & Hloop & ->).
  destruct (run_tables_ok _ _ _ Hloop) as [Hshape Hrange].
  split; [reflexivity|].
  unfold tables_shape in Hshape. unfold tables_range in Hrange.
  rewrite Forall_lookup in Hshape. rewrite Forall_lookup in Hrange.
  apply Forall_lookup. intros i tbl Hi.
  destruct (Hshape _ _ Hi) as [Hlen Hrows]. pose proof (Hrange _ _ Hi) as Hr.
  split; [exact Hlen|].
  unfold table_range in Hr.
  rewrite Forall_lookup in Hrows. rewrite Forall_lookup in Hr.
  apply Forall_lookup. intros j h Hj. split; eauto.
Qed.

Lemma written_tables_are_well_formed_witness :
  ∃ evs c t,
    NanoporeMods.main env_eof = Some (evs, c) ∧
    WriteReport t ∈ evs ∧
    length t = 4%nat ∧ Forall table_ok t.
Proof.
  assert (NanoporeMods.main env_eof =
            Some ([OpenOutput "out.json"; WriteReport (tables stats_after_pair)],
                  Return EXIT_SUCCESS)) as Hmain by (vm_compute; reflexivity).
  assert (WriteReport (tables stats_after_pair) ∈
            [OpenOutput "out.json"; WriteReport (tables stats_after_pair)])
    as Hin by (apply list_elem_of_further, list_elem_of_here).
  do 3 eexists. split; [exact Hmain|]. split; [exact Hin|].
  exact (written_tables_are_well_formed env_eof _ _ _ Hmain Hin).
Defined.

(** X13.  When every record is well formed, [main] of either program
    writes a report exactly when the run completes: the arguments are
    given and parsed, the input and its header are read, the reader ends
    with [-1] and the output file opens.  It then opens the output, writes
    one report and returns [EXIT_SUCCESS]; in no other run is a report
    written. *)
Theorem report_written_iff (stranded : bool) (e : run_env) :
  Forall (λ r, aln_ok r.2) (sam_stream e) →
  (run_completes e ↔
   ∃ t, NanoporeMods.main e =
          Some ([OpenOutput (outfile e); WriteReport t], Return EXIT_SUCCESS)) ∧
  (run_completes e ↔
   ∃ r, NanoporeModsFmt.main stranded e =
          Some ([OpenOutput (outfile e); WriteReport r], Return EXIT_SUCCESS)) ∧
  (∀ evs c t, NanoporeMods.main e = Some (evs, c) → WriteReport t ∈ evs →
     run_completes e ∧ evs = [OpenOutput (outfile e); WriteReport t] ∧
     c = Return EXIT_SUCCESS) ∧
  (∀ evs c r, NanoporeModsFmt.main stranded e = Some (evs, c) → WriteReport r ∈ evs →
     run_completes e ∧ evs = [OpenOutput (outfile e); WriteReport r] ∧
     c = Return EXIT_SUCCESS).
Proof.
  intros Hok.
  assert (∀ evs c t, NanoporeMods.main e = Some (evs, c) → WriteReport t ∈ evs →
     run_completes e ∧ evs = [OpenOutput (outfile e); WriteReport t] ∧
     c = Return EXIT_SUCCESS) as Hraw.
  { intros evs c t Hmain Hin.
    destruct (main_writes _ _ _ _ Hmain Hin) as (? & ? & ? & _). done. }
  assert (∀ evs c r, NanoporeModsFmt.main stranded e = Some (evs, c) →
     WriteReport r ∈ evs →
     run_completes e ∧ evs = [OpenOutput (outfile e); WriteReport r] ∧
     c = Return EXIT_SUCCESS) as Hfmt.
  { intros evs c r Hmain Hin.
    destruct (main_fmt_writes _ _ _ _ _ Hmain Hin) as (? & ? & ? & _). done. }
  assert (run_completes e →
    (∃ t, NanoporeMods.main e =
            Some ([OpenOutput (outfile e); WriteReport t], Return EXIT_SUCCESS)) ∧
    (∃ r, NanoporeModsFmt.main stranded e =
            Some ([OpenOutput (outfile e); WriteReport r], Return EXIT_SUCCESS)))
    as Hrun.
  { intros (Hargc & Hcli & Hin & Hhdr & Hlast & Hout).
    destruct (read_loop_defined Formatted _ _ mod_prob_stats_init_ok Hok)
      as (st & mps & Hloop & _ & _).
    simpl in Hloop. pose proof Hloop as Hloop'. rewrite <- read_loop_agree in Hloop'.
    pose proof (read_loop_last_status _ _ _ _ Hloop) as Hst.
    destruct (run_tables_ok _ _ _ Hloop) as [Hshape Hrange].
    destruct (formatters_on_shape mps Hshape Hrange) as (rc & rs & Hrc & Hrs & _).
    rewrite (main_after_loop e st mps) by done.
    rewrite (main_fmt_after_loop stranded e st mps) by done.
    rewrite !decide_False by lia. rewrite Hout, Hrc, Hrs. cbn [negb].
    split; [by eauto|]. destruct stranded; by eauto. }
  split; [|split; [|split; [exact Hraw|exact Hfmt]]].
  - split; [by intros [? _]%Hrun|].
    intros [t Hmain]. eapply Hraw; [exact Hmain|].
    apply list_elem_of_further, list_elem_of_here.
  - split; [by intros [_ ?]%Hrun|].
    intros [r Hmain]. eapply Hfmt; [exact Hmain|].
    apply list_elem_of_further, list_elem_of_here.
Qed.

Lemma report_written_iff_witness :
  Forall (λ r : Z * bam1_t, aln_ok r.2) (sam_stream env_eof) ∧
  (run_completes env_eof ↔
   ∃ t, NanoporeMods.main env_eof =
          Some ([OpenOutput (outfile env_eof); WriteReport t], Return EXIT_SUCCESS)) ∧
  (run_completes env_eof ↔
   ∃ r, NanoporeModsFmt.main true env_eof =
          Some ([OpenOutput (outfile env_eof); WriteReport r], Return EXIT_SUCCESS)) ∧
  (∀ evs c t, NanoporeMods.main env_eof = Some (evs, c) → WriteReport t ∈ evs →
     run_completes env_eof ∧ evs = [OpenOutput (outfile env_eof); WriteReport t] ∧
     c = Return EXIT_SUCCESS) ∧
  (∀ evs c r, NanoporeModsFmt.main true env_eof = Some (evs, c) → WriteReport r ∈ evs →
     run_completes env_eof ∧ evs = [OpenOutput (outfile env_eof); WriteReport r] ∧
     c = Return EXIT_SUCCESS).
Proof.
  assert (Forall (λ r : Z * bam1_t, aln_ok r.2) (sam_stream env_eof)) as Hok.
  { unfold aln_ok, quals_ok. compute_done. }
  split; [exact Hok|].
  exact (report_written_iff true env_eof Hok).
Defined.

(** X14.  The second program follows the first: on any input on which
    [main] of the first program is defined, [main] of the second program,
    in either layout, completes in the same way after the same events,
    reports apart; and where the first writes its four tables, the second
    writes the formatted report of a state with these tables, which in the
    strand-separated layout reads back as the four tables. *)
Theorem second_program_follows_first (stranded : bool) (e : run_env)
    (evs : list (event NanoporeMods.report)) (c : completion) :
  NanoporeMods.main e = Some (evs, c) →
  ∃ evs', NanoporeModsFmt.main stranded e = Some (evs', c) ∧
    outline <$> evs' = outline <$> evs ∧
    ∀ t, WriteReport t ∈ evs →
      ∃ mps, tables mps = t ∧
        if stranded
        then ∃ rs, NanoporeModsFmt.mod_prob_stats_fmt_stranded mps = Some rs ∧
                   WriteReport (NanoporeModsFmt.ReportStranded rs) ∈ evs' ∧
                   unseparate rs = Some t
        else ∃ rc, NanoporeModsFmt.mod_prob_stats_fmt mps = Some rc ∧
                   WriteReport (NanoporeModsFmt.ReportCollapsed rc) ∈ evs'.
Proof.
  unfold NanoporeMods.main, NanoporeModsFmt.main. intros H.
  case_decide as Hargc.
  { injection H as <- <-. eexists. split; [reflexivity|]. split; [reflexivity|].
    intros t Hin. by apply list_elem_of_singleton in Hin. }
  destruct (cli11_parse_exit e) as [status|].
  { injection H as <- <-. eexists. split; [reflexivity|]. split; [reflexivity|].
    intros t Hin. by apply elem_of_nil in Hin. }
  destruct (hts_open_ok e); cbn [negb] in *.
  2:{ injection H as <- <-. eexists. split; [reflexivity|]. split; [reflexivity|].
      intros t Hin. by apply elem_of_nil in Hin. }
  destruct (sam_hdr_read_ok e); cbn [negb] in *.
  2:{ injection H as <- <-. eexists. split; [reflexivity|]. split; [reflexivity|].
      intros t Hin. by apply elem_of_nil in Hin. }
  rewrite read_loop_agree in H.
  destruct (NanoporeModsFmt.read_loop (sam_stream e) mod_prob_stats_init)
    as [[st mps]|] eqn:Hloop; [|discriminate].
  cbn [mbind option_bind] in *.
  destruct (run_tables_ok _ _ _ Hloop) as [Hshape Hrange].
  destruct (formatters_on_shape mps Hshape Hrange) as (rc & rs & Hrc & Hrs & Hun & _).
  case_decide as Hlt.
  { injection H as <- <-. eexists. split; [reflexivity|]. split; [reflexivity|].
    intros t Hin. by apply list_elem_of_singleton in Hin. }
  destruct (ofstream_ok e); cbn [negb] in *.
  2:{ injection H as <- <-. eexists. split; [reflexivity|]. split; [reflexivity|].
      intros t Hin. by apply list_elem_of_singleton in Hin. }
  injection H as <- <-. rewrite Hrc, Hrs.
  destruct stranded; cbn [mbind option_bind];
    (eexists; split; [reflexivity|]; split; [reflexivity|]);
    intros t Hin; rewrite !elem_of_cons, elem_of_nil in Hin;
    destruct Hin as [Hin|[Hin|[]]]; try discriminate; injection Hin as ->;
    exists mps; (split; [reflexivity|]).
  - exists rs. split; [done|]. split; [|done].
    apply list_elem_of_further, list_elem_of_here.
  - exists rc. split; [done|].
    apply list_elem_of_further, list_elem_of_here.
Qed.

Lemma second_program_follows_first_witness :
  NanoporeMods.main env_eof =
    Some ([OpenOutput "out.json"; WriteReport (tables stats_after_pair)],
          Return EXIT_SUCCESS) ∧
  ∃ evs', NanoporeModsFmt.main true env_eof = Some (evs', Return EXIT_SUCCESS) ∧
    outline <$> evs' =
      outline <$> [OpenOutput "out.json"; WriteReport (tables stats_after_pair)] ∧
    ∀ t, WriteReport t ∈ [OpenOutput "out.json"; WriteReport (tables stats_after_pair)] →
      ∃ mps, tables mps = t ∧
        ∃ rs, NanoporeModsFmt.mod_prob_stats_fmt_stranded mps = Some rs ∧
              WriteReport (NanoporeModsFmt.ReportStranded rs) ∈ evs' ∧
              unseparate rs = Some t.
Proof.
  assert (NanoporeMods.main env_eof =
            Some ([OpenOutput "out.json"; WriteReport (tables stats_after_pair)],
                  Return EXIT_SUCCESS)) as Hmain by (vm_compute; reflexivity).
  split; [exact Hmain|].
  exact (second_program_follows_first true env_eof _ _ Hmain).
Defined.

(** ** What the accumulator does not read *)

Lemma same_quals_lookup (d1 d2 : list hts_base_mod) (i : nat) :
  qual <$> d1 = qual <$> d2 →
  option_Forall2 (λ a b, qual a = qual b) (d1 !! i) (d2 !! i).
Proof.
  intros H.
  assert ((qual <$> d1) !! i = (qual <$> d2) !! i) as Hi by (by rewrite H).
  rewrite !list_lookup_fmap in Hi.
  destruct (d1 !! i), (d2 !! i); simpl in Hi; try discriminate; constructor.
  congruence.
Qed.

Lemma other_nuc_same (aln1 aln2 : bam1_t) (pos : Z) :
  l_qseq aln1 = l_qseq aln2 → bam_is_rev aln1 = bam_is_rev aln2 →
  (∀ i, base_at aln1 i = base_at aln2 i) →
  NanoporeModsFmt.other_nuc aln1 pos = NanoporeModsFmt.other_nuc aln2 pos.
Proof.
  intros Hl Hr Hb. unfold NanoporeModsFmt.other_nuc.
  by rewrite Hl, Hr, !Hb.
Qed.

Lemma site_body_same (aln1 aln2 : bam1_t) (n pos : Z) (s1 s2 : mod_prob_stats) :
  l_qseq aln1 = l_qseq aln2 → bam_is_rev aln1 = bam_is_rev aln2 →
  (∀ i, base_at aln1 i = base_at aln2 i) →
  same_counts s1 s2 →
  option_Forall2 same_counts (NanoporeModsFmt.site_body aln1 n pos s1)
                             (NanoporeModsFmt.site_body aln2 n pos s2).
Proof.
  intros Hl Hr Hb Hs. unfold NanoporeModsFmt.site_body.
  case_decide; [by constructor|].
  rewrite (other_nuc_same aln1 aln2 pos Hl Hr Hb), <- Hr.
  destruct (NanoporeModsFmt.other_nuc aln2 pos) as [nuc|]; [|constructor].
  cbn [mbind option_bind].
  destruct (NanoporeModsFmt.encode (to_uint8 nuc)) as [enc|]; [|constructor].
  cbn [mbind option_bind].
  case_decide; [by constructor|].
  destruct Hs as [Ht Hq].
  destruct (same_quals_lookup _ _ (Z.to_nat NanoporeModsFmt.h_idx) Hq) as [h1 h2 Hh|];
    [|constructor].
  cbn [mbind option_bind].
  destruct (same_quals_lookup _ _ (Z.to_nat NanoporeModsFmt.m_idx) Hq) as [m1 m2 Hm|];
    [|constructor].
  cbn [mbind option_bind].
  unfold tables in Ht. injection Ht as Emf Emr Ehf Ehr.
  rewrite Emf, Emr, Ehf, Ehr, Hh, Hm.
  destruct (bam_is_rev aln1).
  - destruct (table_incr (hydroxy_rev s2) enc (qual h2)) as [hr|]; [|constructor].
    cbn [mbind option_bind].
    destruct (table_incr (methyl_rev s2) enc (qual m2)) as [mr|]; [|constructor].
    cbn [mbind option_bind]. constructor. split; [reflexivity|exact Hq].
  - destruct (table_incr (hydroxy_fwd s2) enc (qual h2)) as [hf|]; [|constructor].
    cbn [mbind option_bind].
    destruct (table_incr (methyl_fwd s2) enc (qual m2)) as [mf|]; [|constructor].
    cbn [mbind option_bind]. constructor. split; [reflexivity|exact Hq].
Qed.

Lemma bam_next_basemod_same (site1 site2 : Z * list hts_base_mod)
    (d1 d2 : list hts_base_mod) :
  site1.1 = site2.1 → qual <$> site1.2 = qual <$> site2.2 →
  qual <$> d1 = qual <$> d2 →
  (bam_next_basemod site1 d1).1.1 = (bam_next_basemod site2 d2).1.1 ∧
  (bam_next_basemod site1 d1).2 = (bam_next_basemod site2 d2).2 ∧
  qual <$> (bam_next_basemod site1 d1).1.2 = qual <$> (bam_next_basemod site2 d2).1.2.
Proof.
  intros Hpos Hq Hd. unfold bam_next_basemod. cbn [fst snd].
  assert (length site1.2 = length site2.2) as Hlen.
  { rewrite <- (length_fmap qual site1.2), Hq. apply length_fmap. }
  split; [by rewrite Hlen|]. split; [done|].
  rewrite !fmap_app, !fmap_take, !fmap_drop, !length_take, Hlen, Hq, Hd.
  reflexivity.
Qed.

Lemma basemod_loop_same (aln1 aln2 : bam1_t)
    (pending1 pending2 : list (Z * list hts_base_mod)) (s1 s2 : mod_prob_stats) :
  l_qseq aln1 = l_qseq aln2 → bam_is_rev aln1 = bam_is_rev aln2 →
  (∀ i, base_at aln1 i = base_at aln2 i) →
  Forall2 (λ site site' : Z * list hts_base_mod,
             site.1 = site'.1 ∧ qual <$> site.2 = qual <$> site'.2)
          pending1 pending2 →
  same_counts s1 s2 →
  option_Forall2 same_counts (NanoporeModsFmt.basemod_loop aln1 pending1 s1)
                             (NanoporeModsFmt.basemod_loop aln2 pending2 s2).
Proof.
  intros Hl Hr Hb Hp. revert s1 s2.
  induction Hp as [|site1 site2 rest1 rest2 [Hpos Hq] Hp IH]; intros s1 s2 Hs.
  - by constructor.
  - cbn [NanoporeModsFmt.basemod_loop].
    destruct (bam_next_basemod_same site1 site2 (mods s1) (mods s2) Hpos Hq (proj2 Hs))
      as (En & Epos & Ed).
    destruct (bam_next_basemod site1 (mods s1)) as [[n1 d1] pos1].
    destruct (bam_next_basemod site2 (mods s2)) as [[n2 d2] pos2].
    cbn [fst snd] in En, Epos, Ed. subst n2 pos2.
    assert (same_counts (set_mods d1 s1) (set_mods d2 s2)) as Hs'.
    { split; [exact (proj1 Hs)|exact Ed]. }
    case_decide; [|by constructor].
    destruct (site_body_same aln1 aln2 n1 pos1 _ _ Hl Hr Hb Hs') as [s1' s2' Hs''|];
      [|constructor].
    cbn [mbind option_bind]. by apply IH.
Qed.

(** X15.  The accumulator reads the qualities of the scratch entries and
    nothing else of them: whether an entry is a hydroxymethylation or a
    methylation is decided by its index (0 and 1), never by its code.  On
    two records with the same bases and strand whose sites have the same
    positions and the same qualities in the same order, [operator()] of
    either program gives the same tables, or is undefined on both,
    whatever the codes of the modifications say. *)
Theorem kind_codes_are_ignored (v : variant) (s1 s2 : mod_prob_stats)
    (aln1 aln2 : bam1_t) :
  same_counts s1 s2 → same_calls aln1 aln2 →
  option_Forall2 same_counts (operator_call_of v s1 aln1) (operator_call_of v s2 aln2).
Proof.
  intros Hs (Hl & Hr & Hb & Hp). rewrite !operator_call_of_eq.
  by apply basemod_loop_same.
Qed.

Lemma kind_codes_are_ignored_witness :
  same_counts mod_prob_stats_init mod_prob_stats_init ∧
  same_calls read_fwd_pair read_fwd_pair_swapped ∧
  option_Forall2 same_counts
    (operator_call_of Raw mod_prob_stats_init read_fwd_pair)
    (operator_call_of Raw mod_prob_stats_init read_fwd_pair_swapped).
Proof.
  assert (same_counts mod_prob_stats_init mod_prob_stats_init) as Hs by done.
  assert (same_calls read_fwd_pair read_fwd_pair_swapped) as Hc.
  { split; [reflexivity|]. split; [reflexivity|]. split; [reflexivity|].
    repeat constructor. }
  split; [exact Hs|]. split; [exact Hc|].
  exact (kind_codes_are_ignored Raw _ _ _ _ Hs Hc).
Defined.

(** ** The names of the contexts *)

(** X16.  The keys of the reports spell the context.  For a neighbour
    byte that is one of the four bases, with code [i]: [dinucs[i]], the
    key of row [i] of a forward table, is "C" followed by the neighbour;
    [dinucs_rev[i]], the key of row [i] of a reverse table, is "C"
    followed by the complement of the neighbour. *)
Theorem context_keys_spell_the_dinucleotide (b i : Z) :
  0 ≤ b < 256 →
  NanoporeModsFmt.encode b = Some i → i ≠ NanoporeModsFmt.n_nucs →
  NanoporeModsFmt.dinucs !! Z.to_nat i = Some (dinuc_of b) ∧
  NanoporeModsFmt.dinucs_rev !! Z.to_nat i = Some (dinuc_of (complement b)).
Proof.
  intros Hb Henc Hi.
  destruct (encode_cases Formatted b Hb) as (x & Ex & HA & HC & HG & HT & Hother).
  simpl in Ex. rewrite Ex in Henc. injection Henc as ->.
  destruct (decide (b = 65)) as [->|?]; [by rewrite HA|].
  destruct (decide (b = 67)) as [->|?]; [by rewrite HC|].
  destruct (decide (b = 71)) as [->|?]; [by rewrite HG|].
  destruct (decide (b = 84)) as [->|?]; [by rewrite HT|].
  by destruct Hi; apply Hother.
Qed.

Lemma context_keys_spell_the_dinucleotide_witness :
  0 ≤ 71 < 256 ∧
  NanoporeModsFmt.encode 71 = Some 2 ∧ 2 ≠ NanoporeModsFmt.n_nucs ∧
  NanoporeModsFmt.dinucs !! Z.to_nat 2 = Some (dinuc_of 71) ∧
  NanoporeModsFmt.dinucs_rev !! Z.to_nat 2 = Some (dinuc_of (complement 71)).
Proof.
  assert (0 ≤ 71 < 256) as Hb by lia.
  assert (2 ≠ NanoporeModsFmt.n_nucs) as Hi by done.
  split; [exact Hb|]. split; [reflexivity|]. split; [exact Hi|].
  exact (context_keys_spell_the_dinucleotide 71 2 Hb eq_refl Hi).
Defined.
